(** * dnspyre: scoring, ranking, batch driver, exit status and geocode

    A shallow embedding of the Go sources
      - package [scoring]  ([CalculateScore], [RankServers]),
      - package [geo]      ([NewGeoService], [CheckGeo], [checkIPGeo]),
      - package [cmd]      ([Execute], [getServerGeocode], [runBatchBenchmark],
                            [extractIPFromServer], the file name of
                            [OutputHTML], the histogram points of
                            [generateJSONForHTML]; of [batch.go]
                            [runSingleServerBenchmark],
                            [calculateScoreFromResult] and the file name of
                            [writeResultsToFile]),
    followed by the properties of the specification that concern them and
    by further properties of the same code.

    Conventions of the embedding.
      - An [int64] is a [Z]; the additions the code performs on [int64]
        values wrap around and are written with [add64]; [/] on [int64] is
        Go's truncated division, [Z.quot].
      - Where the code computes with a [float64] it is a real number: [+],
        [-], [*], [/], [math.Max], [math.Min] and [math.Log] are the exact
        operations of [R]; rounding, infinities and NaN are not part of
        that model, and [float64(i)] of an [int64] is [IZR i].  Where the
        code only stores and compares a [float64] ([RankServers]) it is
        [scoring.float64]: a number, an infinity or NaN, with the
        comparison of IEEE 754.
      - A Go [string] is a sequence of bytes, [string] of the standard
        library.
      - A Go [map] with string keys is a [gmap string _]. *)

From Stdlib Require Import ZArith Reals Lra Lia.
From Stdlib Require Import Strings.String Strings.Ascii.
From stdpp Require Import base option list gmap strings sorting pretty.

(* ===================================================================== *)
(** * Package scoring *)
(* ===================================================================== *)

Module scoring.

(** [int64] arithmetic. *)
Definition wrap64 (z : Z) : Z := ((z + 2 ^ 63) mod 2 ^ 64 - 2 ^ 63)%Z.
Definition add64 (a b : Z) : Z := wrap64 (a + b).
(** [a / b] on [int64], for a divisor other than 0 and -1. *)
Definition div64 (a b : Z) : Z := Z.quot a b.

(** [type ScoreResult struct]: five [float64] fields, over the model
    [float] of [float64]. *)
Record ScoreResult_of (float : Type) : Type := mkScoreResult {
  Total       : float;
  SuccessRate : float;
  ErrorRate   : float;
  Latency     : float;
  QPS         : float
}.
Arguments mkScoreResult {float}.
Arguments Total {float}.
Arguments SuccessRate {float}.
Arguments ErrorRate {float}.
Arguments Latency {float}.
Arguments QPS {float}.

(** A [ScoreResult] as [CalculateScore] computes it: its fields are real
    numbers. *)
Definition ScoreResult : Type := ScoreResult_of R.

(** A [float64] where it is only stored and compared: NaN, an infinity
    or a number. *)
Inductive float64 : Type :=
| NaN
| NegInf
| Num (x : R)
| PosInf.

(** [a < b] on [float64]: false when either side is NaN. *)
Definition lt64 (a b : float64) : bool :=
  match a with
  | NaN | PosInf => false
  | NegInf =>
      match b with
      | Num _ | PosInf => true
      | NaN | NegInf => false
      end
  | Num x =>
      match b with
      | Num y => if Rlt_dec x y then true else false
      | PosInf => true
      | NaN | NegInf => false
      end
  end.

(** [a <= b] on [float64]: false when either side is NaN. *)
Definition le64 (a b : float64) : Prop :=
  match a with
  | NaN => False
  | NegInf => b <> NaN
  | Num x =>
      match b with
      | Num y => (x <= y)%R
      | PosInf => True
      | NaN | NegInf => False
      end
  | PosInf => b = PosInf
  end.

(** A [ScoreResult] as a caller of [RankServers] may have stored it in
    the map: any [float64] in every field. *)
Definition ScoreResult64 : Type := ScoreResult_of float64.

(** The score that [CalculateScore] computed, stored. *)
Definition stored (score : ScoreResult) : ScoreResult64 :=
  {| Total       := Num (Total score);
     SuccessRate := Num (SuccessRate score);
     ErrorRate   := Num (ErrorRate score);
     Latency     := Num (Latency score);
     QPS         := Num (QPS score) |}.

(** [type LatencyMetrics struct] *)
Record LatencyMetrics : Type := mkLatencyMetrics {
  MeanMs : Z;
  StdMs  : Z;
  P50Ms  : Z;
  P95Ms  : Z
}.

(** [type BenchmarkMetrics struct] *)
Record BenchmarkMetrics : Type := mkBenchmarkMetrics {
  TotalRequests         : Z;
  TotalSuccessResponses : Z;
  TotalErrorResponses   : Z;
  TotalIOErrors         : Z;
  QueriesPerSecond      : R;
  LatencyStats          : LatencyMetrics
}.

(** [type ServerRank struct] *)
Record ServerRank : Type := mkServerRank {
  Server : string;
  Score  : ScoreResult64
}.

Section Constants.
Local Open Scope R_scope.

Definition SuccessRateScoreWeight : R := 35.
Definition ErrorRateScoreWeight   : R := 10.
Definition LatencyScoreWeight     : R := 50.
Definition QPSScoreWeight         : R := 5.

Definition LatencyRangeMax      : R := 1000.
Definition LatencyRangeMin      : R := 1 / 10.
Definition LatencyFullMarkPoint : R := 50.
Definition MaxQPS               : R := 100.

(** [ScoreResult{}] *)
Definition zeroScore : ScoreResult := mkScoreResult 0 0 0 0 0.
End Constants.

Section CalculateScore.
Local Open Scope R_scope.

(** [successRateScore], lines 56-57. *)
Definition successRateScore (metrics : BenchmarkMetrics) : R :=
  let successRate :=
    IZR (TotalSuccessResponses metrics) / IZR (TotalRequests metrics) in
  successRate * 100.

(** [errorRateScore], lines 60-62, in exact arithmetic: the value the
    code rounds. *)
Definition errorRateScore (metrics : BenchmarkMetrics) : R :=
  let errorRate :=
    IZR (add64 (TotalErrorResponses metrics) (TotalIOErrors metrics))
    / IZR (TotalRequests metrics) in
  let errorRateScore := 100 * (1 - errorRate) in
  Rmax 0 (Rmin 100 errorRateScore).

(** [meanMs], line 66: the sum and the halving are [int64] operations,
    the conversion to [float64] comes last. *)
Definition meanMs (metrics : BenchmarkMetrics) : R :=
  IZR (div64 (add64 (MeanMs (LatencyStats metrics))
                    (P50Ms (LatencyStats metrics))) 2).

(** [latencyScore], lines 65-87. *)
Definition latencyScore (metrics : BenchmarkMetrics) : R :=
  let meanMs := meanMs metrics in
  let latencyScore :=
    if Rlt_dec meanMs LatencyRangeMin then 95
    else if Rgt_dec meanMs LatencyRangeMax then 0
    else
      let latencyScore :=
        100 * (1 - (meanMs - LatencyRangeMin)
                   / (LatencyRangeMax - LatencyRangeMin)) in
      let latencyScore := Rmax 0 (Rmin 100 latencyScore) in
      if Rgt_dec meanMs 0 then
        let stdPenalty :=
          IZR (StdMs (LatencyStats metrics)) / meanMs * 5 in
        Rmax 0 (latencyScore - stdPenalty)
      else latencyScore in
  (* [int64(LatencyRangeMax)] is 1000 *)
  if (P95Ms (LatencyStats metrics) >? 1000)%Z
  then latencyScore * (7 / 10)
  else latencyScore.

(** [qpsScore], lines 90-91, in exact arithmetic: the value the code
    rounds, for a rate above -1, where [math.Log] is a number. *)
Definition qpsScore (metrics : BenchmarkMetrics) : R :=
  let qpsScore :=
    100 * ln (1 + QueriesPerSecond metrics) / ln (1 + MaxQPS) in
  Rmin 100 qpsScore.

(** [func CalculateScore(metrics BenchmarkMetrics) ScoreResult] *)
Definition CalculateScore (metrics : BenchmarkMetrics) : ScoreResult :=
  if (TotalSuccessResponses metrics =? 0)%Z then zeroScore
  else
    let successRateScore := successRateScore metrics in
    let errorRateScore := errorRateScore metrics in
    let latencyScore := latencyScore metrics in
    let qpsScore := qpsScore metrics in
    let totalScore :=
      (successRateScore * SuccessRateScoreWeight
       + errorRateScore * ErrorRateScoreWeight
       + latencyScore * LatencyScoreWeight
       + qpsScore * QPSScoreWeight) / 100 in
    {| Total       := totalScore;
       SuccessRate := successRateScore;
       ErrorRate   := errorRateScore;
       Latency     := latencyScore;
       QPS         := qpsScore |}.
End CalculateScore.

Section RankServers.
Local Open Scope R_scope.

(** [rankings[i], rankings[j] = rankings[j], rankings[i]]; both
    elements are read before either is written.  The loops below keep
    [i] and [j] within bounds, where Go would panic otherwise. *)
Definition swap (i j : nat) (rankings : list ServerRank)
  : list ServerRank :=
  match rankings !! i, rankings !! j with
  | Some ri, Some rj => <[j := ri]> (<[i := rj]> rankings)
  | _, _ => rankings
  end.

(** Body of the inner loop, lines 122-124. *)
Definition compare_swap (i : nat) (rankings : list ServerRank) (j : nat)
  : list ServerRank :=
  match rankings !! i, rankings !! j with
  | Some ri, Some rj =>
      if lt64 (Total (Score ri)) (Total (Score rj))
      then swap i j rankings
      else rankings
  | _, _ => rankings
  end.

(** [for j := i + 1; j < len(rankings); j++]; a swap keeps the length,
    so the bound is the length on entry. *)
Definition inner_loop (rankings : list ServerRank) (i : nat)
  : list ServerRank :=
  foldl (compare_swap i) rankings (seq (S i) (length rankings - S i)).

(** [for i := 0; i < len(rankings); i++], lines 120-126. *)
Definition sort_rankings (rankings : list ServerRank) : list ServerRank :=
  foldl inner_loop rankings (seq 0 (length rankings)).

(** [for server, score := range servers { rankings = append(...) }],
    lines 112-117, over the entries in the order [order] in which the
    runtime enumerates the map. *)
Definition append_rankings (order : list (string * ScoreResult64))
  : list ServerRank :=
  foldl (fun rankings entry =>
           rankings ++ [mkServerRank (fst entry) (snd entry)]) [] order.

(** Go leaves the order of a [range] over a map unspecified: any
    arrangement of the entries of [servers] is a possible enumeration. *)
Definition enumeration (servers : gmap string ScoreResult64)
    (order : list (string * ScoreResult64)) : Prop :=
  order ≡ₚ map_to_list servers.

(** [func RankServers(servers map[string]ScoreResult) []ServerRank],
    given the enumeration of [servers] that the [range] loop follows.
    The function copies the scores and compares their [Total] with
    [<]; it computes nothing with them. *)
Definition RankServers (order : list (string * ScoreResult64))
  : list ServerRank :=
  sort_rankings (append_rankings order).

(** The [(server, score)] entry a ranking stands for. *)
Definition entry (r : ServerRank) : string * ScoreResult64 :=
  (Server r, Score r).

(** [a] is ranked no lower than [b]: [b.Score.Total <= a.Score.Total]
    in [float64]. *)
Definition total_ge (a b : ServerRank) : Prop :=
  le64 (Total (Score b)) (Total (Score a)).

(** The [Total] of a ranking is a number or an infinity, not NaN. *)
Definition ordered (r : ServerRank) : Prop := Total (Score r) <> NaN.
End RankServers.

End scoring.

(* ===================================================================== *)
(** * The scoring formulas in the words of the specification *)
(* ===================================================================== *)

(** These definitions follow sections 4.9 and 8 of the specification, not
    the code; the theorems compare them with [scoring.CalculateScore]. *)
Module scoring_spec.
Import scoring.

Section Formulas.
Local Open Scope R_scope.

(** The latency score the specification assigns to a combined latency
    [m], a standard deviation and a 95th percentile. *)
Definition latency_of (m stdLatMs p95LatMs : R) : R :=
  let v :=
    if Rlt_dec m (1 / 10) then 95
    else if Rgt_dec m 1000 then 0
    else Rmax 0 (100 * (1 - (m - 1 / 10) / (1000 - 1 / 10))
                 - stdLatMs / m * 5) in
  if Rgt_dec p95LatMs 1000 then v * (7 / 10) else v.

(** [m = (meanLatMs + p50LatMs) / 2], the exact arithmetic mean. *)
Definition latencyScore (meanLatMs p50LatMs stdLatMs p95LatMs : R) : R :=
  latency_of ((meanLatMs + p50LatMs) / 2) stdLatMs p95LatMs.

(** That formula on the four latency statistics of [metrics]. *)
Definition latency_exact (metrics : BenchmarkMetrics) : R :=
  latencyScore
    (IZR (MeanMs (LatencyStats metrics)))
    (IZR (P50Ms (LatencyStats metrics)))
    (IZR (StdMs (LatencyStats metrics)))
    (IZR (P95Ms (LatencyStats metrics))).

(** Membership in the interval from 0 to 100. *)
Definition in_0_100 (x : R) : Prop := 0 <= x <= 100.

(** The hypotheses of the scoring boundary of section 8: every request
    succeeded, the mean latency is below 0.1 ms and the rate is at
    least 100 queries per second. *)
Definition full_success_fast (metrics : BenchmarkMetrics) : Prop :=
  (TotalRequests metrics > 0)%Z /\
  TotalSuccessResponses metrics = TotalRequests metrics /\
  IZR (MeanMs (LatencyStats metrics)) < 1 / 10 /\
  100 <= QueriesPerSecond metrics.
End Formulas.
End scoring_spec.

(* ===================================================================== *)
(** * The functions of Go's [strings] and [strconv] that the code calls *)
(* ===================================================================== *)

Module strings.

(** A string from its bytes. *)
Definition bytes (l : list nat) : string :=
  string_of_list_ascii (ascii_of_nat <$> l).

(** [asciiSpace]: tab, line feed, vertical tab, form feed, carriage
    return and space. *)
Definition asciiSpace (c : ascii) : bool :=
  let n := nat_of_ascii c in
  ((9 <=? n) && (n <=? 13)) || (n =? 32).

(** The two-byte UTF-8 encodings of white space: U+0085 and U+00A0. *)
Definition space2 (c1 c2 : ascii) : bool :=
  let n1 := nat_of_ascii c1 in
  let n2 := nat_of_ascii c2 in
  (n1 =? 194) && ((n2 =? 133) || (n2 =? 160)).

(** The three-byte UTF-8 encodings of white space: U+1680,
    U+2000..U+200A, U+2028, U+2029, U+202F, U+205F and U+3000. *)
Definition space3 (c1 c2 c3 : ascii) : bool :=
  let n1 := nat_of_ascii c1 in
  let n2 := nat_of_ascii c2 in
  let n3 := nat_of_ascii c3 in
  ((n1 =? 225) && (n2 =? 154) && (n3 =? 128))
  || ((n1 =? 226) && (n2 =? 128)
      && (((128 <=? n3) && (n3 <=? 138))
          || (n3 =? 168) || (n3 =? 169) || (n3 =? 175)))
  || ((n1 =? 226) && (n2 =? 129) && (n3 =? 159))
  || ((n1 =? 227) && (n2 =? 128) && (n3 =? 128)).

(** [TrimLeftFunc(s, unicode.IsSpace)] *)
Fixpoint TrimLeftSpace (s : string) : string :=
  match s with
  | EmptyString => EmptyString
  | String c1 s1 =>
      if asciiSpace c1 then TrimLeftSpace s1
      else
        match s1 with
        | String c2 s2 =>
            if space2 c1 c2 then TrimLeftSpace s2
            else
              match s2 with
              | String c3 s3 =>
                  if space3 c1 c2 c3 then TrimLeftSpace s3 else s
              | EmptyString => s
              end
        | EmptyString => s
        end
  end.

(** [TrimRightFunc(s, unicode.IsSpace)] on the reversed string: the last
    byte comes first. *)
Fixpoint TrimLeftSpace_rev (s : string) : string :=
  match s with
  | EmptyString => EmptyString
  | String c1 s1 =>
      if asciiSpace c1 then TrimLeftSpace_rev s1
      else
        match s1 with
        | String c2 s2 =>
            if space2 c2 c1 then TrimLeftSpace_rev s2
            else
              match s2 with
              | String c3 s3 =>
                  if space3 c3 c2 c1 then TrimLeftSpace_rev s3 else s
              | EmptyString => s
              end
        | EmptyString => s
        end
  end.

Definition TrimRightSpace (s : string) : string :=
  String.rev (TrimLeftSpace_rev (String.rev s)).

(** [func TrimSpace(s string) string]: all leading and trailing white
    space, as Unicode defines it, removed. *)
Definition TrimSpace (s : string) : string :=
  TrimRightSpace (TrimLeftSpace s).

(** [func HasPrefix(s, prefix string) bool] *)
Definition HasPrefix (s prefix : string) : bool := String.prefix prefix s.

(** [func TrimPrefix(s, prefix string) string] *)
Definition TrimPrefix (s prefix : string) : string :=
  if HasPrefix s prefix
  then substring (String.length prefix)
                 (String.length s - String.length prefix) s
  else s.

(** [func HasSuffix(s, suffix string) bool] *)
Definition HasSuffix (s suffix : string) : bool :=
  String.prefix (String.rev suffix) (String.rev s).

(** [func TrimSuffix(s, suffix string) string] *)
Definition TrimSuffix (s suffix : string) : string :=
  if HasSuffix s suffix
  then substring 0 (String.length s - String.length suffix) s
  else s.

(** [func Index(s, substr string) int], [None] for -1. *)
Definition Index (s substr : string) : option nat := index 0 substr s.

(** [func Contains(s, substr string) bool] *)
Definition Contains (s substr : string) : bool :=
  match Index s substr with Some _ => true | None => false end.

(** [SplitN(s, sep, 2)] for a separator that is not empty: [s] cut at the
    first [sep], or [s] alone. *)
Definition SplitN2 (s sep : string) : list string :=
  match Index s sep with
  | Some i =>
      [ substring 0 i s;
        substring (i + String.length sep)
                  (String.length s - (i + String.length sep)) s ]
  | None => [s]
  end.

(** [Split(s, sep)] for a separator of one byte. *)
Fixpoint Split (s : string) (sep : ascii) : list string :=
  match s with
  | EmptyString => [EmptyString]
  | String c s' =>
      if Ascii.eqb c sep then EmptyString :: Split s' sep
      else
        match Split s' sep with
        | w :: ws => String c w :: ws
        | [] => [String c EmptyString]
        end
  end.

(** [Join(elems, sep)] for a separator of one byte. *)
Fixpoint Join (elems : list string) (sep : ascii) : string :=
  match elems with
  | [] => EmptyString
  | [e] => e
  | e :: elems' => e +:+ String sep (Join elems' sep)
  end.

(** No byte of [s] is [sep]. *)
Fixpoint free_of (sep : ascii) (s : string) : bool :=
  match s with
  | EmptyString => true
  | String c s' => negb (Ascii.eqb c sep) && free_of sep s'
  end.

End strings.

Module strconv.

Definition digit (c : ascii) : option Z :=
  let n := nat_of_ascii c in
  if (48 <=? n) && (n <=? 57) then Some (Z.of_nat n - 48)%Z else None.

Fixpoint digits (s : string) (acc : Z) : option Z :=
  match s with
  | EmptyString => Some acc
  | String c s' =>
      match digit c with
      | Some d => digits s' (10 * acc + d)%Z
      | None => None
      end
  end.

(** [func Atoi(s string) (int, error)], [None] for an error: an optional
    sign and at least one decimal digit, the value within the 64-bit
    [int]. *)
Definition Atoi (s : string) : option Z :=
  let '(neg, body) :=
    match s with
    | String "+" r => (false, r)
    | String "-" r => (true, r)
    | _ => (false, s)
    end in
  match body with
  | EmptyString => None
  | _ =>
      match digits body 0 with
      | Some n =>
          let v := if neg : bool then (- n)%Z else n in
          if ((- 2 ^ 63 <=? v) && (v <? 2 ^ 63))%Z then Some v else None
      | None => None
      end
  end.

End strconv.

Module utf8.

(** The byte [c] lies between [lo] and [hi]. *)
Definition between (lo hi : nat) (c : ascii) : bool :=
  let n := nat_of_ascii c in (lo <=? n) && (n <=? hi).

(** [func DecodeRuneInString(s string) (rune, int)] for a string that is
    not empty: the size of the encoding at its start, [None] when the
    result is [RuneError] with size 1.  The first byte decides the size
    and the range accepted for the second byte (the table [first] and
    [acceptRanges]); the other bytes lie between 0x80 and 0xBF. *)
Definition rune_size (s : string) : option nat :=
  match s with
  | EmptyString => None
  | String c0 rest =>
      let b0 := nat_of_ascii c0 in
      if b0 <? 128 then Some 1
      else if (194 <=? b0) && (b0 <=? 223) then
        match rest with
        | String c1 _ => if between 128 191 c1 then Some 2 else None
        | _ => None
        end
      else if (224 <=? b0) && (b0 <=? 239) then
        let lo := if b0 =? 224 then 160 else 128 in
        let hi := if b0 =? 237 then 159 else 191 in
        match rest with
        | String c1 (String c2 _) =>
            if between lo hi c1 && between 128 191 c2
            then Some 3 else None
        | _ => None
        end
      else if (240 <=? b0) && (b0 <=? 244) then
        let lo := if b0 =? 240 then 144 else 128 in
        let hi := if b0 =? 244 then 143 else 191 in
        match rest with
        | String c1 (String c2 (String c3 _)) =>
            if between lo hi c1 && between 128 191 c2
               && between 128 191 c3
            then Some 4 else None
        | _ => None
        end
      else None
  end.

(** The loop of [ValidString], with [skip] bytes of an accepted encoding
    still to pass. *)
Fixpoint valid_from (skip : nat) (s : string) : bool :=
  match s with
  | EmptyString => true
  | String c rest =>
      match skip with
      | S k => valid_from k rest
      | O =>
          match rune_size s with
          | Some n => valid_from (n - 1) rest
          | None => false
          end
      end
  end.

(** [func ValidString(s string) bool] *)
Definition ValidString (s : string) : bool := valid_from 0 s.

(** U+FFFD in UTF-8. *)
Definition RuneError : string := strings.bytes [239; 191; 189].

End utf8.

(* ===================================================================== *)
(** * Package geo *)
(* ===================================================================== *)

Module geo.

(** A Go [error] other than [nil], by its message. *)
Definition error : Type := string.

(** What package [geo] uses of [net] and of [geoip2]: IP addresses with
    the methods called on them, the resolver, and the country database.
    Their results are whatever the host, the network and the database
    file give; the code is modelled for every such behaviour. *)
Class Lookup : Type := {
  (** [net.IP] *)
  IP : Type;
  (** [ip.To4() != nil] *)
  To4 : IP -> bool;
  (** [ip.IsPrivate()] *)
  IsPrivate : IP -> bool;
  (** [ip.IsUnspecified()] *)
  IsUnspecified : IP -> bool;
  (** [ip.String()] *)
  IPString : IP -> string;
  (** [net.LookupIP(host)]: the addresses, or an error. *)
  LookupIP : string -> error + list IP;
  (** [*geoip2.Reader], not nil. *)
  Reader : Type;
  (** [geoip2.Open(path)]: a reader, or an error. *)
  Open : string -> error + Reader;
  (** [db.Country(ip)]: [record.Country.IsoCode], or an error. *)
  Country : Reader -> IP -> error + string
}.

(** [type GeoService struct { db *geoip2.Reader }]; [None] is the nil
    pointer. *)
Record GeoService `{Lookup} : Type := mkGeoService {
  db : option Reader
}.

Section Geo.
Context `{Lookup}.

Definition dbPaths : list string :=
  [ "res/Country.mmdb"; "../res/Country.mmdb";
    "frontend/res/Country.mmdb"; "./Country.mmdb" ].

(** The loop of [NewGeoService], lines 31-36: [db] and [err] after it.
    [geoip2.Open] returns a nil reader with its error. *)
Fixpoint open_first (paths : list string)
    (db : option Reader) (err : option error)
  : option Reader * option error :=
  match paths with
  | [] => (db, err)
  | path :: paths' =>
      match Open path with
      | inr r => (Some r, None)              (* [break] *)
      | inl e => open_first paths' None (Some e)
      end
  end.

(** [func NewGeoService()], returning [*GeoService] and [error]: the
    service, or the error with a nil service. *)
Definition NewGeoService : error + GeoService :=
  match open_first dbPaths None None with
  | (_, Some err) =>
      inl ("GeoIP service not available - database not found: " +:+ err)
  | (db, None) => inr (mkGeoService _ db)
  end.

(** [func (g *GeoService) checkIPGeo(ip net.IP) (string, error)] *)
Definition checkIPGeo (g : GeoService) (ip : IP)
  : string * option error :=
  match db g with
  | None => ("UNKNOWN", Some "GeoIP database not available")
  | Some r =>
      match Country r ip with
      | inl err => ("CDN", Some err)
      | inr IsoCode =>
          if String.eqb IsoCode "" then ("CDN", None)
          else (IsoCode, None)
      end
  end.

(** The host that the URL branch resolves, lines 60-78. *)
Definition url_host (server : string) : string :=
  let server := strings.TrimPrefix server "https://" in
  let server := strings.TrimPrefix server "tls://" in
  let server := strings.TrimPrefix server "quic://" in
  let server := strings.TrimPrefix server "http://" in
  let server :=
    if strings.Contains server "/"
    then hd server (strings.SplitN2 server "/")
    else server in
  if strings.Contains server "[" && strings.Contains server "]"
  then strings.TrimPrefix (hd server (strings.SplitN2 server "]")) "["
  else if strings.Contains server ":"
  then hd server (strings.SplitN2 server ":")
  else server.

(** The host that the other branch resolves, lines 103-108. *)
Definition plain_host (server : string) : string :=
  match strings.SplitN2 server ":" with
  | part0 :: part1 :: _ =>
      match strconv.Atoi part1 with
      | Some port =>
          if ((0 <? port) && (port <? 65536))%Z then part0 else server
      | None => server
      end
  | _ => server
  end.

(** The address chosen among several, lines 86-100. *)
Definition choose_ip (ip0 : IP) (ips : list IP) (preferIPv4 : bool) : IP :=
  match ips with
  | [] => ip0                                  (* [len(ips) == 1] *)
  | _ :: _ =>
      if preferIPv4
      then match List.find To4 (ip0 :: ips) with
           | Some ip => ip
           | None => ip0
           end
      else ip0
  end.

(** The address [CheckGeo] settles on, or the error it returns. *)
Definition resolve (server : string) (preferIPv4 : bool) : error + IP :=
  if strings.Contains server "://" then
    match LookupIP (url_host server) with
    | inl _ | inr [] => inl "unable to resolve IP address"
    | inr (ip0 :: ips) => inr (choose_ip ip0 ips preferIPv4)
    end
  else
    match LookupIP (plain_host server) with
    | inl _ | inr [] =>
        inl "local resolver cannot resolve host IP address"
    | inr (ip0 :: _) => inr ip0
    end.

(** [func (g *GeoService) CheckGeo(server string, preferIPv4 bool)
    (string, string, error)] *)
Definition CheckGeo (g : GeoService) (server : string) (preferIPv4 : bool)
  : string * string * option error :=
  match db g with
  | None =>
      ("0.0.0.0", "UNKNOWN", Some "GeoIP database not available")
  | Some _ =>
      let server := strings.TrimSpace server in
      let server := strings.TrimSuffix server "/" in
      if String.eqb server "" then
        ("0.0.0.0", "PRIVATE", Some "empty server address")
      else
        match resolve server preferIPv4 with
        | inl err => ("0.0.0.0", "PRIVATE", Some err)
        | inr ip =>
            if IsPrivate ip || IsUnspecified ip then
              (IPString ip, "PRIVATE", None)
            else
              let '(geoCode, err) := checkIPGeo g ip in
              (IPString ip, geoCode, err)
        end
  end.
End Geo.

End geo.

(* ===================================================================== *)
(** * Package cmd *)
(* ===================================================================== *)

Module cmd.

(** What [benchmark.Writer] points to: [os.Stdout], or the
    [bytes.Buffer] of [generateJSONForServer]. *)
Inductive io_Writer : Type := os_Stdout | bytes_Buffer.

(** Modelled from the spec: the declaration of [dnsbench.Benchmark] is
    not among the sources.  The fields are the ones package [cmd] binds
    to its flags or assigns (section 6 of the specification lists the
    same options), with the types those bindings give them: integers and
    durations are [Z], [Probability] is a [float64].  [unexported]
    stands for whatever else the struct holds, which an assignment of the
    whole struct copies along. *)
Record Benchmark {Others : Type} : Type := mkBenchmark {
  Server                    : string;
  Types                     : list string;
  Count                     : Z;
  Concurrency               : Z;
  Rate                      : Z;
  RateLimitWorker           : Z;
  QperConn                  : Z;
  Recurse                   : bool;
  Probability               : R;
  EdnsOpt                   : string;
  DNSSEC                    : bool;
  Edns0                     : Z;
  TCP                       : bool;
  DOT                       : bool;
  WriteTimeout              : Z;
  ReadTimeout               : Z;
  ConnectTimeout            : Z;
  RequestTimeout            : Z;
  Rcodes                    : bool;
  HistMin                   : Z;
  HistMax                   : Z;
  HistPre                   : Z;
  HistDisplay               : bool;
  Csv                       : string;
  JSON                      : bool;
  BatchJSON                 : string;
  HTML                      : string;
  Silent                    : bool;
  Color                     : bool;
  PlotDir                   : string;
  PlotFormat                : string;
  DohMethod                 : string;
  DohProtocol               : string;
  Insecure                  : bool;
  Duration                  : Z;
  ProgressBar               : bool;
  RequestLogEnabled         : bool;
  RequestLogPath            : string;
  SeparateWorkerConnections : bool;
  RequestDelay              : string;
  PrometheusMetricsAddr     : string;
  Queries                   : list string;
  Writer                    : io_Writer;
  unexported                : Others
}.
Arguments Benchmark : clear implicits.
Arguments mkBenchmark {Others}.

Section Assignments.
Context {Others : Type}.

(** [b.Server = v] *)
Definition set_Server (v : string) (b : Benchmark Others) : Benchmark Others :=
  {| Server := v; Types := Types b; Count := Count b;
     Concurrency := Concurrency b; Rate := Rate b;
     RateLimitWorker := RateLimitWorker b; QperConn := QperConn b;
     Recurse := Recurse b; Probability := Probability b;
     EdnsOpt := EdnsOpt b; DNSSEC := DNSSEC b; Edns0 := Edns0 b;
     TCP := TCP b; DOT := DOT b; WriteTimeout := WriteTimeout b;
     ReadTimeout := ReadTimeout b; ConnectTimeout := ConnectTimeout b;
     RequestTimeout := RequestTimeout b; Rcodes := Rcodes b;
     HistMin := HistMin b; HistMax := HistMax b; HistPre := HistPre b;
     HistDisplay := HistDisplay b; Csv := Csv b; JSON := JSON b;
     BatchJSON := BatchJSON b; HTML := HTML b; Silent := Silent b;
     Color := Color b; PlotDir := PlotDir b; PlotFormat := PlotFormat b;
     DohMethod := DohMethod b; DohProtocol := DohProtocol b;
     Insecure := Insecure b; Duration := Duration b;
     ProgressBar := ProgressBar b;
     RequestLogEnabled := RequestLogEnabled b;
     RequestLogPath := RequestLogPath b;
     SeparateWorkerConnections := SeparateWorkerConnections b;
     RequestDelay := RequestDelay b;
     PrometheusMetricsAddr := PrometheusMetricsAddr b;
     Queries := Queries b; Writer := Writer b;
     unexported := unexported b |}.

(** [b.JSON = v] *)
Definition set_JSON (v : bool) (b : Benchmark Others) : Benchmark Others :=
  {| Server := Server b; Types := Types b; Count := Count b;
     Concurrency := Concurrency b; Rate := Rate b;
     RateLimitWorker := RateLimitWorker b; QperConn := QperConn b;
     Recurse := Recurse b; Probability := Probability b;
     EdnsOpt := EdnsOpt b; DNSSEC := DNSSEC b; Edns0 := Edns0 b;
     TCP := TCP b; DOT := DOT b; WriteTimeout := WriteTimeout b;
     ReadTimeout := ReadTimeout b; ConnectTimeout := ConnectTimeout b;
     RequestTimeout := RequestTimeout b; Rcodes := Rcodes b;
     HistMin := HistMin b; HistMax := HistMax b; HistPre := HistPre b;
     HistDisplay := HistDisplay b; Csv := Csv b; JSON := v;
     BatchJSON := BatchJSON b; HTML := HTML b; Silent := Silent b;
     Color := Color b; PlotDir := PlotDir b; PlotFormat := PlotFormat b;
     DohMethod := DohMethod b; DohProtocol := DohProtocol b;
     Insecure := Insecure b; Duration := Duration b;
     ProgressBar := ProgressBar b;
     RequestLogEnabled := RequestLogEnabled b;
     RequestLogPath := RequestLogPath b;
     SeparateWorkerConnections := SeparateWorkerConnections b;
     RequestDelay := RequestDelay b;
     PrometheusMetricsAddr := PrometheusMetricsAddr b;
     Queries := Queries b; Writer := Writer b;
     unexported := unexported b |}.

(** [b.Silent = v] *)
Definition set_Silent (v : bool) (b : Benchmark Others) : Benchmark Others :=
  {| Server := Server b; Types := Types b; Count := Count b;
     Concurrency := Concurrency b; Rate := Rate b;
     RateLimitWorker := RateLimitWorker b; QperConn := QperConn b;
     Recurse := Recurse b; Probability := Probability b;
     EdnsOpt := EdnsOpt b; DNSSEC := DNSSEC b; Edns0 := Edns0 b;
     TCP := TCP b; DOT := DOT b; WriteTimeout := WriteTimeout b;
     ReadTimeout := ReadTimeout b; ConnectTimeout := ConnectTimeout b;
     RequestTimeout := RequestTimeout b; Rcodes := Rcodes b;
     HistMin := HistMin b; HistMax := HistMax b; HistPre := HistPre b;
     HistDisplay := HistDisplay b; Csv := Csv b; JSON := JSON b;
     BatchJSON := BatchJSON b; HTML := HTML b; Silent := v;
     Color := Color b; PlotDir := PlotDir b; PlotFormat := PlotFormat b;
     DohMethod := DohMethod b; DohProtocol := DohProtocol b;
     Insecure := Insecure b; Duration := Duration b;
     ProgressBar := ProgressBar b;
     RequestLogEnabled := RequestLogEnabled b;
     RequestLogPath := RequestLogPath b;
     SeparateWorkerConnections := SeparateWorkerConnections b;
     RequestDelay := RequestDelay b;
     PrometheusMetricsAddr := PrometheusMetricsAddr b;
     Queries := Queries b; Writer := Writer b;
     unexported := unexported b |}.

(** [b.Writer = v] *)
Definition set_Writer (v : io_Writer) (b : Benchmark Others) : Benchmark Others :=
  {| Server := Server b; Types := Types b; Count := Count b;
     Concurrency := Concurrency b; Rate := Rate b;
     RateLimitWorker := RateLimitWorker b; QperConn := QperConn b;
     Recurse := Recurse b; Probability := Probability b;
     EdnsOpt := EdnsOpt b; DNSSEC := DNSSEC b; Edns0 := Edns0 b;
     TCP := TCP b; DOT := DOT b; WriteTimeout := WriteTimeout b;
     ReadTimeout := ReadTimeout b; ConnectTimeout := ConnectTimeout b;
     RequestTimeout := RequestTimeout b; Rcodes := Rcodes b;
     HistMin := HistMin b; HistMax := HistMax b; HistPre := HistPre b;
     HistDisplay := HistDisplay b; Csv := Csv b; JSON := JSON b;
     BatchJSON := BatchJSON b; HTML := HTML b; Silent := Silent b;
     Color := Color b; PlotDir := PlotDir b; PlotFormat := PlotFormat b;
     DohMethod := DohMethod b; DohProtocol := DohProtocol b;
     Insecure := Insecure b; Duration := Duration b;
     ProgressBar := ProgressBar b;
     RequestLogEnabled := RequestLogEnabled b;
     RequestLogPath := RequestLogPath b;
     SeparateWorkerConnections := SeparateWorkerConnections b;
     RequestDelay := RequestDelay b;
     PrometheusMetricsAddr := PrometheusMetricsAddr b;
     Queries := Queries b; Writer := v; unexported := unexported b |}.

(** [serverBenchmark] as [runBatchBenchmark] prepares it for one
    server, lines 748-751: the assignment copies the struct. *)
Definition serverBenchmark (benchmark : Benchmark Others) (server : string)
  : Benchmark Others :=
  let serverBenchmark := benchmark in
  let serverBenchmark := set_Server server serverBenchmark in
  let serverBenchmark := set_JSON true serverBenchmark in
  let serverBenchmark := set_Silent true serverBenchmark in
  serverBenchmark.
End Assignments.

(** Modelled from the spec: [reporter.BenchmarkResultStats] is not among
    the sources.  These are the outcome counters of section 3 of the
    specification, under the names [stats.Counters] has in package
    [cmd]. *)
Record Counters : Type := mkCounters {
  Total      : Z;
  Success    : Z;
  Negative   : Z;
  Error      : Z;
  Truncated  : Z;
  IDmismatch : Z;
  IOError    : Z
}.

(** What package [cmd] calls outside the sources: the benchmark run, the
    reporter and [encoding/json].  Their results depend on the network
    and on code that is not here; [cmd] is modelled for every behaviour
    they can have. *)
Class World : Type := {
  (** The rest of [dnsbench.Benchmark]. *)
  Others : Type;
  (** What a run returns: [[]*dnsbench.ResultStats] and its timing. *)
  Results : Type;
  (** A value [json.Unmarshal] stores in an [interface{}]. *)
  JSONValue : Type;
  (** [b.Run(ctx)] *)
  Run : Benchmark Others -> geo.error + Results;
  (** [reporter.PrintReport(b, res, start, duration, geocode)]: the
      bytes written to [b.Writer], or an error. *)
  PrintReport : Benchmark Others -> Results -> string -> geo.error + string;
  (** [reporter.Merge(b, res).Counters] *)
  Merge : Benchmark Others -> Results -> Counters;
  (** [json.Unmarshal(data, &m)] for [m] a [map[string]interface{}] *)
  Unmarshal : string -> geo.error + gmap string JSONValue;
  (** The value a [range] over the map yields first, if there is one. *)
  range_first : gmap string JSONValue -> option JSONValue
}.

(** Keys in increasing order, byte by byte. *)
Definition key_le {V : Type} (a b : string * V) : Prop :=
  String.le (fst a) (fst b).

Global Instance key_le_dec {V : Type} : RelDecision (@key_le V).
Proof. intros a b. unfold key_le. apply _. Defined.

(** The string that [encoding/json] writes for a Go string, read back:
    every byte that starts no valid UTF-8 encoding is written as U+FFFD
    (the loop of [appendString]); [skip] bytes of an accepted encoding
    are still to copy.  Escapes are a matter of notation and leave the
    string as it is. *)
Fixpoint json_string_from (skip : nat) (s : string) : string :=
  match s with
  | EmptyString => EmptyString
  | String c rest =>
      match skip with
      | S k => String c (json_string_from k rest)
      | O =>
          match utf8.rune_size s with
          | Some n => String c (json_string_from (n - 1) rest)
          | None => utf8.RuneError +:+ json_string_from 0 rest
          end
      end
  end.

Definition json_string (s : string) : string := json_string_from 0 s.

(** The members of the object that [json.MarshalIndent] writes for a
    map, in the order it writes them: [encoding/json] sorts the keys of
    a map, byte by byte, and then writes each key as a JSON string. *)
Definition MarshalIndent {V : Type} (m : gmap string V)
  : list (string * V) :=
  (fun member => (json_string (fst member), snd member))
    <$> merge_sort key_le (map_to_list m).

(** A line written to [os.Stderr] by [runBatchBenchmark]. *)
Inductive StderrLine : Type :=
| Starting (n : nat)
| Testing (server : string)
| ErrorTesting (server : string) (err : geo.error)
| ErrorGenerating (server : string) (err : geo.error)
| ErrorParsing (server : string) (err : geo.error)
| Completed (server : string).

Definition ioerrorFailCondition    : string := "ioerror".
Definition negativeFailCondition   : string := "negative".
Definition errorFailCondition      : string := "error".
Definition idmismatchFailCondition : string := "idmismatch".

Section Cmd.
Context `{geo.Lookup} `{World}.

(** [func getServerGeocode(server string) string] *)
Definition getServerGeocode (server : string) : string :=
  match geo.NewGeoService with
  | inr geoService =>
      (* [defer geoService.Close()] *)
      let '(_, geoCode, err) := geo.CheckGeo geoService server true in
      match err with
      | None => geoCode
      | Some _ => "XX"
      end
  | inl _ => "XX"
  end.

(** [func generateJSONForServer(bench, res, start, duration, server)]:
    the report is printed into a buffer with [Silent] switched off;
    [bench.Writer] and [bench.Silent] are restored before returning. *)
Definition generateJSONForServer
    (bench : Benchmark Others) (res : Results) (server : string)
  : geo.error + string :=
  let bench' := set_Silent false (set_Writer bytes_Buffer bench) in
  let geocode := getServerGeocode server in
  PrintReport bench' res geocode.

(** The state of the loop of [runBatchBenchmark]. *)
Record BatchState : Type := mkBatchState {
  batchResults : gmap string JSONValue;
  stderr       : list StderrLine
}.

Definition log (line : StderrLine) (st : BatchState) : BatchState :=
  mkBatchState (batchResults st) (stderr st ++ [line]).

Definition store (server : string) (result : JSONValue) (st : BatchState)
  : BatchState :=
  mkBatchState (<[server := result]> (batchResults st)) (stderr st).

(** One iteration of [for _, server := range servers], lines 739-789. *)
Definition batch_step (benchmark : Benchmark Others)
    (st : BatchState) (server : string) : BatchState :=
  let server := strings.TrimSpace server in
  if String.eqb server "" then st                        (* [continue] *)
  else
    let st := log (Testing server) st in
    let serverBenchmark := serverBenchmark benchmark server in
    match Run serverBenchmark with
    | inl err => log (ErrorTesting server err) st        (* [continue] *)
    | inr res =>
        match generateJSONForServer serverBenchmark res server with
        | inl err => log (ErrorGenerating server err) st (* [continue] *)
        | inr jsonData =>
            match Unmarshal jsonData with
            | inl err => log (ErrorParsing server err) st (* [continue] *)
            | inr multiServerResult =>
                let st :=
                  match multiServerResult !! server with
                  | Some serverResult => store server serverResult st
                  | None =>
                      match range_first multiServerResult with
                      | Some result => store server result st
                      | None => st
                      end
                  end in
                log (Completed server) st
            end
        end
    end.

(** The result object that the iteration for [server] (already
    trimmed) stores under its key, if it gets that far: lines 756-787
    read as a function. *)
Definition sub_result (benchmark : Benchmark Others) (server : string)
  : option JSONValue :=
  let serverBenchmark := serverBenchmark benchmark server in
  match Run serverBenchmark with
  | inl _ => None
  | inr res =>
      match generateJSONForServer serverBenchmark res server with
      | inl _ => None
      | inr jsonData =>
          match Unmarshal jsonData with
          | inl _ => None
          | inr multiServerResult =>
              match multiServerResult !! server with
              | Some serverResult => Some serverResult
              | None => range_first multiServerResult
              end
          end
      end
  end.

(** What [runBatchBenchmark] has written when it returns. *)
Record BatchOutput : Type := mkBatchOutput {
  stdout     : list (string * JSONValue);
  stderr_out : list StderrLine
}.

(** [func runBatchBenchmark(serverList string) error].  [strings.Split]
    never returns an empty slice and [json.MarshalIndent] does not fail
    on what [json.Unmarshal] produced, so the function returns [nil];
    the result here is what it wrote: the members of the JSON object on
    standard output, in order, and the lines on standard error. *)
Definition runBatchBenchmark (benchmark : Benchmark Others)
    (serverList : string) : BatchOutput :=
  let servers := strings.Split serverList "," in
  let st := mkBatchState ∅ [Starting (length servers)] in
  let st := foldl (batch_step benchmark) st servers in
  mkBatchOutput (MarshalIndent (batchResults st)) (stderr st).

(** The [switch f] of lines 293-310: whether [os.Exit(1)] is called. *)
Definition fail_case (stats : Counters) (f : string) : bool :=
  if String.eqb f ioerrorFailCondition then (IOError stats >? 0)%Z
  else if String.eqb f negativeFailCondition then (Negative stats >? 0)%Z
  else if String.eqb f errorFailCondition then (Error stats >? 0)%Z
  else if String.eqb f idmismatchFailCondition
  then (IDmismatch stats >? 0)%Z
  else false.

(** [for _, f := range failConditions], lines 292-311: [Some 1] when
    [os.Exit(1)] ends the process, [None] when the loop runs out. *)
Fixpoint fail_loop (stats : Counters) (failConditions : list string)
  : option Z :=
  match failConditions with
  | [] => None
  | f :: rest =>
      if fail_case stats f then Some 1%Z else fail_loop stats rest
  end.

(** [func Execute()] for the [benchmark] command, lines 231-313, once
    the flags are parsed into [benchmark] and [failConditions] and with
    no interrupt signal: [Some c] when [os.Exit(c)] is called, [None]
    when [Execute] returns.  The HTML output of lines 278-286 reports
    its failures on standard error and goes on. *)
Definition Execute (benchmark : Benchmark Others)
    (failConditions : list string) : option Z :=
  if (0 <? String.length (BatchJSON benchmark))%nat then
    let _ := runBatchBenchmark benchmark (BatchJSON benchmark) in
    None
  else
    match Run benchmark with
    | inl _ => Some 1%Z
    | inr res =>
        match PrintReport benchmark res
                (getServerGeocode (Server benchmark)) with
        | inl _ => Some 1%Z
        | inr _ =>
            if (0 <? length failConditions)%nat
            then fail_loop (Merge benchmark res) failConditions
            else None
        end
    end.

(** The status the process ends with: a Go program whose [main]
    returns exits with status 0, and [main] returns when [Execute]
    does. *)
Definition exit_status (r : option Z) : Z :=
  match r with
  | Some c => c
  | None => 0%Z
  end.
End Cmd.

(** ** The other functions of [root.go] *)

(** [func extractIPFromServer(server string) string]: [server[:n]] and
    [server[n:]] are [substring 0 n] and the rest. *)
Definition extractIPFromServer (server : string) : string :=
  if String.eqb server "" then ""
  else if (8 <? String.length server)%nat
          && String.eqb (substring 0 8 server) "https://"
  then substring 8 (String.length server - 8) server
  else if (6 <? String.length server)%nat
          && String.eqb (substring 0 6 server) "tls://"
  then substring 6 (String.length server - 6) server
  else if (7 <? String.length server)%nat
          && String.eqb (substring 0 7 server) "quic://"
  then substring 7 (String.length server - 7) server
  else server.

(** The file that [OutputHTML] creates, lines 442-445. *)
Definition htmlFilePath (outputPath : string) : string :=
  let htmlFilePath := outputPath in
  if negb (strings.HasSuffix htmlFilePath ".html")
  then strings.TrimSuffix htmlFilePath ".json" +:+ ".html"
  else htmlFilePath.

(** A bar of [stats.Hist.Distribution()]: the fields [From], [To] and
    [Count] of [hdrhistogram.Bar]. *)
Record Bar : Type := mkBar {
  bar_From  : Z;
  bar_To    : Z;
  bar_Count : Z
}.

(** [time.Duration(ns).Milliseconds()]: an [int64] division. *)
Definition Milliseconds (ns : Z) : Z := Z.quot ns 1000000.

(** One key/value object of [latencyDistribution]. *)
Record Point : Type := mkPoint {
  latencyMs : Z;
  count     : Z
}.

(** [histogramPoints] of [generateJSONForHTML], lines 333-346: [None] is
    the nil slice that is left when [HistDisplay] is off. *)
Definition histogramPoints {Others : Type} (b : Benchmark Others)
    (distribution : list Bar) : option (list Point) :=
  if HistDisplay b then
    Some (foldl (fun res bar =>
                   if (bar_Count bar >? 0)%Z
                   then res ++ [mkPoint (Milliseconds (bar_To bar))
                                        (bar_Count bar)]
                   else res)
                [] distribution)
  else None.

(** ** [batch.go] *)

(** A value held in an [interface{}]: what [json.Unmarshal] stores
    (nil, bool, float64, string, slice, map), or the [*ScoreResult] that
    [runSingleServerBenchmark] stores under "score". *)
#[warnings="-register-all"]
Inductive Value : Type :=
| VNull
| VBool (b : bool)
| VNumber (x : R)
| VString (s : string)
| VArray (l : list Value)
| VObject (m : gmap string Value)
| VScore (score : scoring.ScoreResult).

(** [v.(float64)] with its [ok], for the value of a key that may be
    missing. *)
Definition as_float64 (v : option Value) : option R :=
  match v with
  | Some (VNumber x) => Some x
  | _ => None
  end.

(** [v.(map[string]interface{})] with its [ok]. *)
Definition as_object (v : option Value) : option (gmap string Value) :=
  match v with
  | Some (VObject m) => Some m
  | _ => None
  end.

(** What the Go specification leaves to the implementation. *)
Class Platform : Type := {
  (** [int64(x)] for a [float64] whose integer part is outside the
      range of [int64]. *)
  int64_out_of_range : R -> Z
}.

(** [int64(x)] for a [float64]: the fraction is dropped; beyond the
    range of [int64] the result is that of the platform. *)
Definition int64_of_float64 `{Platform} (x : R) : Z :=
  let whole := if Rle_dec 0 x then Int_part x else (- Int_part (- x))%Z in
  if ((- 2 ^ 63 <=? whole) && (whole <? 2 ^ 63))%Z then whole
  else int64_out_of_range x.

(** [func calculateScoreFromResult(result map[string]interface{})
    *scoring.ScoreResult], [None] for nil. *)
Definition calculateScoreFromResult `{Platform}
    (result : gmap string Value)
  : option scoring.ScoreResult :=
  match as_float64 (result !! "totalRequests"),
        as_float64 (result !! "totalSuccessResponses"),
        as_float64 (result !! "totalErrorResponses"),
        as_float64 (result !! "totalIOErrors"),
        as_float64 (result !! "queriesPerSecond") with
  | Some totalRequests, Some totalSuccess, Some totalError,
    Some totalIOError, Some qps =>
      match as_object (result !! "latencyStats") with
      | Some latencyStats =>
          match as_float64 (latencyStats !! "meanMs"),
                as_float64 (latencyStats !! "stdMs"),
                as_float64 (latencyStats !! "p95Ms"),
                as_float64 (latencyStats !! "p50Ms") with
          | Some meanMs, Some stdMs, Some p95Ms, Some p50Ms =>
              let metrics :=
                {| scoring.TotalRequests := int64_of_float64 totalRequests;
                   scoring.TotalSuccessResponses :=
                     int64_of_float64 totalSuccess;
                   scoring.TotalErrorResponses :=
                     int64_of_float64 totalError;
                   scoring.TotalIOErrors := int64_of_float64 totalIOError;
                   scoring.QueriesPerSecond := qps;
                   scoring.LatencyStats :=
                     {| scoring.MeanMs := int64_of_float64 meanMs;
                        scoring.StdMs := int64_of_float64 stdMs;
                        scoring.P95Ms := int64_of_float64 p95Ms;
                        scoring.P50Ms := int64_of_float64 p50Ms |} |} in
              Some (scoring.CalculateScore metrics)
          | _, _, _, _ => None
          end
      | None => None
      end
  | _, _, _, _, _ => None
  end.

(** [type BatchBenchmark struct] *)
Record BatchBenchmark : Type := mkBatchBenchmark {
  batch_Servers     : list string;
  batch_Output      : string;
  batch_Duration    : Z;
  batch_Concurrency : Z;
  batch_Workers     : Z;
  batch_Domains     : string
}.

(** How a call ends: it returns, or the Go run time panics. *)
Inductive Outcome (A : Type) : Type :=
| Returns (a : A)
| Panics (msg : string).
Arguments Returns {A} a.
Arguments Panics {A} msg.

(** What [batch.go] calls outside the sources. *)
Class Shell : Type := {
  (** [exec.Command("./dnspyre", args...).Output()] *)
  dnspyre_Output : list string -> geo.error + string;
  (** [json.Unmarshal(output, &result)]: the map, [None] for the nil map
      that the JSON value [null] leaves, or an error. *)
  Unmarshal_result : string -> geo.error + option (gmap string Value);
  (** [d.String()] of a [time.Duration] *)
  Duration_String : Z -> string
}.

(** The file that [writeResultsToFile] creates, lines 197-200. *)
Definition jsonFilePath (outputPath : string) : string :=
  if negb (strings.HasSuffix outputPath ".json")
  then outputPath +:+ ".json"
  else outputPath.

Section BatchGo.
Context `{geo.Lookup} `{Shell} `{Platform}.

(** The arguments of the child process, lines 109-119. *)
Definition dnspyre_args (server : string) (batch : BatchBenchmark)
  : list string :=
  [ "benchmark"; "--json"; "--server"; server;
    "--duration"; Duration_String (batch_Duration batch);
    "--concurrency"; pretty (batch_Concurrency batch) ]
  ++ strings.Split (batch_Domains batch) ",".

(** [func runSingleServerBenchmark(server string, batch BatchBenchmark)
    (map[string]interface{}, error)]: the map or the error returned,
    or the run-time panic of line 132, which stores into a nil map. *)
Definition runSingleServerBenchmark (server : string)
    (batch : BatchBenchmark)
  : Outcome (geo.error + gmap string Value) :=
  match dnspyre_Output (dnspyre_args server batch) with
  | inl err =>
      Returns
        (inl ("failed to run dnspyre for server " +:+ server +:+ ": "
              +:+ err))
  | inr output =>
      match Unmarshal_result output with
      | inl err =>
          Returns
            (inl ("failed to parse JSON result for server " +:+ server
                  +:+ ": " +:+ err))
      | inr None => Panics "assignment to entry in nil map"
      | inr (Some result) =>
          let result :=
            <["geocode" := VString (getServerGeocode server)]> result in
          let result :=
            match result !! "score" with
            | Some _ => result
            | None =>
                match calculateScoreFromResult result with
                | Some score => <["score" := VScore score]> result
                | None => result
                end
            end in
          Returns (inr result)
      end
  end.
End BatchGo.

End cmd.

(* ===================================================================== *)
(** * Notions of the specification about package cmd *)
(* ===================================================================== *)

Module cmd_spec.

Definition is_upper (c : ascii) : bool :=
  let n := nat_of_ascii c in (65 <=? n) && (n <=? 90).

(** A two-letter country code in the form of ISO 3166-1 alpha-2. *)
Definition alpha2 (s : string) : bool :=
  match s with
  | String c1 (String c2 EmptyString) => is_upper c1 && is_upper c2
  | _ => false
  end.

(** The values the specification allows for [geocode]. *)
Definition geocode_allowed (s : string) : Prop :=
  alpha2 s = true \/ s = "XX" \/ s = "PRIVATE" \/ s = "CDN".

(** The database holds country codes: an [IsoCode] is empty or has two
    letters. *)
Definition iso_codes `{geo.Lookup} : Prop :=
  forall r ip code,
    geo.Country r ip = inr code -> code = "" \/ alpha2 code = true.

(** The aggregate counter that a [--fail] condition watches. *)
Definition watched (stats : cmd.Counters) (f : string) : option Z :=
  if String.eqb f "ioerror" then Some (cmd.IOError stats)
  else if String.eqb f "negative" then Some (cmd.Negative stats)
  else if String.eqb f "error" then Some (cmd.Error stats)
  else if String.eqb f "idmismatch" then Some (cmd.IDmismatch stats)
  else None.

(** The condition [f] is matched: its counter is positive. *)
Definition matched (stats : cmd.Counters) (f : string) : Prop :=
  exists c, watched stats f = Some c /\ (0 < c)%Z.

(** Two configurations differ at most in [Server]. *)
Definition same_but_Server {Others : Type}
    (b b' : cmd.Benchmark Others) : Prop :=
  cmd.set_Server (cmd.Server b) b' = b.

(** Two configurations differ at most in [Server], [JSON] and [Silent]. *)
Definition same_but_Server_JSON_Silent {Others : Type}
    (b b' : cmd.Benchmark Others) : Prop :=
  cmd.set_Server (cmd.Server b)
    (cmd.set_JSON (cmd.JSON b) (cmd.set_Silent (cmd.Silent b) b')) = b.

(** A server string of a batch whose key and place in the output can be
    told: not empty, free of white space at either end and of commas,
    and with a sub-run that stores a result. *)
Definition served `{geo.Lookup} `{cmd.World}
    (benchmark : cmd.Benchmark cmd.Others) (server : string) : Prop :=
  server <> "" /\ strings.TrimSpace server = server /\
  strings.free_of "," server = true /\
  is_Some (cmd.sub_result benchmark server).

End cmd_spec.

(* ===================================================================== *)
(** * Notions used by the further properties *)
(* ===================================================================== *)

Module shapes.

(** What may follow the host in a server URL: nothing, a path, a port,
    or a port and a path.  The port is not empty and holds no slash and
    no opening bracket. *)
Inductive after_host : string -> Prop :=
| after_nothing : after_host ""
| after_path (path : string) : after_host (String "/" path)
| after_port (d : ascii) (port tail : string) :
    d <> "/"%char -> d <> "["%char ->
    strings.free_of "/" port = true -> strings.free_of "[" port = true ->
    tail = "" \/ (exists path, tail = String "/" path) ->
    after_host (String ":" (String d port +:+ tail)).

(** The four URL schemes that [CheckGeo] strips. *)
Definition schemes : list string :=
  [ "https://"; "tls://"; "quic://"; "http://" ].

(** A host name or IPv4 literal: no colon, slash or opening bracket. *)
Definition plain_name (h : string) : Prop :=
  strings.free_of ":" h = true /\ strings.free_of "/" h = true /\
  strings.free_of "[" h = true.

(** What [CheckGeo] returns once it has an address, lines 117-122. *)
Definition located `{geo.Lookup} (g : geo.GeoService) (ip : geo.IP)
  : string * string * option geo.error :=
  if geo.IsPrivate ip || geo.IsUnspecified ip
  then (geo.IPString ip, "PRIVATE", None)
  else
    let '(geoCode, err) := geo.checkIPGeo g ip in
    (geo.IPString ip, geoCode, err).

(** What [CheckGeo] returns for a URL whose host is [host], lines
    81-100 and 117-122: [net.LookupIP] is called with [host]. *)
Definition url_answer `{geo.Lookup} (g : geo.GeoService) (host : string)
    (preferIPv4 : bool) : string * string * option geo.error :=
  match geo.LookupIP host with
  | inl _ | inr [] =>
      ("0.0.0.0", "PRIVATE", Some "unable to resolve IP address")
  | inr (ip0 :: ips) => located g (geo.choose_ip ip0 ips preferIPv4)
  end.

(** What [CheckGeo] returns for a server that is no URL and whose host
    is [host], lines 110-122: [net.LookupIP] is called with [host]. *)
Definition plain_answer `{geo.Lookup} (g : geo.GeoService) (host : string)
  : string * string * option geo.error :=
  match geo.LookupIP host with
  | inl _ | inr [] =>
      ("0.0.0.0", "PRIVATE",
       Some "local resolver cannot resolve host IP address")
  | inr (ip0 :: _) => located g ip0
  end.

(** The servers that the entries of a server list name: the entries
    trimmed, without the blank ones. *)
Definition named_servers (entries : list string) : list string :=
  omap (fun entry =>
          if String.eqb (strings.TrimSpace entry) "" then None
          else Some (strings.TrimSpace entry)) entries.

(** The sum of the counts of a list of bars, and of a list of points. *)
Definition bar_total (distribution : list cmd.Bar) : Z :=
  foldr (fun bar acc => (cmd.bar_Count bar + acc)%Z) 0%Z distribution.
Definition point_total (points : list cmd.Point) : Z :=
  foldr (fun p acc => (cmd.count p + acc)%Z) 0%Z points.

(** The servers of the "Testing server" lines, in order. *)
Definition tested (lines : list cmd.StderrLine) : list string :=
  omap (fun line => match line with
                    | cmd.Testing server => Some server
                    | _ => None
                    end) lines.

(** The line that closes the test of a server: "Completed testing
    server" or one of the three error lines, for that server. *)
Definition closes (server : string) (line : cmd.StderrLine) : Prop :=
  line = cmd.Completed server
  \/ exists err,
       line = cmd.ErrorTesting server err
       \/ line = cmd.ErrorGenerating server err
       \/ line = cmd.ErrorParsing server err.

(** The progress lines for a list of servers: for each server in turn
    "Testing server" and then the line that closes its test. *)
Inductive test_log : list string -> list cmd.StderrLine -> Prop :=
| test_log_nil : test_log [] []
| test_log_cons (server : string) (second : cmd.StderrLine)
    (servers : list string) (lines : list cmd.StderrLine) :
    closes server second ->
    test_log servers lines ->
    test_log (server :: servers) (cmd.Testing server :: second :: lines).

(** The servers of the "Completed testing server" lines, in order. *)
Definition completed (lines : list cmd.StderrLine) : list string :=
  omap (fun line => match line with
                    | cmd.Completed server => Some server
                    | _ => None
                    end) lines.

(** The members that [calculateScoreFromResult] reads, as
    [generateJSONForHTML] writes them (lines 365-388) and
    [json.Unmarshal] reads them back: every number a [float64]. *)
Definition top_fields (m : scoring.BenchmarkMetrics)
  : gmap string cmd.Value :=
  <["totalRequests" := cmd.VNumber (IZR (scoring.TotalRequests m))]>
  (<["totalSuccessResponses" :=
       cmd.VNumber (IZR (scoring.TotalSuccessResponses m))]>
  (<["totalErrorResponses" :=
       cmd.VNumber (IZR (scoring.TotalErrorResponses m))]>
  (<["totalIOErrors" := cmd.VNumber (IZR (scoring.TotalIOErrors m))]>
  (<["queriesPerSecond" := cmd.VNumber (scoring.QueriesPerSecond m)]>
     ∅)))).

Definition latency_fields (l : scoring.LatencyMetrics)
  : gmap string cmd.Value :=
  <["meanMs" := cmd.VNumber (IZR (scoring.MeanMs l))]>
  (<["stdMs" := cmd.VNumber (IZR (scoring.StdMs l))]>
  (<["p95Ms" := cmd.VNumber (IZR (scoring.P95Ms l))]>
  (<["p50Ms" := cmd.VNumber (IZR (scoring.P50Ms l))]> ∅))).

(** Whole numbers that a [float64] holds exactly, and so a JSON number
    read into a [float64]: up to 2^53 in absolute value. *)
Definition exact_in_float64 (n : Z) : Prop := (- 2 ^ 53 <= n <= 2 ^ 53)%Z.

(** The counters and latencies of the metrics are such numbers. *)
Definition exact_metrics (m : scoring.BenchmarkMetrics) : Prop :=
  exact_in_float64 (scoring.TotalRequests m)
  /\ exact_in_float64 (scoring.TotalSuccessResponses m)
  /\ exact_in_float64 (scoring.TotalErrorResponses m)
  /\ exact_in_float64 (scoring.TotalIOErrors m)
  /\ exact_in_float64 (scoring.MeanMs (scoring.LatencyStats m))
  /\ exact_in_float64 (scoring.StdMs (scoring.LatencyStats m))
  /\ exact_in_float64 (scoring.P95Ms (scoring.LatencyStats m))
  /\ exact_in_float64 (scoring.P50Ms (scoring.LatencyStats m)).

(** The keys that [calculateScoreFromResult] reads as numbers. *)
Definition top_keys : list string :=
  [ "totalRequests"; "totalSuccessResponses"; "totalErrorResponses";
    "totalIOErrors"; "queriesPerSecond" ].
Definition latency_keys : list string :=
  [ "meanMs"; "stdMs"; "p95Ms"; "p50Ms" ].

(** The three schemes that [extractIPFromServer] strips. *)
Definition stripped_schemes : list string :=
  [ "https://"; "tls://"; "quic://" ].

End shapes.

(* ===================================================================== *)
(** * Concrete inputs and environments *)
(* ===================================================================== *)

Module examples.
Import scoring.

(** 10 requests, 9 answered, mean 20 ms, median 21 ms. *)
Definition sample_metrics : BenchmarkMetrics :=
  mkBenchmarkMetrics 10 9 1 0 50 (mkLatencyMetrics 20 4 21 60).

(** Mean 1 ms, median 0 ms: the exact mean is 0.5 ms, the halved integer
    sum is 0. *)
Definition half_ms_metrics : BenchmarkMetrics :=
  mkBenchmarkMetrics 1 1 0 0 0 (mkLatencyMetrics 1 0 0 0).

(** No request answered. *)
Definition no_success_metrics : BenchmarkMetrics :=
  mkBenchmarkMetrics 10 0 3 7 250 (mkLatencyMetrics 20 4 21 60).

(** Every request answered within a millisecond, 2500 queries per
    second. *)
Definition fast_metrics : BenchmarkMetrics :=
  mkBenchmarkMetrics 1000 1000 0 0 2500 (mkLatencyMetrics 0 0 0 3).

(** All requests succeed, the mean latency is 0 ms and the rate is 100
    queries per second; the three inputs differ in the 95th percentile,
    in the error counter and in the median. *)
Definition slow_tail_metrics : BenchmarkMetrics :=
  mkBenchmarkMetrics 10 10 0 0 100 (mkLatencyMetrics 0 0 0 1001).
Definition many_errors_metrics : BenchmarkMetrics :=
  mkBenchmarkMetrics 10 10 10 0 100 (mkLatencyMetrics 0 0 0 0).
Definition slow_median_metrics : BenchmarkMetrics :=
  mkBenchmarkMetrics 10 10 0 0 100 (mkLatencyMetrics 0 0 2000 0).

(** Three scored servers. *)
Definition score_of (total : R) : ScoreResult64 :=
  stored (mkScoreResult total 0%R 0%R 0%R 0%R).
Definition three_servers : list (string * ScoreResult64) :=
  [ ("1.1.1.1", score_of 1); ("8.8.8.8", score_of 3);
    ("9.9.9.9", score_of 2) ].

(** A score whose [Total] is NaN, as [CalculateScore] computes it in
    [float64] for one success among no requests, and a map that holds
    it. *)
Definition nan_score : ScoreResult64 :=
  mkScoreResult NaN PosInf NaN (Num 95) (Num 0).
Definition nan_servers : list (string * ScoreResult64) :=
  [ ("a", nan_score); ("b", score_of 1); ("c", score_of 2) ].

(** A host with the database installed, where every name resolves to one
    public address that the database places in the United States. *)
Definition us_lookup : geo.Lookup := {|
  geo.IP := nat;
  geo.To4 := fun _ => true;
  geo.IsPrivate := fun _ => false;
  geo.IsUnspecified := fun _ => false;
  geo.IPString := fun _ => "8.8.8.8";
  geo.LookupIP := fun _ => inr [8];
  geo.Reader := unit;
  geo.Open := fun _ => inr tt;
  geo.Country := fun _ _ => inr "US"
|}.

(** Every run succeeds; the report of a run names its server, and parses
    to an object with that one key.  The merged counters show 7
    successes, 1 negative answer and 2 I/O errors. *)
Definition echo_world : cmd.World := {|
  cmd.Others := unit;
  cmd.Results := string;
  cmd.JSONValue := string;
  cmd.Run := fun b => inr (cmd.Server b);
  cmd.PrintReport := fun _ res _ => inr res;
  cmd.Merge := fun _ _ => cmd.mkCounters 10 7 1 0 0 0 2;
  cmd.Unmarshal := fun data => inr {[ data := ("result of " +:+ data) ]};
  cmd.range_first := fun _ => None
|}.

(** No run succeeds. *)
Definition dead_world : cmd.World := {|
  cmd.Others := unit;
  cmd.Results := string;
  cmd.JSONValue := string;
  cmd.Run := fun _ => inl "connection refused";
  cmd.PrintReport := fun _ res _ => inr res;
  cmd.Merge := fun _ _ => cmd.mkCounters 0 0 0 0 0 0 0;
  cmd.Unmarshal := fun data => inr {[ data := data ]};
  cmd.range_first := fun _ => None
|}.

(** A configuration as the flags fill it in, for the query
    [example.com]: the defaults that [root.go] spells out, values chosen
    here for the defaults that package [dnsbench] names (the timeouts,
    the plot format and the log path), and the given [--server] and
    [--batch-json]. *)
Definition flags (server batchJSON : string) : cmd.Benchmark unit :=
  {| cmd.Server := server; cmd.Types := ["A"]; cmd.Count := 1;
     cmd.Concurrency := 1; cmd.Rate := 0; cmd.RateLimitWorker := 0;
     cmd.QperConn := 0; cmd.Recurse := true; cmd.Probability := 1;
     cmd.EdnsOpt := ""; cmd.DNSSEC := false; cmd.Edns0 := 0;
     cmd.TCP := false; cmd.DOT := false; cmd.WriteTimeout := 1000000000;
     cmd.ReadTimeout := 3000000000; cmd.ConnectTimeout := 1000000000;
     cmd.RequestTimeout := 5000000000; cmd.Rcodes := true;
     cmd.HistMin := 400000; cmd.HistMax := 0; cmd.HistPre := 1;
     cmd.HistDisplay := true; cmd.Csv := ""; cmd.JSON := false;
     cmd.BatchJSON := batchJSON; cmd.HTML := ""; cmd.Silent := false;
     cmd.Color := true; cmd.PlotDir := ""; cmd.PlotFormat := "svg";
     cmd.DohMethod := "post"; cmd.DohProtocol := "1.1";
     cmd.Insecure := false; cmd.Duration := 0; cmd.ProgressBar := true;
     cmd.RequestLogEnabled := false; cmd.RequestLogPath := "requests.log";
     cmd.SeparateWorkerConnections := false; cmd.RequestDelay := "0s";
     cmd.PrometheusMetricsAddr := ""; cmd.Queries := ["example.com"];
     cmd.Writer := cmd.os_Stdout; cmd.unexported := tt |}.

(** [dnspyre example.com] *)
Definition default_benchmark : cmd.Benchmark unit := flags "127.0.0.1" "".

(** [dnspyre --batch-json LIST example.com] *)
Definition batch_benchmark (list : string) : cmd.Benchmark unit :=
  flags "127.0.0.1" list.

(** A host where only the last database path opens.  The name
    [dual.example] has an IPv6 address, an IPv4 address and another
    IPv6 address; [anycast.example] has one address that the database
    does not know; [192.168.1.1] is a private address; no other name
    resolves. *)
Definition mixed_lookup : geo.Lookup := {|
  geo.IP := nat;
  geo.To4 := fun ip => ip =? 4;
  geo.IsPrivate := fun ip => ip =? 192;
  geo.IsUnspecified := fun ip => ip =? 0;
  geo.IPString := fun ip =>
    if ip =? 9 then "9.9.9.9"
    else if ip =? 192 then "192.168.1.1"
    else if ip =? 4 then "203.0.113.4"
    else "2001:db8::" +:+ pretty ip;
  geo.LookupIP := fun host =>
    if String.eqb host "dual.example" then inr [6; 4; 14]
    else if String.eqb host "anycast.example" then inr [9]
    else if String.eqb host "192.168.1.1" then inr [192]
    else inl "no such host";
  geo.Reader := unit;
  geo.Open := fun path =>
    if String.eqb path "./Country.mmdb" then inr tt
    else inl ("open " +:+ path +:+ ": no such file or directory");
  geo.Country := fun _ ip =>
    if ip =? 9 then inl "address not found"
    else if ip =? 4 then inr "DE"
    else inr ""
|}.

Definition mixed_service : @geo.GeoService mixed_lookup :=
  @geo.mkGeoService mixed_lookup (Some tt).

(** The members of a report for [sample_metrics], with two members
    that [calculateScoreFromResult] does not read. *)
Definition sample_latencyStats : gmap string cmd.Value :=
  <["maxMs" := cmd.VNumber 75]>
    (shapes.latency_fields (LatencyStats sample_metrics)).
Definition sample_result : gmap string cmd.Value :=
  <["latencyStats" := cmd.VObject sample_latencyStats]>
  (<["geocode" := cmd.VString "ZZ"]>
     (shapes.top_fields sample_metrics)).

(** A child process that prints that report for every server but
    [0.0.0.0], for which it prints [null]. *)
Definition report_shell : cmd.Shell := {|
  cmd.dnspyre_Output := fun args =>
    if bool_decide ("0.0.0.0" ∈ args) then inr "null" else inr "{...}";
  cmd.Unmarshal_result := fun output =>
    if String.eqb output "null" then inr None else inr (Some sample_result);
  cmd.Duration_String := fun d => pretty (d `quot` 1000000000)%Z +:+ "s"
|}.

Definition sample_batch : cmd.BatchBenchmark :=
  cmd.mkBatchBenchmark ["8.8.8.8"; "0.0.0.0"] "out" 10000000000 10 2
    "example.com,example.org".

(** A histogram with an empty bar. *)
Definition sample_distribution : list cmd.Bar :=
  [ cmd.mkBar 0 1999999 7; cmd.mkBar 2000000 3999999 0;
    cmd.mkBar 4000000 5999999 3 ].

(** A host as [us_lookup], but with a database whose record for every
    address carries the code [UNKNOWN]. *)
Definition unvalidated_lookup : geo.Lookup := {|
  geo.IP := nat;
  geo.To4 := fun _ => true;
  geo.IsPrivate := fun _ => false;
  geo.IsUnspecified := fun _ => false;
  geo.IPString := fun _ => "8.8.8.8";
  geo.LookupIP := fun _ => inr [8];
  geo.Reader := unit;
  geo.Open := fun _ => inr tt;
  geo.Country := fun _ _ => inr "UNKNOWN"
|}.

(** The conversion of amd64, which gives the least [int64] beyond the
    range. *)
Definition amd64 : cmd.Platform := {|
  cmd.int64_out_of_range := fun _ => (- 2 ^ 63)%Z
|}.

End examples.

(* ===================================================================== *)
(** * Properties of package scoring *)
(* ===================================================================== *)

Import scoring.

Section ScoringFacts.
Local Open Scope R_scope.

Lemma ln_le_mono (x y : R) : 0 < x -> x <= y -> ln x <= ln y.
Proof.
  intros Hx [Hlt | ->]; [|lra].
  apply Rlt_le, ln_increasing; assumption.
Qed.

Lemma ln_101_pos : 0 < ln (1 + MaxQPS).
Proof.
  unfold MaxQPS. rewrite <- ln_1. apply ln_increasing; lra.
Qed.

Lemma ratio_range (a b : R) : 0 < b -> 0 <= a <= b -> 0 <= a / b <= 1.
Proof.
  intros Hb [Ha Hab]. split.
  - apply Rmult_le_pos; [exact Ha | apply Rlt_le, Rinv_0_lt_compat, Hb].
  - apply (Rmult_le_reg_r b); [exact Hb|].
    unfold Rdiv. rewrite Rmult_assoc, Rinv_l by lra. lra.
Qed.

Lemma Rmax0_Rmin100_range (x : R) : 0 <= Rmax 0 (Rmin 100 x) <= 100.
Proof.
  split; [apply Rmax_l|].
  apply Rmax_lub; [lra | apply Rmin_l].
Qed.

(** The halved sum is an integer: it is at most 0 or at least 1, never
    strictly between 0 and the lower threshold. *)
Lemma meanMs_small_or_ge_1 (metrics : BenchmarkMetrics) :
  meanMs metrics <= 0 \/ 1 <= meanMs metrics.
Proof.
  unfold meanMs.
  destruct (Z_le_gt_dec
              (div64 (add64 (MeanMs (LatencyStats metrics))
                            (P50Ms (LatencyStats metrics))) 2) 0) as [H|H].
  - left. apply (IZR_le _ 0). exact H.
  - right. apply (IZR_le 1). lia.
Qed.

Lemma meanMs_eval (metrics : BenchmarkMetrics) (z : Z) :
  div64 (add64 (MeanMs (LatencyStats metrics))
               (P50Ms (LatencyStats metrics))) 2 = z ->
  meanMs metrics = IZR z.
Proof. intros <-. reflexivity. Qed.

(** Past the guard on [TotalSuccessResponses], the result is the record
    of the five computed scores. *)
Lemma CalculateScore_nonzero (metrics : BenchmarkMetrics) :
  TotalSuccessResponses metrics <> 0%Z ->
  CalculateScore metrics =
    {| Total := (successRateScore metrics * SuccessRateScoreWeight
                 + errorRateScore metrics * ErrorRateScoreWeight
                 + latencyScore metrics * LatencyScoreWeight
                 + qpsScore metrics * QPSScoreWeight) / 100;
       SuccessRate := successRateScore metrics;
       ErrorRate := errorRateScore metrics;
       Latency := latencyScore metrics;
       QPS := qpsScore metrics |}.
Proof.
  intros H. unfold CalculateScore.
  destruct (Z.eqb_spec (TotalSuccessResponses metrics) 0);
    [contradiction | reflexivity].
Qed.

Lemma weighted_total (s e l q : R) :
  (s * SuccessRateScoreWeight + e * ErrorRateScoreWeight
   + l * LatencyScoreWeight + q * QPSScoreWeight) / 100
  = (35 * s + 10 * e + 50 * l + 5 * q) / 100.
Proof.
  unfold SuccessRateScoreWeight, ErrorRateScoreWeight, LatencyScoreWeight,
    QPSScoreWeight.
  lra.
Qed.

(** The code's latency score is the formula of the specification at the
    code's [meanMs]: between the thresholds the clamp to 0..100 changes
    nothing and the guard [meanMs > 0] holds. *)
Lemma latencyScore_latency_of (metrics : BenchmarkMetrics) :
  latencyScore metrics =
  scoring_spec.latency_of (meanMs metrics)
    (IZR (StdMs (LatencyStats metrics)))
    (IZR (P95Ms (LatencyStats metrics))).
Proof.
  unfold latencyScore, scoring_spec.latency_of, LatencyRangeMin,
    LatencyRangeMax.
  set (m := meanMs metrics). set (s := IZR (StdMs (LatencyStats metrics))).
  assert (Hv :
    (if Rlt_dec m (1 / 10) then 95
     else if Rgt_dec m 1000 then 0
     else if Rgt_dec m 0
          then Rmax 0 (Rmax 0 (Rmin 100
                 (100 * (1 - (m - 1 / 10) / (1000 - 1 / 10)))) - s / m * 5)
          else Rmax 0 (Rmin 100
                 (100 * (1 - (m - 1 / 10) / (1000 - 1 / 10))))) =
    (if Rlt_dec m (1 / 10) then 95
     else if Rgt_dec m 1000 then 0
     else Rmax 0 (100 * (1 - (m - 1 / 10) / (1000 - 1 / 10)) - s / m * 5))).
  { destruct (Rlt_dec m (1 / 10)) as [|Hlo]; [reflexivity|].
    destruct (Rgt_dec m 1000) as [|Hhi]; [reflexivity|].
    destruct (Rgt_dec m 0) as [|Hpos]; [|lra].
    assert (0 <= (m - 1 / 10) / (1000 - 1 / 10) <= 1)
      by (apply ratio_range; lra).
    rewrite Rmin_right by lra.
    rewrite (Rmax_right 0 (100 * _)) by lra.
    reflexivity. }
  rewrite Hv.
  destruct (Z.gtb_spec (P95Ms (LatencyStats metrics)) 1000) as [Hp|Hp];
    destruct (Rgt_dec (IZR (P95Ms (LatencyStats metrics))) 1000) as [Hq|Hq];
    try reflexivity.
  - exfalso. apply Hq. apply (IZR_lt 1000). lia.
  - exfalso. apply (lt_IZR 1000) in Hq. lia.
Qed.

Lemma latency_of_range (m s p : R) :
  0 <= s -> scoring_spec.in_0_100 (scoring_spec.latency_of m s p).
Proof.
  intros Hs. unfold scoring_spec.in_0_100, scoring_spec.latency_of.
  assert (Hv : 0 <= (if Rlt_dec m (1 / 10) then 95
     else if Rgt_dec m 1000 then 0
     else Rmax 0 (100 * (1 - (m - 1 / 10) / (1000 - 1 / 10)) - s / m * 5))
     <= 100).
  { destruct (Rlt_dec m (1 / 10)) as [|Hlo]; [lra|].
    destruct (Rgt_dec m 1000) as [|Hhi]; [lra|].
    split; [apply Rmax_l|]. apply Rmax_lub; [lra|].
    assert (0 <= (m - 1 / 10) / (1000 - 1 / 10) <= 1)
      by (apply ratio_range; lra).
    assert (0 <= s / m)
      by (apply Rmult_le_pos;
          [lra | apply Rlt_le, Rinv_0_lt_compat; lra]).
    lra. }
  destruct (Rgt_dec p 1000); lra.
Qed.

Lemma latencyScore_fast (metrics : BenchmarkMetrics) :
  meanMs metrics < LatencyRangeMin ->
  (P95Ms (LatencyStats metrics) <= 1000)%Z ->
  latencyScore metrics = 95.
Proof.
  intros Hm Hp. unfold latencyScore.
  destruct (Rlt_dec (meanMs metrics) LatencyRangeMin); [|contradiction].
  destruct (Z.gtb_spec (P95Ms (LatencyStats metrics)) 1000);
    [lia | reflexivity].
Qed.

Lemma latencyScore_fast_slow_tail (metrics : BenchmarkMetrics) :
  meanMs metrics < LatencyRangeMin ->
  (P95Ms (LatencyStats metrics) > 1000)%Z ->
  latencyScore metrics = 95 * (7 / 10).
Proof.
  intros Hm Hp. unfold latencyScore.
  destruct (Rlt_dec (meanMs metrics) LatencyRangeMin); [|contradiction].
  destruct (Z.gtb_spec (P95Ms (LatencyStats metrics)) 1000);
    [reflexivity | lia].
Qed.

Lemma errorRateScore_range (metrics : BenchmarkMetrics) :
  scoring_spec.in_0_100 (errorRateScore metrics).
Proof. apply Rmax0_Rmin100_range. Qed.

Lemma errorRateScore_eval (metrics : BenchmarkMetrics) :
  (TotalRequests metrics > 0)%Z ->
  (0 <= add64 (TotalErrorResponses metrics) (TotalIOErrors metrics)
     <= TotalRequests metrics)%Z ->
  errorRateScore metrics =
  100 * (1 - IZR (add64 (TotalErrorResponses metrics)
                        (TotalIOErrors metrics))
             / IZR (TotalRequests metrics)).
Proof.
  intros Ht [He0 He]. unfold errorRateScore.
  assert (0 <= IZR (add64 (TotalErrorResponses metrics)
                          (TotalIOErrors metrics))
               / IZR (TotalRequests metrics) <= 1).
  { apply ratio_range; [apply (IZR_lt 0); lia|].
    split; [apply (IZR_le 0) | apply IZR_le]; assumption. }
  rewrite Rmin_right by lra. rewrite Rmax_right by lra. reflexivity.
Qed.

Lemma errorRateScore_quarter (metrics : BenchmarkMetrics) :
  (TotalRequests metrics > 0)%Z ->
  (4 * add64 (TotalErrorResponses metrics) (TotalIOErrors metrics)
     <= TotalRequests metrics)%Z ->
  75 <= errorRateScore metrics.
Proof.
  intros Ht He. unfold errorRateScore.
  set (e := add64 _ _) in *.
  assert (Hpos : 0 < IZR (TotalRequests metrics))
    by (apply (IZR_lt 0); lia).
  assert (Hq : IZR e / IZR (TotalRequests metrics) <= 1 / 4).
  { apply (Rmult_le_reg_r (IZR (TotalRequests metrics))); [exact Hpos|].
    unfold Rdiv at 1. rewrite Rmult_assoc, Rinv_l by lra.
    apply IZR_le in He. rewrite mult_IZR in He. lra. }
  eapply Rle_trans; [|apply Rmax_r].
  apply Rmin_glb; lra.
Qed.

Lemma successRateScore_range (metrics : BenchmarkMetrics) :
  (0 < TotalRequests metrics)%Z ->
  (0 <= TotalSuccessResponses metrics <= TotalRequests metrics)%Z ->
  scoring_spec.in_0_100 (successRateScore metrics).
Proof.
  intros Ht [Hs Hst]. unfold scoring_spec.in_0_100, successRateScore.
  assert (0 <= IZR (TotalSuccessResponses metrics)
               / IZR (TotalRequests metrics) <= 1).
  { apply ratio_range; [apply (IZR_lt 0), Ht|].
    split; [apply (IZR_le 0), Hs | apply IZR_le, Hst]. }
  lra.
Qed.

Lemma successRateScore_all (metrics : BenchmarkMetrics) :
  (TotalRequests metrics > 0)%Z ->
  TotalSuccessResponses metrics = TotalRequests metrics ->
  successRateScore metrics = 100.
Proof.
  intros Ht Hs. unfold successRateScore. rewrite Hs.
  assert (0 < IZR (TotalRequests metrics)) by (apply (IZR_lt 0); lia).
  field. lra.
Qed.

Lemma qpsScore_le_100 (metrics : BenchmarkMetrics) :
  qpsScore metrics <= 100.
Proof. apply Rmin_l. Qed.

Lemma qpsScore_nonneg (metrics : BenchmarkMetrics) :
  0 <= QueriesPerSecond metrics -> 0 <= qpsScore metrics.
Proof.
  intros Hq. unfold qpsScore. apply Rmin_glb; [lra|].
  assert (0 <= ln (1 + QueriesPerSecond metrics)).
  { rewrite <- ln_1. apply ln_le_mono; lra. }
  pose proof ln_101_pos.
  unfold Rdiv.
  apply Rmult_le_pos; [|apply Rlt_le, Rinv_0_lt_compat; assumption].
  apply Rmult_le_pos; lra.
Qed.

Lemma qpsScore_full (metrics : BenchmarkMetrics) :
  100 <= QueriesPerSecond metrics -> qpsScore metrics = 100.
Proof.
  intros Hq. unfold qpsScore. apply Rmin_left.
  pose proof ln_101_pos as Hpos.
  assert (Hle : ln (1 + MaxQPS) <= ln (1 + QueriesPerSecond metrics)).
  { apply ln_le_mono; unfold MaxQPS; lra. }
  apply (Rmult_le_reg_r (ln (1 + MaxQPS))); [exact Hpos|].
  unfold Rdiv. rewrite Rmult_assoc, Rinv_l by lra. lra.
Qed.
End ScoringFacts.

Section ScoringClaims.
Import examples.
Local Open Scope R_scope.

(** C1, refuted as stated.  With a mean of 1 ms and a median of 0 ms the
    exact arithmetic mean is 0.5 ms, for which the formula of the
    specification gives 100 * (1 - 0.4 / 999.9), about 99.96; the code
    halves the integer sum, gets 0 and returns 95. *)
Lemma latency_exact_mean_fails :
  (TotalSuccessResponses half_ms_metrics > 0)%Z /\
  Latency (CalculateScore half_ms_metrics) = 95 /\
  scoring_spec.latency_exact half_ms_metrics
    = 100 * (1 - (4 / 10) / (1000 - 1 / 10)) /\
  Latency (CalculateScore half_ms_metrics)
    <> scoring_spec.latency_exact half_ms_metrics.
Proof.
  assert (Hc : Latency (CalculateScore half_ms_metrics) = 95).
  { rewrite CalculateScore_nonzero by discriminate. cbn [Latency].
    rewrite latencyScore_latency_of.
    rewrite (meanMs_eval half_ms_metrics 0) by reflexivity.
    unfold scoring_spec.latency_of.
    cbn [half_ms_metrics LatencyStats StdMs P95Ms].
    destruct (Rlt_dec 0 (1 / 10)); [|lra].
    destruct (Rgt_dec 0 1000); [lra | reflexivity]. }
  assert (Hs : scoring_spec.latency_exact half_ms_metrics
               = 100 * (1 - (4 / 10) / (1000 - 1 / 10))).
  { unfold scoring_spec.latency_exact, scoring_spec.latencyScore,
      scoring_spec.latency_of.
    cbn [half_ms_metrics LatencyStats MeanMs P50Ms StdMs P95Ms].
    destruct (Rlt_dec ((1 + 0) / 2) (1 / 10)); [lra|].
    destruct (Rgt_dec ((1 + 0) / 2) 1000); [lra|].
    destruct (Rgt_dec 0 1000); [lra|].
    rewrite Rmax_right.
    - field.
    - assert (0 <= ((1 + 0) / 2 - 1 / 10) / (1000 - 1 / 10) <= 1)
        by (apply ratio_range; lra).
      lra. }
  split; [reflexivity|]. split; [exact Hc|]. split; [exact Hs|].
  rewrite Hc, Hs.
  assert (0 <= (4 / 10) / (1000 - 1 / 10) <= 1)
    by (apply ratio_range; lra).
  assert ((4 / 10) / (1000 - 1 / 10) * (1000 - 1 / 10) = 4 / 10)
    by (field; lra).
  nra.
Qed.

(** C1, amended.  Whenever [TotalSuccessResponses > 0], the [Latency]
    field is the value of the specification's formula at
    [m = float64((MeanMs + P50Ms) / 2)], the sum and the halving being
    [int64] operations (wrap-around, quotient truncated towards zero):
    95 if [m < 0.1]; 0 if [m > 1000]; otherwise
    [100 * (1 - (m - 0.1) / (1000 - 0.1))] minus [StdMs / m * 5], floored
    at 0; in every case times 0.7 when [P95Ms > 1000]. *)
Theorem CalculateScore_latency (metrics : BenchmarkMetrics) :
  (TotalSuccessResponses metrics > 0)%Z ->
  Latency (CalculateScore metrics) =
  scoring_spec.latency_of
    (IZR (Z.quot (add64 (MeanMs (LatencyStats metrics))
                        (P50Ms (LatencyStats metrics))) 2))
    (IZR (StdMs (LatencyStats metrics)))
    (IZR (P95Ms (LatencyStats metrics))).
Proof.
  intros Hs. rewrite CalculateScore_nonzero by lia. cbn [Latency].
  apply latencyScore_latency_of.
Qed.

Lemma CalculateScore_latency_witness :
  Latency (CalculateScore sample_metrics) = scoring_spec.latency_of 20 4 60.
Proof. apply (CalculateScore_latency sample_metrics). reflexivity. Defined.

(** Where the sum of [MeanMs] and [P50Ms] is even and within [int64],
    the halved sum is the exact mean and the two formulas agree. *)
Lemma CalculateScore_latency_even (metrics : BenchmarkMetrics) (k : Z) :
  (TotalSuccessResponses metrics > 0)%Z ->
  (- 2 ^ 62 <= k < 2 ^ 62)%Z ->
  (MeanMs (LatencyStats metrics) + P50Ms (LatencyStats metrics) = 2 * k)%Z ->
  Latency (CalculateScore metrics) = scoring_spec.latency_exact metrics.
Proof.
  intros Hs Hk Hsum.
  assert (Hlat :
    Latency (CalculateScore metrics) =
    scoring_spec.latency_of
      (IZR (Z.quot (add64 (MeanMs (LatencyStats metrics))
                          (P50Ms (LatencyStats metrics))) 2))
      (IZR (StdMs (LatencyStats metrics)))
      (IZR (P95Ms (LatencyStats metrics)))).
  { rewrite CalculateScore_nonzero by lia. cbn [Latency].
    apply latencyScore_latency_of. }
  rewrite Hlat.
  unfold scoring_spec.latency_exact, scoring_spec.latencyScore.
  f_equal. unfold add64, wrap64. rewrite Hsum.
  replace ((2 * k + 2 ^ 63) mod 2 ^ 64 - 2 ^ 63)%Z with (2 * k)%Z
    by (rewrite Z.mod_small; lia).
  rewrite <- plus_IZR, Hsum, mult_IZR.
  replace (Z.quot (2 * k) 2) with k
    by (rewrite Z.mul_comm, Z.quot_mul; lia).
  field.
Qed.

(** C2.  With [TotalSuccessResponses = 0] the result is the all-zero
    score, whatever the other fields of the input are. *)
Theorem CalculateScore_no_success (metrics : BenchmarkMetrics) :
  TotalSuccessResponses metrics = 0%Z ->
  CalculateScore metrics = zeroScore /\
  Total (CalculateScore metrics) = 0 /\
  SuccessRate (CalculateScore metrics) = 0 /\
  ErrorRate (CalculateScore metrics) = 0 /\
  Latency (CalculateScore metrics) = 0 /\
  QPS (CalculateScore metrics) = 0.
Proof.
  intros H. unfold CalculateScore. rewrite H. cbn.
  repeat split; reflexivity.
Qed.

Lemma CalculateScore_no_success_witness :
  TotalSuccessResponses no_success_metrics = 0%Z /\
  CalculateScore no_success_metrics = zeroScore.
Proof.
  split; [reflexivity|].
  apply (CalculateScore_no_success no_success_metrics). reflexivity.
Defined.

(** C3.  For [TotalRequests > 0], [0 < TotalSuccessResponses <=
    TotalRequests], [0 <= TotalErrorResponses + TotalIOErrors <=
    TotalRequests], a rate that is not negative and latency statistics
    that are not negative, each of [SuccessRate], [ErrorRate], [Latency]
    and [QPS] lies between 0 and 100. *)
Theorem CalculateScore_components_range (metrics : BenchmarkMetrics) :
  (TotalRequests metrics > 0)%Z ->
  (0 < TotalSuccessResponses metrics <= TotalRequests metrics)%Z ->
  (0 <= TotalErrorResponses metrics + TotalIOErrors metrics
     <= TotalRequests metrics)%Z ->
  0 <= QueriesPerSecond metrics ->
  (0 <= MeanMs (LatencyStats metrics))%Z ->
  (0 <= StdMs (LatencyStats metrics))%Z ->
  (0 <= P50Ms (LatencyStats metrics))%Z ->
  (0 <= P95Ms (LatencyStats metrics))%Z ->
  scoring_spec.in_0_100 (SuccessRate (CalculateScore metrics)) /\
  scoring_spec.in_0_100 (ErrorRate (CalculateScore metrics)) /\
  scoring_spec.in_0_100 (Latency (CalculateScore metrics)) /\
  scoring_spec.in_0_100 (QPS (CalculateScore metrics)).
Proof.
  intros Ht Hs He Hq Hmean Hstd Hp50 Hp95.
  rewrite CalculateScore_nonzero by lia.
  cbn [SuccessRate ErrorRate Latency QPS].
  split; [apply successRateScore_range; lia|].
  split; [apply errorRateScore_range|].
  split.
  - rewrite latencyScore_latency_of. apply latency_of_range.
    apply (IZR_le 0). exact Hstd.
  - split; [apply qpsScore_nonneg; exact Hq | apply qpsScore_le_100].
Qed.

Lemma CalculateScore_components_range_witness :
  scoring_spec.in_0_100 (SuccessRate (CalculateScore sample_metrics)) /\
  scoring_spec.in_0_100 (ErrorRate (CalculateScore sample_metrics)) /\
  scoring_spec.in_0_100 (Latency (CalculateScore sample_metrics)) /\
  scoring_spec.in_0_100 (QPS (CalculateScore sample_metrics)).
Proof.
  apply (CalculateScore_components_range sample_metrics);
    cbn; try lia; lra.
Defined.

(** C4.  Whenever [TotalSuccessResponses > 0], [QPS] is the smaller of
    100 and [100 * ln(1 + QueriesPerSecond) / ln(1 + 100)], and [Total]
    is [(35 * SuccessRate + 10 * ErrorRate + 50 * Latency + 5 * QPS) /
    100] of the other four fields of the same result. *)
Theorem CalculateScore_qps_total (metrics : BenchmarkMetrics) :
  (TotalSuccessResponses metrics > 0)%Z ->
  QPS (CalculateScore metrics) =
    Rmin 100 (100 * ln (1 + QueriesPerSecond metrics) / ln (1 + 100)) /\
  Total (CalculateScore metrics) =
    (35 * SuccessRate (CalculateScore metrics)
     + 10 * ErrorRate (CalculateScore metrics)
     + 50 * Latency (CalculateScore metrics)
     + 5 * QPS (CalculateScore metrics)) / 100.
Proof.
  intros Hs. rewrite CalculateScore_nonzero by lia.
  cbn [Total SuccessRate ErrorRate Latency QPS].
  split; [reflexivity | apply weighted_total].
Qed.

Lemma CalculateScore_qps_total_witness :
  QPS (CalculateScore sample_metrics) =
    Rmin 100 (100 * ln (1 + 50) / ln (1 + 100)) /\
  Total (CalculateScore sample_metrics) =
    (35 * SuccessRate (CalculateScore sample_metrics)
     + 10 * ErrorRate (CalculateScore sample_metrics)
     + 50 * Latency (CalculateScore sample_metrics)
     + 5 * QPS (CalculateScore sample_metrics)) / 100.
Proof. apply (CalculateScore_qps_total sample_metrics). reflexivity. Defined.

(** C5, refuted as stated.  Three inputs in which every request
    succeeds, the mean latency is 0 ms and the rate is 100 queries per
    second, with a total below 95: a 95th percentile above 1000 ms
    (83.25), as many error responses as requests (87.5), and a median of
    2000 ms (50). *)
Lemma total_below_95 :
  (scoring_spec.full_success_fast slow_tail_metrics /\
   meanMs slow_tail_metrics < LatencyRangeMin /\
   Total (CalculateScore slow_tail_metrics) = 8325 / 100) /\
  (scoring_spec.full_success_fast many_errors_metrics /\
   meanMs many_errors_metrics < LatencyRangeMin /\
   Total (CalculateScore many_errors_metrics) = 8750 / 100) /\
  (scoring_spec.full_success_fast slow_median_metrics /\
   Total (CalculateScore slow_median_metrics) = 50) /\
  ~ (forall metrics, scoring_spec.full_success_fast metrics ->
       95 <= Total (CalculateScore metrics)).
Proof.
  assert (Hfast : forall metrics, MeanMs (LatencyStats metrics) = 0%Z ->
            (TotalRequests metrics > 0)%Z ->
            TotalSuccessResponses metrics = TotalRequests metrics ->
            100 <= QueriesPerSecond metrics ->
            scoring_spec.full_success_fast metrics).
  { intros metrics Hm Ht Hs Hq. unfold scoring_spec.full_success_fast.
    rewrite Hm. repeat split; try assumption; try lia. lra. }
  assert (Hzero : forall metrics,
            div64 (add64 (MeanMs (LatencyStats metrics))
                         (P50Ms (LatencyStats metrics))) 2 = 0%Z ->
            meanMs metrics < LatencyRangeMin).
  { intros metrics Hm. rewrite (meanMs_eval _ 0 Hm).
    unfold LatencyRangeMin. lra. }
  assert (H1 : Total (CalculateScore slow_tail_metrics) = 8325 / 100).
  { rewrite CalculateScore_nonzero by discriminate. cbn [Total].
    rewrite weighted_total.
    rewrite successRateScore_all by reflexivity.
    rewrite qpsScore_full by (cbn; lra).
    rewrite latencyScore_fast_slow_tail;
      [| apply Hzero; reflexivity | reflexivity].
    rewrite errorRateScore_eval by (vm_compute; split; discriminate).
    replace (add64 _ _) with 0%Z by reflexivity.
    cbn. lra. }
  assert (H2 : Total (CalculateScore many_errors_metrics) = 8750 / 100).
  { rewrite CalculateScore_nonzero by discriminate. cbn [Total].
    rewrite weighted_total.
    rewrite successRateScore_all by reflexivity.
    rewrite qpsScore_full by (cbn; lra).
    rewrite latencyScore_fast;
      [| apply Hzero; reflexivity | discriminate].
    rewrite errorRateScore_eval by (vm_compute; split; discriminate).
    replace (add64 _ _) with 10%Z by reflexivity.
    cbn. lra. }
  assert (H3 : Total (CalculateScore slow_median_metrics) = 50).
  { rewrite CalculateScore_nonzero by discriminate. cbn [Total].
    rewrite weighted_total.
    rewrite successRateScore_all by reflexivity.
    rewrite qpsScore_full by (cbn; lra).
    rewrite errorRateScore_eval by (vm_compute; split; discriminate).
    replace (add64 _ _) with 0%Z by reflexivity.
    rewrite latencyScore_latency_of.
    rewrite (meanMs_eval _ 1000) by reflexivity.
    unfold scoring_spec.latency_of.
    cbn [slow_median_metrics LatencyStats StdMs P95Ms TotalRequests].
    destruct (Rlt_dec 1000 (1 / 10)); [lra|].
    destruct (Rgt_dec 1000 1000); [lra|].
    destruct (Rgt_dec 0 1000); [lra|].
    replace (100 * (1 - (1000 - 1 / 10) / (1000 - 1 / 10)) - 0 / 1000 * 5)
      with 0 by (field; lra).
    rewrite Rmax_left by lra. lra. }
  split; [|split; [|split]].
  - split; [apply Hfast; cbn; try reflexivity; lra|].
    split; [apply Hzero; reflexivity | exact H1].
  - split; [apply Hfast; cbn; try reflexivity; lra|].
    split; [apply Hzero; reflexivity | exact H2].
  - split; [apply Hfast; cbn; try reflexivity; lra | exact H3].
  - intros Hall.
    assert (Hf : scoring_spec.full_success_fast slow_tail_metrics)
      by (apply Hfast; cbn; try reflexivity; lra).
    apply Hall in Hf. rewrite H1 in Hf. lra.
Qed.

(** C5, amended.  With [TotalSuccessResponses = TotalRequests > 0], the
    halved integer sum of [MeanMs] and [P50Ms] below 0.1 ms (the value
    the code compares), [P95Ms <= 1000], error and I/O-error responses
    together at most a quarter of the requests, and at least 100 queries
    per second, [Total] is at least 95. *)
Theorem CalculateScore_total_at_least_95 (metrics : BenchmarkMetrics) :
  (TotalRequests metrics > 0)%Z ->
  TotalSuccessResponses metrics = TotalRequests metrics ->
  meanMs metrics < LatencyRangeMin ->
  (P95Ms (LatencyStats metrics) <= 1000)%Z ->
  (4 * add64 (TotalErrorResponses metrics) (TotalIOErrors metrics)
     <= TotalRequests metrics)%Z ->
  100 <= QueriesPerSecond metrics ->
  95 <= Total (CalculateScore metrics).
Proof.
  intros Ht Hs Hm Hp He Hq.
  rewrite CalculateScore_nonzero by lia. cbn [Total].
  rewrite weighted_total.
  rewrite successRateScore_all, latencyScore_fast, qpsScore_full
    by assumption.
  pose proof (errorRateScore_quarter metrics Ht He).
  lra.
Qed.

Lemma CalculateScore_total_at_least_95_witness :
  95 <= Total (CalculateScore fast_metrics).
Proof.
  apply (CalculateScore_total_at_least_95 fast_metrics).
  - reflexivity.
  - reflexivity.
  - rewrite (meanMs_eval fast_metrics 0) by reflexivity.
    unfold LatencyRangeMin. lra.
  - cbn. lia.
  - vm_compute. discriminate.
  - cbn. lra.
Defined.

(** The bound is reached: with exactly a quarter of the requests counted
    as errors the total is 95. *)
Example total_exactly_95 :
  Total (CalculateScore
           (mkBenchmarkMetrics 8 8 2 0 100 (mkLatencyMetrics 0 0 0 0)))
  = 95.
Proof.
  rewrite CalculateScore_nonzero by discriminate. cbn [Total].
  rewrite weighted_total.
  rewrite successRateScore_all by reflexivity.
  rewrite qpsScore_full by (cbn; lra).
  rewrite latencyScore_fast;
    [| rewrite (meanMs_eval _ 0) by reflexivity;
       unfold LatencyRangeMin; lra
     | discriminate].
  rewrite errorRateScore_eval by (vm_compute; split; discriminate).
  replace (add64 _ _) with 2%Z by reflexivity.
  cbn. lra.
Qed.
End ScoringClaims.

Section RankServersFacts.
Import examples.
Local Open Scope R_scope.

Lemma swap_middle (pre done todo : list ServerRank) (x y : ServerRank) :
  swap (length pre) (length pre + 1 + length done)
       (pre ++ x :: done ++ y :: todo)
  = pre ++ y :: done ++ x :: todo.
Proof.
  unfold swap.
  rewrite list_lookup_middle by reflexivity.
  replace (pre ++ x :: done ++ y :: todo)
    with ((pre ++ x :: done) ++ y :: todo) at 1
    by (rewrite <- app_assoc; reflexivity).
  rewrite list_lookup_middle by (rewrite length_app; cbn; lia).
  replace (length pre) with (length pre + 0)%nat at 2 by lia.
  rewrite insert_app_r. cbn [list_insert insert].
  replace (pre ++ y :: done ++ y :: todo)
    with ((pre ++ y :: done) ++ y :: todo)
    by (rewrite <- app_assoc; reflexivity).
  replace (length pre + 1 + length done)%nat
    with (length (pre ++ y :: done) + 0)%nat
    by (rewrite length_app; cbn; lia).
  rewrite insert_app_r. cbn. rewrite <- app_assoc. reflexivity.
Qed.

Lemma compare_swap_middle (pre done todo : list ServerRank) (x y : ServerRank) :
  compare_swap (length pre) (pre ++ x :: done ++ y :: todo)
               (length pre + 1 + length done)
  = if lt64 (Total (Score x)) (Total (Score y))
    then pre ++ y :: done ++ x :: todo
    else pre ++ x :: done ++ y :: todo.
Proof.
  unfold compare_swap.
  rewrite list_lookup_middle by reflexivity.
  replace (pre ++ x :: done ++ y :: todo)
    with ((pre ++ x :: done) ++ y :: todo) at 1
    by (rewrite <- app_assoc; reflexivity).
  rewrite list_lookup_middle by (rewrite length_app; cbn; lia).
  destruct (lt64 _ _); [apply swap_middle | reflexivity].
Qed.

(** The order of [float64] away from NaN. *)
Ltac float64_cases :=
  cbn; intros;
  repeat match goal with
    | H : context [Rlt_dec ?x ?y] |- _ => destruct (Rlt_dec x y)
    | |- context [Rlt_dec ?x ?y] => destruct (Rlt_dec x y)
    end;
  solve [ congruence | tauto | lra | split; congruence ].

Lemma lt64_le64 (a b : float64) : lt64 a b = true -> le64 a b.
Proof. destruct a, b; float64_cases. Qed.

Lemma not_lt64_le64 (a b : float64) :
  a <> NaN -> b <> NaN -> lt64 a b = false -> le64 b a.
Proof. destruct a, b; float64_cases. Qed.

Lemma le64_not_lt64 (a b : float64) : le64 b a -> lt64 a b = false.
Proof. destruct a, b; float64_cases. Qed.

Lemma le64_trans (a b c : float64) : le64 a b -> le64 b c -> le64 a c.
Proof. destruct a, b, c; float64_cases. Qed.

Lemma le64_ordered (a b : float64) : le64 a b -> a <> NaN /\ b <> NaN.
Proof. destruct a, b; float64_cases. Qed.

(** The inner loop at position [length pre] permutes the part of the
    slice from that position on.  Where no [Total] is NaN and the
    elements already compared ([done]) are ranked no higher than the one
    at that position, the same holds after the pass. *)
Lemma inner_loop_invariant (todo : list ServerRank) :
  forall (pre done : list ServerRank) (x : ServerRank),
    exists x' done',
      foldl (compare_swap (length pre)) (pre ++ x :: done ++ todo)
            (seq (length pre + 1 + length done) (length todo))
      = pre ++ x' :: done'
      /\ x' :: done' ≡ₚ x :: done ++ todo
      /\ (Forall ordered (x :: done ++ todo) ->
          Forall (total_ge x) done ->
          Forall (total_ge x') done').
Proof.
  induction todo as [|y todo IH]; intros pre done x.
  - exists x, done. cbn. rewrite app_nil_r. auto.
  - cbn [length seq foldl]. rewrite compare_swap_middle.
    destruct (lt64 (Total (Score x)) (Total (Score y))) eqn:Hlt.
    + destruct (IH pre (done ++ [x]) y) as (x' & done' & Heq & Hperm & Hall).
      exists x', done'. split; [|split].
      * rewrite <- Heq. rewrite length_app. cbn [length].
        rewrite <- (app_assoc done [x] todo). cbn [app].
        f_equal. f_equal. lia.
      * rewrite Hperm. rewrite <- app_assoc. cbn [app].
        rewrite <- !Permutation_middle. apply perm_swap.
      * intros Hord Hdone. apply Hall.
        { eapply Permutation_Forall; [|exact Hord].
          rewrite <- app_assoc. cbn [app].
          rewrite <- !Permutation_middle. apply perm_swap. }
        apply lt64_le64 in Hlt.
        apply Forall_app. split.
        -- eapply Forall_impl; [exact Hdone|]. unfold total_ge.
           intros d Hd. exact (le64_trans _ _ _ Hd Hlt).
        -- constructor; [exact Hlt | constructor].
    + destruct (IH pre (done ++ [y]) x) as (x' & done' & Heq & Hperm & Hall).
      exists x', done'. split; [|split].
      * rewrite <- Heq. rewrite length_app. cbn [length].
        rewrite <- (app_assoc done [y] todo). cbn [app].
        f_equal. f_equal. lia.
      * rewrite Hperm. rewrite <- app_assoc. reflexivity.
      * intros Hord Hdone. apply Hall.
        { rewrite <- app_assoc. exact Hord. }
        apply Forall_app. split; [exact Hdone|].
        constructor; [|constructor]. unfold total_ge.
        apply Forall_cons in Hord as [Hx Hord].
        apply Forall_app in Hord as [_ Hord].
        apply Forall_cons in Hord as [Hy _].
        apply not_lt64_le64; assumption.
Qed.

(** The outer loop permutes the slice.  Where no [Total] is NaN and the
    part before position [i] is sorted and ranked no lower than the
    rest, the result is sorted. *)
Lemma outer_loop_invariant (n : nat) :
  forall (pre rest : list ServerRank),
    length rest = n ->
    foldl inner_loop (pre ++ rest) (seq (length pre) n) ≡ₚ pre ++ rest
    /\ (Forall ordered rest ->
        StronglySorted total_ge pre ->
        (forall p r, p ∈ pre -> r ∈ rest -> total_ge p r) ->
        StronglySorted total_ge
          (foldl inner_loop (pre ++ rest) (seq (length pre) n))).
Proof.
  induction n as [|n IH]; intros pre rest Hlen.
  - destruct rest; [|discriminate]. cbn. rewrite app_nil_r. auto.
  - destruct rest as [|x todo]; [discriminate|].
    cbn [seq foldl]. cbn in Hlen.
    assert (Hinner : exists x' done',
              inner_loop (pre ++ x :: todo) (length pre) = pre ++ x' :: done'
              /\ x' :: done' ≡ₚ x :: todo
              /\ (Forall ordered (x :: todo) -> Forall (total_ge x') done')).
    { destruct (inner_loop_invariant todo pre [] x)
        as (x' & done' & Heq & Hp & Ha).
      exists x', done'. split; [|split; [exact Hp|]].
      - rewrite <- Heq. unfold inner_loop. cbn [app length].
        rewrite length_app. cbn [length].
        replace (length pre + S (length todo) - S (length pre))%nat
          with (length todo) by lia.
        replace (length pre + 1 + 0)%nat with (S (length pre)) by lia.
        reflexivity.
      - intros Hord. apply Ha; [exact Hord | constructor]. }
    destruct Hinner as (x' & done' & Heq & Hperm & Hall).
    rewrite Heq.
    replace (pre ++ x' :: done') with ((pre ++ [x']) ++ done')
      by (rewrite <- app_assoc; reflexivity).
    replace (S (length pre)) with (length (pre ++ [x']))
      by (rewrite length_app; cbn; lia).
    assert (Hlen' : length done' = n).
    { apply Permutation_length in Hperm. cbn in Hperm. lia. }
    assert (Hx' : x' ∈ x :: todo).
    { rewrite <- Hperm. left. }
    assert (Hdone' : forall r, r ∈ done' -> r ∈ x :: todo).
    { intros r Hr. rewrite <- Hperm. right. exact Hr. }
    destruct (IH (pre ++ [x']) done' Hlen') as [Hp Hs].
    split.
    + rewrite Hp. rewrite <- app_assoc. cbn [app].
      apply Permutation_app_head. exact Hperm.
    + intros Hord Hsorted Hsplit. apply Hs.
      * eapply Forall_cons_1. eapply Permutation_Forall;
          [symmetry; exact Hperm | exact Hord].
      * apply StronglySorted_app_2; [|exact Hsorted|repeat constructor].
        intros p r Hp' Hr. apply list_elem_of_singleton in Hr. subst r.
        apply Hsplit; assumption.
      * intros p r Hp' Hr. apply elem_of_app in Hp'.
        destruct Hp' as [Hp'|Hp'].
        -- apply Hsplit; [exact Hp' | apply Hdone', Hr].
        -- apply list_elem_of_singleton in Hp'. subst p.
           specialize (Hall Hord).
           rewrite Forall_forall in Hall. apply Hall. exact Hr.
Qed.

Lemma sort_rankings_sorts (rankings : list ServerRank) :
  sort_rankings rankings ≡ₚ rankings
  /\ (Forall ordered rankings ->
      StronglySorted total_ge (sort_rankings rankings)).
Proof.
  destruct (outer_loop_invariant (length rankings) [] rankings eq_refl)
    as [Hperm Hsorted].
  split; [exact Hperm|]. intros Hord. apply Hsorted.
  - exact Hord.
  - constructor.
  - intros p r Hp. inversion Hp.
Qed.

Lemma append_rankings_fmap (order : list (string * ScoreResult64)) :
  append_rankings order
  = (fun e => mkServerRank (fst e) (snd e)) <$> order.
Proof.
  unfold append_rankings.
  induction order as [|e order IH] using rev_ind; [reflexivity|].
  rewrite foldl_snoc, IH, fmap_app. reflexivity.
Qed.

Lemma entry_append_rankings (order : list (string * ScoreResult64)) :
  entry <$> append_rankings order = order.
Proof.
  rewrite append_rankings_fmap, <- list_fmap_compose.
  rewrite <- (list_fmap_id order) at 2.
  apply list_fmap_ext. intros i [server score] _. reflexivity.
Qed.

Lemma ordered_append_rankings (order : list (string * ScoreResult64)) :
  Forall (fun e => Total (snd e) <> NaN) order ->
  Forall ordered (append_rankings order).
Proof.
  rewrite append_rankings_fmap. intros Hall. apply Forall_fmap.
  eapply Forall_impl; [exact Hall|]. intros e He. exact He.
Qed.

Lemma map_Forall_order (servers : gmap string ScoreResult64)
    (order : list (string * ScoreResult64)) :
  enumeration servers order ->
  map_Forall (fun _ score => Total score <> NaN) servers ->
  Forall (fun e => Total (snd e) <> NaN) order.
Proof.
  intros Henum Hall. apply Forall_forall. intros [server score] Hin.
  rewrite Henum in Hin. apply elem_of_map_to_list in Hin.
  exact (Hall server score Hin).
Qed.

(** C10, refuted as stated.  A map with a [Total] that is NaN: enumerated
    with that entry first, the loops leave it first, and the result is
    not in non-increasing order of [Total]. *)
Lemma RankServers_NaN_not_sorted :
  enumeration (list_to_map nan_servers) nan_servers
  /\ Server <$> RankServers nan_servers = ["a"; "c"; "b"]
  /\ Total <$> (Score <$> RankServers nan_servers) = [NaN; Num 2; Num 1]
  /\ ~ StronglySorted total_ge (RankServers nan_servers).
Proof.
  assert (Hrank : RankServers nan_servers
                  = [ mkServerRank "a" nan_score;
                      mkServerRank "c" (score_of 2);
                      mkServerRank "b" (score_of 1) ]).
  { unfold RankServers, nan_servers, sort_rankings, inner_loop,
      append_rankings, compare_swap, swap, score_of, nan_score, stored, lt64.
    repeat (cbn -[IZR Rlt_dec];
            match goal with
            | |- context [Rlt_dec ?a ?b] =>
                destruct (Rlt_dec a b); try lra
            end).
    reflexivity. }
  split; [|rewrite Hrank; split; [reflexivity | split; [reflexivity|]]].
  - unfold enumeration. symmetry. apply map_to_list_to_map.
    apply (bool_decide_unpack _). vm_compute. exact I.
  - intros Hsorted. apply StronglySorted_inv in Hsorted as [_ Hfirst].
    apply Forall_cons in Hfirst as [Hfirst _]. exact Hfirst.
Qed.

(** C10, amended.  Whatever the order in which the map is enumerated,
    the result of [RankServers] is a permutation of the entries of the
    map; when no [Total] of the map is NaN, it is sorted in
    non-increasing order of [Total]. *)
Theorem RankServers_sorted_permutation
    (servers : gmap string ScoreResult64)
    (order : list (string * ScoreResult64)) :
  enumeration servers order ->
  entry <$> RankServers order ≡ₚ map_to_list servers
  /\ (map_Forall (fun _ score => Total score <> NaN) servers ->
      StronglySorted total_ge (RankServers order)).
Proof.
  intros Henum. unfold RankServers.
  destruct (sort_rankings_sorts (append_rankings order)) as [Hp Hs].
  split.
  - rewrite Hp, entry_append_rankings. exact Henum.
  - intros Hall. apply Hs, ordered_append_rankings.
    exact (map_Forall_order servers order Henum Hall).
Qed.

(** The ranking of three servers enumerated in increasing order of their
    addresses. *)
Example RankServers_three :
  entry <$> RankServers three_servers =
  [ ("8.8.8.8", score_of 3); ("9.9.9.9", score_of 2);
    ("1.1.1.1", score_of 1) ].
Proof.
  unfold RankServers, three_servers, sort_rankings, inner_loop,
    append_rankings, compare_swap, swap, score_of, stored, lt64.
  repeat (cbn -[IZR Rlt_dec];
          match goal with
          | |- context [Rlt_dec ?a ?b] => destruct (Rlt_dec a b); try lra
          end).
  reflexivity.
Qed.

Lemma three_servers_ordered :
  map_Forall (fun _ score => Total score <> NaN)
    (list_to_map three_servers : gmap string ScoreResult64).
Proof.
  intros server score Hlookup.
  apply elem_of_list_to_map_2 in Hlookup.
  unfold three_servers in Hlookup. rewrite !elem_of_cons in Hlookup.
  destruct Hlookup as [Heq|[Heq|[Heq|Hnil]]];
    [injection Heq as _ ->; discriminate .. | inversion Hnil].
Qed.

Lemma RankServers_sorted_permutation_witness :
  entry <$> RankServers three_servers
    ≡ₚ map_to_list (list_to_map three_servers : gmap string ScoreResult64)
  /\ StronglySorted total_ge (RankServers three_servers).
Proof.
  destruct (RankServers_sorted_permutation
              (list_to_map three_servers) three_servers) as [Hperm Hsorted].
  - unfold enumeration. symmetry. apply map_to_list_to_map.
    apply (bool_decide_unpack _). vm_compute. exact I.
  - split; [exact Hperm | exact (Hsorted three_servers_ordered)].
Defined.
End RankServersFacts.

(* ===================================================================== *)
(** * Further properties of package scoring *)
(* ===================================================================== *)

Section ScoringExtra.
Import examples.
Local Open Scope R_scope.

(** The largest latency score an input can get: the linear score at a
    combined latency of 1 ms, about 99.91. *)
Lemma latency_of_below_100 (m s p : R) :
  m <= 0 \/ 1 <= m ->
  0 <= s ->
  scoring_spec.latency_of m s p
    <= 100 * (1 - (9 / 10) / (1000 - 1 / 10)).
Proof.
  intros Hm Hs.
  assert (Hb : 0 <= (9 / 10) / (1000 - 1 / 10) <= 9 / 9990).
  { split.
    - apply Rmult_le_pos; [lra | apply Rlt_le, Rinv_0_lt_compat; lra].
    - apply (Rmult_le_reg_r (1000 - 1 / 10)); [lra|].
      unfold Rdiv at 1. rewrite Rmult_assoc, Rinv_l by lra. lra. }
  unfold scoring_spec.latency_of.
  assert (Hv : 0 <= (if Rlt_dec m (1 / 10) then 95
     else if Rgt_dec m 1000 then 0
     else Rmax 0 (100 * (1 - (m - 1 / 10) / (1000 - 1 / 10)) - s / m * 5))
     <= 100 * (1 - (9 / 10) / (1000 - 1 / 10))).
  { destruct (Rlt_dec m (1 / 10)) as [|Hlo]; [lra|].
    destruct (Rgt_dec m 1000) as [|Hhi]; [lra|].
    split; [apply Rmax_l|]. apply Rmax_lub; [lra|].
    assert (Hm1 : 1 <= m) by lra.
    assert (0 <= s / m)
      by (apply Rmult_le_pos;
          [lra | apply Rlt_le, Rinv_0_lt_compat; lra]).
    assert ((9 / 10) / (1000 - 1 / 10) <= (m - 1 / 10) / (1000 - 1 / 10)).
    { apply Rmult_le_compat_r;
        [apply Rlt_le, Rinv_0_lt_compat; lra | lra]. }
    lra. }
  destruct (Rgt_dec p 1000); lra.
Qed.

(** X1.  Under the hypotheses that bound the four component scores, the
    total lies between 0 and 100 as well. *)
Theorem CalculateScore_total_range (metrics : BenchmarkMetrics) :
  (TotalRequests metrics > 0)%Z ->
  (0 < TotalSuccessResponses metrics <= TotalRequests metrics)%Z ->
  0 <= QueriesPerSecond metrics ->
  (0 <= StdMs (LatencyStats metrics))%Z ->
  scoring_spec.in_0_100 (Total (CalculateScore metrics)).
Proof.
  intros Ht Hs Hq Hstd.
  rewrite CalculateScore_nonzero by lia. cbn [Total].
  rewrite weighted_total.
  pose proof (successRateScore_range metrics ltac:(lia) ltac:(lia)) as H1.
  pose proof (errorRateScore_range metrics) as H2.
  assert (H3 : scoring_spec.in_0_100 (latencyScore metrics)).
  { rewrite latencyScore_latency_of. apply latency_of_range.
    apply (IZR_le 0). exact Hstd. }
  pose proof (qpsScore_nonneg metrics Hq) as H4.
  pose proof (qpsScore_le_100 metrics) as H5.
  unfold scoring_spec.in_0_100 in *. lra.
Qed.

Lemma CalculateScore_total_range_witness :
  scoring_spec.in_0_100 (Total (CalculateScore sample_metrics)).
Proof.
  apply (CalculateScore_total_range sample_metrics); cbn; try lia; lra.
Defined.

(** X2.  No input with consistent counters and a rate that is not
    negative reaches a perfect score: the combined latency is a whole
    number of milliseconds, so the latency score is 95 or the linear
    score from 1 ms on, which stays below 99.91, and the total stays
    below 100. *)
Theorem CalculateScore_never_perfect (metrics : BenchmarkMetrics) :
  (TotalRequests metrics > 0)%Z ->
  (0 < TotalSuccessResponses metrics <= TotalRequests metrics)%Z ->
  0 <= QueriesPerSecond metrics ->
  (0 <= StdMs (LatencyStats metrics))%Z ->
  Latency (CalculateScore metrics) <= 9991 / 100
  /\ Total (CalculateScore metrics) < 100.
Proof.
  intros Ht Hs Hq Hstd.
  rewrite CalculateScore_nonzero by lia. cbn [Total Latency].
  rewrite weighted_total.
  assert (Hl : latencyScore metrics
               <= 100 * (1 - (9 / 10) / (1000 - 1 / 10))).
  { rewrite latencyScore_latency_of. apply latency_of_below_100.
    - apply meanMs_small_or_ge_1.
    - apply (IZR_le 0). exact Hstd. }
  assert (Hb : 9 / 10000 <= (9 / 10) / (1000 - 1 / 10)).
  { apply (Rmult_le_reg_r (1000 - 1 / 10)); [lra|].
    replace ((9 / 10) / (1000 - 1 / 10) * (1000 - 1 / 10)) with (9 / 10)
      by (field; lra).
    lra. }
  split; [lra|].
  pose proof (successRateScore_range metrics ltac:(lia) ltac:(lia)) as H1.
  pose proof (errorRateScore_range metrics) as H2.
  pose proof (qpsScore_le_100 metrics) as H5.
  unfold scoring_spec.in_0_100 in *. lra.
Qed.

Lemma CalculateScore_never_perfect_witness :
  Latency (CalculateScore fast_metrics) <= 9991 / 100
  /\ Total (CalculateScore fast_metrics) < 100.
Proof.
  apply (CalculateScore_never_perfect fast_metrics); cbn; try lia; lra.
Defined.

(** X3.  An input whose halved latency sum is 0 ms gets the latency
    score 95, which is below the score of every steady input (standard
    deviation 0) with a combined latency from 1 ms to 50 ms. *)
Theorem CalculateScore_fastest_ranked_lower (fast slow : BenchmarkMetrics) :
  (TotalSuccessResponses fast > 0)%Z ->
  (TotalSuccessResponses slow > 0)%Z ->
  meanMs fast < LatencyRangeMin ->
  1 <= meanMs slow <= 50 ->
  StdMs (LatencyStats slow) = 0%Z ->
  (P95Ms (LatencyStats fast) <= 1000)%Z ->
  (P95Ms (LatencyStats slow) <= 1000)%Z ->
  Latency (CalculateScore fast) = 95
  /\ Latency (CalculateScore fast) < Latency (CalculateScore slow).
Proof.
  intros Hsf Hss Hf [Hlo Hhi] Hstd Hpf Hps.
  rewrite !CalculateScore_nonzero by lia. cbn [Latency].
  rewrite (latencyScore_fast fast Hf Hpf).
  split; [reflexivity|].
  rewrite latencyScore_latency_of. unfold scoring_spec.latency_of.
  rewrite Hstd. set (m := meanMs slow) in *.
  destruct (Rlt_dec m (1 / 10)); [lra|].
  destruct (Rgt_dec m 1000); [lra|].
  destruct (Rgt_dec (IZR (P95Ms (LatencyStats slow))) 1000) as [Hp|_];
    [apply (lt_IZR 1000) in Hp; lia|].
  eapply Rlt_le_trans; [|apply Rmax_r].
  assert ((m - 1 / 10) / (1000 - 1 / 10) <= 499 / 9999).
  { apply (Rmult_le_reg_r (1000 - 1 / 10)); [lra|].
    unfold Rdiv at 1. rewrite Rmult_assoc, Rinv_l by lra. lra. }
  replace (0 / m) with 0 by (unfold Rdiv; ring).
  lra.
Qed.

Lemma CalculateScore_fastest_ranked_lower_witness :
  Latency (CalculateScore fast_metrics) = 95
  /\ Latency (CalculateScore fast_metrics)
     < Latency (CalculateScore
                  (mkBenchmarkMetrics 10 10 0 0 100
                     (mkLatencyMetrics 20 0 21 60))).
Proof.
  apply CalculateScore_fastest_ranked_lower.
  - reflexivity.
  - reflexivity.
  - rewrite (meanMs_eval fast_metrics 0) by reflexivity.
    unfold LatencyRangeMin. lra.
  - rewrite (meanMs_eval _ 20) by reflexivity. lra.
  - reflexivity.
  - cbn. lia.
  - cbn. lia.
Defined.

(** X4.  A larger standard deviation never raises the latency score:
    for two inputs that agree on mean, median and 95th percentile, the
    one with the larger [StdMs] has the smaller or equal [Latency]. *)
Theorem CalculateScore_latency_antitone_std (a b : BenchmarkMetrics) :
  (TotalSuccessResponses a > 0)%Z ->
  (TotalSuccessResponses b > 0)%Z ->
  MeanMs (LatencyStats a) = MeanMs (LatencyStats b) ->
  P50Ms (LatencyStats a) = P50Ms (LatencyStats b) ->
  P95Ms (LatencyStats a) = P95Ms (LatencyStats b) ->
  (StdMs (LatencyStats a) <= StdMs (LatencyStats b))%Z ->
  Latency (CalculateScore b) <= Latency (CalculateScore a).
Proof.
  intros Ha Hb Hmean Hp50 Hp95 Hstd.
  rewrite !CalculateScore_nonzero by lia. cbn [Latency].
  rewrite !latencyScore_latency_of.
  assert (Hm : meanMs a = meanMs b)
    by (unfold meanMs; rewrite Hmean, Hp50; reflexivity).
  rewrite Hm, Hp95. apply IZR_le in Hstd.
  set (m := meanMs b). set (p := IZR (P95Ms (LatencyStats b))).
  unfold scoring_spec.latency_of.
  assert (Hv :
    0 <= (if Rlt_dec m (1 / 10) then 95
     else if Rgt_dec m 1000 then 0
     else Rmax 0 (100 * (1 - (m - 1 / 10) / (1000 - 1 / 10))
                  - IZR (StdMs (LatencyStats b)) / m * 5))
    <= (if Rlt_dec m (1 / 10) then 95
     else if Rgt_dec m 1000 then 0
     else Rmax 0 (100 * (1 - (m - 1 / 10) / (1000 - 1 / 10))
                  - IZR (StdMs (LatencyStats a)) / m * 5))).
  { destruct (Rlt_dec m (1 / 10)); [lra|].
    destruct (Rgt_dec m 1000); [lra|].
    split; [apply Rmax_l|].
    apply Rmax_lub; [apply Rmax_l|].
    eapply Rle_trans; [|apply Rmax_r].
    assert (IZR (StdMs (LatencyStats a)) / m
            <= IZR (StdMs (LatencyStats b)) / m).
    { apply Rmult_le_compat_r;
        [apply Rlt_le, Rinv_0_lt_compat; lra | exact Hstd]. }
    lra. }
  destruct (Rgt_dec p 1000); lra.
Qed.

Lemma CalculateScore_latency_antitone_std_witness :
  Latency (CalculateScore
             (mkBenchmarkMetrics 10 9 1 0 50 (mkLatencyMetrics 20 9 21 60)))
  <= Latency (CalculateScore sample_metrics).
Proof.
  apply CalculateScore_latency_antitone_std;
    try reflexivity; cbn; lia.
Defined.

(** X5.  The throughput score does not decrease when the rate grows,
    and it is 100 from 100 queries per second on. *)
Theorem CalculateScore_qps_monotone (a b : BenchmarkMetrics) :
  (TotalSuccessResponses a > 0)%Z ->
  (TotalSuccessResponses b > 0)%Z ->
  0 <= QueriesPerSecond a <= QueriesPerSecond b ->
  QPS (CalculateScore a) <= QPS (CalculateScore b)
  /\ (100 <= QueriesPerSecond a ->
      QPS (CalculateScore a) = 100 /\ QPS (CalculateScore b) = 100).
Proof.
  intros Ha Hb [Hq0 Hq].
  rewrite !CalculateScore_nonzero by lia. cbn [QPS].
  pose proof ln_101_pos as Hpos.
  assert (Hinv : 0 < / ln (1 + MaxQPS)) by (apply Rinv_0_lt_compat, Hpos).
  split.
  - unfold qpsScore. apply Rle_min_compat_l.
    unfold Rdiv. apply Rmult_le_compat_r; [lra|].
    apply Rmult_le_compat_l; [lra|]. apply ln_le_mono; lra.
  - intros Hfull. split; apply qpsScore_full; lra.
Qed.

Lemma CalculateScore_qps_monotone_witness :
  QPS (CalculateScore slow_median_metrics)
    <= QPS (CalculateScore fast_metrics)
  /\ QPS (CalculateScore slow_median_metrics) = 100
  /\ QPS (CalculateScore fast_metrics) = 100.
Proof.
  destruct (CalculateScore_qps_monotone slow_median_metrics fast_metrics)
    as [Hmono Hfull]; [reflexivity | reflexivity | cbn; lra |].
  split; [exact Hmono|]. apply Hfull. cbn. lra.
Defined.
End ScoringExtra.

Section RankServersExtra.
Import examples.
Local Open Scope R_scope.

(** With the element at position [length pre] ranked no lower than the
    rest, a pass of the inner loop swaps nothing. *)
Lemma inner_loop_no_swap (todo : list ServerRank) :
  forall (pre done : list ServerRank) (x : ServerRank),
    Forall (total_ge x) todo ->
    foldl (compare_swap (length pre)) (pre ++ x :: done ++ todo)
          (seq (length pre + 1 + length done) (length todo))
    = pre ++ x :: done ++ todo.
Proof.
  induction todo as [|y todo IH]; intros pre done x Hall; [reflexivity|].
  apply Forall_cons in Hall as [Hy Hall].
  cbn [length seq foldl]. rewrite compare_swap_middle.
  rewrite (le64_not_lt64 _ _ Hy).
  specialize (IH pre (done ++ [y]) x Hall).
  rewrite length_app in IH. cbn [length] in IH.
  rewrite <- (app_assoc done [y] todo) in IH. cbn [app] in IH.
  replace (S (length pre + 1 + length done))
    with (length pre + 1 + (length done + 1))%nat by lia.
  exact IH.
Qed.

Lemma outer_loop_sorted (rest : list ServerRank) :
  forall pre : list ServerRank,
    StronglySorted total_ge rest ->
    foldl inner_loop (pre ++ rest) (seq (length pre) (length rest))
    = pre ++ rest.
Proof.
  induction rest as [|x rest IH]; intros pre Hsorted; [reflexivity|].
  apply StronglySorted_inv in Hsorted as [Hrest Hx].
  cbn [length seq foldl].
  assert (Hinner : inner_loop (pre ++ x :: rest) (length pre)
                   = pre ++ x :: rest).
  { pose proof (inner_loop_no_swap rest pre [] x Hx) as Hi.
    cbn [app length] in Hi. unfold inner_loop.
    rewrite length_app. cbn [length].
    replace (length pre + S (length rest) - S (length pre))%nat
      with (length rest) by lia.
    replace (S (length pre)) with (length pre + 1 + 0)%nat by lia.
    exact Hi. }
  rewrite Hinner.
  specialize (IH (pre ++ [x]) Hrest).
  rewrite length_app in IH. cbn [length] in IH.
  rewrite <- app_assoc in IH. cbn [app] in IH.
  replace (S (length pre)) with (length pre + 1)%nat by lia.
  exact IH.
Qed.

(** X7.  A list that is already in non-increasing order of [Total] comes
    out of the sorting loops unchanged. *)
Theorem sort_rankings_sorted (rankings : list ServerRank) :
  StronglySorted total_ge rankings ->
  sort_rankings rankings = rankings.
Proof.
  intros Hsorted. exact (outer_loop_sorted rankings [] Hsorted).
Qed.

Lemma sort_rankings_sorted_witness :
  sort_rankings (RankServers three_servers) = RankServers three_servers.
Proof.
  apply sort_rankings_sorted.
  apply (sort_rankings_sorts (append_rankings three_servers)).
  apply ordered_append_rankings.
  repeat constructor; discriminate.
Defined.

Lemma sort_rankings_idempotent (rankings : list ServerRank) :
  Forall ordered rankings ->
  sort_rankings (sort_rankings rankings) = sort_rankings rankings.
Proof.
  intros Hord. apply (outer_loop_sorted (sort_rankings rankings) []).
  apply sort_rankings_sorts. exact Hord.
Qed.

(** The ranking is an arrangement of the entries of the map, sorted
    when no [Total] is NaN. *)
Lemma RankServers_perm_entries
    (servers : gmap string ScoreResult64)
    (order : list (string * ScoreResult64)) :
  enumeration servers order ->
  entry <$> RankServers order ≡ₚ map_to_list servers
  /\ (map_Forall (fun _ score => Total score <> NaN) servers ->
      StronglySorted total_ge (RankServers order)).
Proof.
  intros Henum. unfold RankServers.
  destruct (sort_rankings_sorts (append_rankings order)) as [Hp Hs].
  split.
  - rewrite Hp, entry_append_rankings. exact Henum.
  - intros Hall. apply Hs, ordered_append_rankings.
    exact (map_Forall_order servers order Henum Hall).
Qed.

Lemma Server_entry (rankings : list ServerRank) :
  Server <$> rankings = (entry <$> rankings).*1.
Proof.
  rewrite <- list_fmap_compose. apply list_fmap_ext.
  intros i r _. reflexivity.
Qed.

(** X8.  Every server of the map is ranked exactly once: the result has
    one entry per key, no server twice, and a server is in the ranking
    with the score the map gives it. *)
Theorem RankServers_each_server_once
    (servers : gmap string ScoreResult64)
    (order : list (string * ScoreResult64)) :
  enumeration servers order ->
  length (RankServers order) = size servers
  /\ NoDup (Server <$> RankServers order)
  /\ forall server score,
       mkServerRank server score ∈ RankServers order
       <-> servers !! server = Some score.
Proof.
  intros Henum.
  destruct (RankServers_perm_entries servers order Henum) as [Hperm _].
  split; [|split].
  - rewrite <- (length_fmap entry), Hperm, length_map_to_list.
    reflexivity.
  - rewrite Server_entry, Hperm. apply NoDup_fst_map_to_list.
  - intros server score. rewrite <- elem_of_map_to_list, <- Hperm.
    rewrite list_elem_of_fmap. split.
    + intros Hin. exists (mkServerRank server score). auto.
    + intros ([s c] & Heq & Hin). injection Heq as -> ->. exact Hin.
Qed.

Lemma RankServers_each_server_once_witness :
  length (RankServers three_servers)
    = size (list_to_map three_servers : gmap string ScoreResult64)
  /\ NoDup (Server <$> RankServers three_servers)
  /\ forall server score,
       mkServerRank server score ∈ RankServers three_servers
       <-> (list_to_map three_servers : gmap string ScoreResult64) !! server
           = Some score.
Proof.
  apply (RankServers_each_server_once
           (list_to_map three_servers) three_servers).
  unfold enumeration. symmetry. apply map_to_list_to_map.
  apply (bool_decide_unpack _). vm_compute. exact I.
Defined.

(** X9.  When no [Total] of the map is NaN, the first entry of the
    ranking has the highest [Total] of the map. *)
Theorem RankServers_best_first
    (servers : gmap string ScoreResult64)
    (order : list (string * ScoreResult64))
    (best : ServerRank) (others : list ServerRank) :
  enumeration servers order ->
  map_Forall (fun _ score => Total score <> NaN) servers ->
  RankServers order = best :: others ->
  forall server score,
    servers !! server = Some score ->
    le64 (Total score) (Total (Score best)).
Proof.
  intros Henum Hnum Hrank server score Hlookup.
  destruct (RankServers_perm_entries servers order Henum) as [Hperm Hsorted].
  specialize (Hsorted Hnum). pose proof (Hnum server score Hlookup) as Hs.
  rewrite Hrank in Hperm, Hsorted.
  apply elem_of_map_to_list in Hlookup. rewrite <- Hperm in Hlookup.
  apply list_elem_of_fmap in Hlookup as (r & Hr & Hin).
  apply StronglySorted_inv in Hsorted as [_ Hbest].
  apply elem_of_cons in Hin as [->|Hin].
  - injection Hr as _ ->. apply not_lt64_le64; try exact Hs.
    destruct (Total (Score best)); try reflexivity.
    cbn. destruct (Rlt_dec x x); [lra | reflexivity].
  - rewrite Forall_forall in Hbest. specialize (Hbest r Hin).
    unfold total_ge in Hbest. destruct r as [s c]. cbn in *.
    injection Hr as _ ->. exact Hbest.
Qed.

Lemma RankServers_best_first_witness :
  le64 (Total (score_of 2))
       (Total (Score (mkServerRank "8.8.8.8" (score_of 3)))).
Proof.
  refine (RankServers_best_first (list_to_map three_servers) three_servers
            (mkServerRank "8.8.8.8" (score_of 3))
            [mkServerRank "9.9.9.9" (score_of 2);
             mkServerRank "1.1.1.1" (score_of 1)] _ _ _
            "9.9.9.9" (score_of 2) _).
  - unfold enumeration. symmetry. apply map_to_list_to_map.
    apply (bool_decide_unpack _). vm_compute. exact I.
  - exact three_servers_ordered.
  - unfold RankServers, three_servers, sort_rankings, inner_loop,
      append_rankings, compare_swap, swap, score_of, stored, lt64.
    repeat (cbn -[IZR Rlt_dec];
            match goal with
            | |- context [Rlt_dec ?a ?b] =>
                destruct (Rlt_dec a b); try lra
            end).
    reflexivity.
  - vm_compute. reflexivity.
Defined.
End RankServersExtra.

(* ===================================================================== *)
(** * Properties of packages geo and cmd *)
(* ===================================================================== *)

Section GeocodeFacts.
Context `{geo.Lookup}.

Lemma checkIPGeo_cases (g : geo.GeoService) (ip : geo.IP) (code : string) :
  geo.checkIPGeo g ip = (code, None) ->
  code = "CDN" \/
  (code <> "" /\ exists r, geo.db g = Some r /\ geo.Country r ip = inr code).
Proof.
  unfold geo.checkIPGeo. destruct (geo.db g) as [r|]; [|discriminate].
  destruct (geo.Country r ip) as [err|iso] eqn:Hc; [discriminate|].
  destruct (String.eqb_spec iso "") as [->|Hne]; intros [= <-].
  - left. reflexivity.
  - right. split; [exact Hne|]. exists r. auto.
Qed.

(** The codes [CheckGeo] returns together with a nil error. *)
Lemma CheckGeo_cases (g : geo.GeoService) (server : string)
    (preferIPv4 : bool) (addr code : string) :
  geo.CheckGeo g server preferIPv4 = (addr, code, None) ->
  code = "PRIVATE" \/ code = "CDN" \/
  (code <> "" /\ exists r ip, geo.Country r ip = inr code).
Proof.
  unfold geo.CheckGeo.
  destruct (geo.db g) as [r0|] eqn:Hdb; [|discriminate].
  destruct (String.eqb _ ""); [discriminate|].
  destruct (geo.resolve _ preferIPv4) as [err|ip]; [discriminate|].
  destruct (geo.IsPrivate ip || geo.IsUnspecified ip).
  - intros [= _ <-]. left. reflexivity.
  - destruct (geo.checkIPGeo g ip) as [geoCode err] eqn:Hc.
    intros [= _ -> ->]. right.
    destruct (checkIPGeo_cases g ip code Hc) as [->|[Hne [r [_ Hr]]]].
    + left. reflexivity.
    + right. split; [exact Hne|]. exists r, ip. exact Hr.
Qed.

(** [getServerGeocode] returns one of its three literals or a country
    code that the database gave, which is not empty. *)
Lemma getServerGeocode_cases (server : string) :
  cmd.getServerGeocode server = "XX" \/
  cmd.getServerGeocode server = "PRIVATE" \/
  cmd.getServerGeocode server = "CDN" \/
  (cmd.getServerGeocode server <> "" /\
   exists r ip, geo.Country r ip = inr (cmd.getServerGeocode server)).
Proof.
  unfold cmd.getServerGeocode.
  destruct geo.NewGeoService as [err|g]; [left; reflexivity|].
  destruct (geo.CheckGeo g server true) as [[addr code] [err|]] eqn:Hc;
    [left; reflexivity|].
  right. exact (CheckGeo_cases g server true addr code Hc).
Qed.

(** The service that [NewGeoService] returns has a database. *)
Lemma NewGeoService_db (g : geo.GeoService) :
  geo.NewGeoService = inr g -> geo.db g <> None.
Proof.
  unfold geo.NewGeoService, geo.dbPaths. cbn [geo.open_first].
  repeat (destruct (geo.Open _)); intros Heq;
    try discriminate Heq; injection Heq as <-; discriminate.
Qed.

(** C9, amended.  Provided the country database holds country codes (an
    [IsoCode] is empty or has two capital letters), [getServerGeocode]
    returns a two-letter code or one of "XX", "PRIVATE" and "CDN", and
    never "UNKNOWN": whatever loading the database, resolving the host
    and looking the address up give. *)
Theorem getServerGeocode_allowed :
  cmd_spec.iso_codes ->
  forall server,
    cmd_spec.geocode_allowed (cmd.getServerGeocode server)
    /\ cmd.getServerGeocode server <> "UNKNOWN".
Proof.
  intros Hiso server.
  assert (Hallowed : cmd_spec.geocode_allowed (cmd.getServerGeocode server)).
  { destruct (getServerGeocode_cases server)
      as [Hc|[Hc|[Hc|[Hne (r & ip & Hc)]]]];
      unfold cmd_spec.geocode_allowed; auto.
    destruct (Hiso r ip _ Hc) as [He|Ha]; [contradiction | auto]. }
  split; [exact Hallowed|].
  intros Heq. rewrite Heq in Hallowed.
  destruct Hallowed as [Ha|[Ha|[Ha|Ha]]]; discriminate.
Qed.
End GeocodeFacts.

Section GeocodeExamples.
Import examples.

Example getServerGeocode_us :
  @cmd.getServerGeocode us_lookup "https://dns.google/dns-query" = "US".
Proof. reflexivity. Qed.

Example url_host_examples :
  geo.url_host "https://dns.google:443/dns-query" = "dns.google" /\
  geo.url_host "quic://[2606:4700::1111]:853" = "2606:4700::1111" /\
  geo.plain_host "8.8.8.8:53" = "8.8.8.8" /\
  geo.plain_host "8.8.8.8:0" = "8.8.8.8:0".
Proof. repeat split; reflexivity. Qed.

(** C9, refuted as stated.  [checkIPGeo] returns the [IsoCode] of the
    record as it is (line 138): with a database whose record carries
    the code [UNKNOWN], [getServerGeocode] returns [UNKNOWN], which is
    not among the values allowed. *)
Lemma getServerGeocode_unvalidated :
  @cmd.getServerGeocode unvalidated_lookup "8.8.8.8" = "UNKNOWN"
  /\ ~ cmd_spec.geocode_allowed
        (@cmd.getServerGeocode unvalidated_lookup "8.8.8.8").
Proof.
  split; [reflexivity|].
  intros [Ha|[Ha|[Ha|Ha]]]; discriminate Ha.
Qed.

Lemma getServerGeocode_allowed_witness :
  cmd_spec.geocode_allowed (@cmd.getServerGeocode us_lookup "8.8.8.8:53")
  /\ @cmd.getServerGeocode us_lookup "8.8.8.8:53" <> "UNKNOWN".
Proof.
  apply (@getServerGeocode_allowed us_lookup).
  intros r ip code [= <-]. right. reflexivity.
Defined.
End GeocodeExamples.

Section ExitStatusFacts.
Context `{geo.Lookup} `{cmd.World}.

(** The [switch] exits for [f] exactly when [f] is one of the four
    conditions and the counter it watches is positive. *)
Lemma fail_case_matched (stats : cmd.Counters) (f : string) :
  cmd.fail_case stats f = true <-> cmd_spec.matched stats f.
Proof.
  unfold cmd.fail_case, cmd_spec.matched, cmd_spec.watched,
    cmd.ioerrorFailCondition, cmd.negativeFailCondition,
    cmd.errorFailCondition, cmd.idmismatchFailCondition.
  repeat (destruct (String.eqb f _);
    [ rewrite Z.gtb_lt; split;
      [ intros Hc; eexists; split; [reflexivity | exact Hc]
      | intros (c & [= <-] & Hc); exact Hc ] | ]).
  split; [discriminate | intros (c & Hc & _); discriminate].
Qed.

Lemma fail_loop_exits (stats : cmd.Counters)
    (failConditions : list string) :
  Exists (cmd_spec.matched stats) failConditions ->
  cmd.fail_loop stats failConditions = Some 1%Z.
Proof.
  induction 1 as [f rest Hm | f rest _ IH]; cbn.
  - apply fail_case_matched in Hm. rewrite Hm. reflexivity.
  - destruct (cmd.fail_case stats f); [reflexivity | exact IH].
Qed.

Lemma fail_loop_falls_through (stats : cmd.Counters)
    (failConditions : list string) :
  ~ Exists (cmd_spec.matched stats) failConditions ->
  cmd.fail_loop stats failConditions = None.
Proof.
  induction failConditions as [|f rest IH]; intros Hno; cbn;
    [reflexivity|].
  destruct (cmd.fail_case stats f) eqn:Hf.
  - exfalso. apply Hno. left. apply fail_case_matched. exact Hf.
  - apply IH. intros Hex. apply Hno. right. exact Hex.
Qed.

(** C8.  After a single-server run that completes and whose report is
    printed, the process exits with status 1 if some condition given
    with [--fail] has a positive aggregate counter, and with status 0 if
    none has. *)
Theorem Execute_fail_exit_status
    (benchmark : cmd.Benchmark cmd.Others) (failConditions : list string)
    (res : cmd.Results) (report : string) :
  cmd.BatchJSON benchmark = "" ->
  cmd.Run benchmark = inr res ->
  cmd.PrintReport benchmark res
    (cmd.getServerGeocode (cmd.Server benchmark)) = inr report ->
  (Exists (cmd_spec.matched (cmd.Merge benchmark res)) failConditions ->
   cmd.exit_status (cmd.Execute benchmark failConditions) = 1%Z)
  /\
  (~ Exists (cmd_spec.matched (cmd.Merge benchmark res)) failConditions ->
   cmd.exit_status (cmd.Execute benchmark failConditions) = 0%Z).
Proof.
  intros Hsingle Hrun Hreport. unfold cmd.Execute.
  rewrite Hsingle, Hrun, Hreport. cbn [String.length Nat.ltb Nat.leb].
  split; intros Hm.
  - destruct failConditions as [|f rest]; [inversion Hm|].
    cbn [length Nat.ltb Nat.leb].
    rewrite (fail_loop_exits _ _ Hm). reflexivity.
  - destruct failConditions as [|f rest]; [reflexivity|].
    cbn [length Nat.ltb Nat.leb].
    rewrite (fail_loop_falls_through _ _ Hm). reflexivity.
Qed.

(** A run that does not start, or a report that cannot be printed, ends
    the process with status 1. *)
Lemma Execute_run_error (benchmark : cmd.Benchmark cmd.Others)
    (failConditions : list string) (err : geo.error) :
  cmd.BatchJSON benchmark = "" ->
  cmd.Run benchmark = inl err ->
  cmd.exit_status (cmd.Execute benchmark failConditions) = 1%Z.
Proof.
  intros Hsingle Hrun. unfold cmd.Execute. rewrite Hsingle, Hrun.
  reflexivity.
Qed.
End ExitStatusFacts.

Section ExitStatusExamples.
Import examples.

(** The merged counters of [echo_world] show 2 I/O errors and no error
    response. *)
Lemma Execute_fail_exit_status_witness :
  cmd.exit_status
    (@cmd.Execute us_lookup echo_world default_benchmark
       ["error"; "ioerror"]) = 1%Z
  /\ cmd.exit_status
       (@cmd.Execute us_lookup echo_world default_benchmark ["error"]) = 0%Z.
Proof.
  split.
  - apply (proj1 (@Execute_fail_exit_status us_lookup echo_world
                    default_benchmark ["error"; "ioerror"] "127.0.0.1"
                    "127.0.0.1" eq_refl eq_refl eq_refl)).
    right. left. exists 2%Z. split; reflexivity.
  - apply (proj2 (@Execute_fail_exit_status us_lookup echo_world
                    default_benchmark ["error"] "127.0.0.1"
                    "127.0.0.1" eq_refl eq_refl eq_refl)).
    intros Hex. inversion Hex as [f rest (c & Hc & Hpos) | f rest Hrest];
      subst.
    + injection Hc as <-. discriminate Hpos.
    + inversion Hrest.
Defined.
End ExitStatusExamples.

Section ConfigFacts.
Import examples.

(** C7, refuted as stated.  In a batch run started with the default
    flags [JSON] and [Silent] are off; the configuration of a sub-run has
    both on, so it differs from the base configuration in more than
    [Server]. *)
Lemma serverBenchmark_changes_JSON_Silent :
  cmd.JSON (batch_benchmark "8.8.8.8,1.1.1.1") = false /\
  cmd.JSON (cmd.serverBenchmark (batch_benchmark "8.8.8.8,1.1.1.1")
              "8.8.8.8") = true /\
  cmd.Silent (batch_benchmark "8.8.8.8,1.1.1.1") = false /\
  cmd.Silent (cmd.serverBenchmark (batch_benchmark "8.8.8.8,1.1.1.1")
                "8.8.8.8") = true /\
  ~ cmd_spec.same_but_Server (batch_benchmark "8.8.8.8,1.1.1.1")
      (cmd.serverBenchmark (batch_benchmark "8.8.8.8,1.1.1.1") "8.8.8.8").
Proof.
  repeat split. unfold cmd_spec.same_but_Server. intros Heq.
  apply (f_equal cmd.JSON) in Heq. discriminate Heq.
Qed.

(** C7, amended.  The configuration of a sub-run is a copy of the base
    configuration with [Server] set to the server, [JSON] set to true and
    [Silent] set to true; every other field is unchanged. *)
Theorem serverBenchmark_frame {Others : Type}
    (benchmark : cmd.Benchmark Others) (server : string) :
  cmd.Server (cmd.serverBenchmark benchmark server) = server /\
  cmd.JSON (cmd.serverBenchmark benchmark server) = true /\
  cmd.Silent (cmd.serverBenchmark benchmark server) = true /\
  cmd_spec.same_but_Server_JSON_Silent benchmark
    (cmd.serverBenchmark benchmark server).
Proof.
  repeat split. destruct benchmark. reflexivity.
Qed.

(** The sub-run of a server is [Run] on that configuration: when it
    fails, the iteration logs the error and stores nothing. *)
Lemma batch_step_run_error `{geo.Lookup} `{cmd.World}
    (benchmark : cmd.Benchmark cmd.Others) (st : cmd.BatchState)
    (server : string) (err : geo.error) :
  strings.TrimSpace server <> "" ->
  cmd.Run (cmd.serverBenchmark benchmark (strings.TrimSpace server))
    = inl err ->
  cmd.batch_step benchmark st server =
  cmd.log (cmd.ErrorTesting (strings.TrimSpace server) err)
    (cmd.log (cmd.Testing (strings.TrimSpace server)) st).
Proof.
  intros Hne Hrun. unfold cmd.batch_step.
  destruct (String.eqb_spec (strings.TrimSpace server) "");
    [contradiction|].
  rewrite Hrun. reflexivity.
Qed.

(** While [generateJSONForServer] prints the report, [Writer] points to
    its buffer and [Silent] is off; the two assignments that restore
    them (lines 819-820) give the configuration back. *)
Lemma generateJSONForServer_restores {Others : Type}
    (bench : cmd.Benchmark Others) :
  cmd.set_Silent (cmd.Silent bench)
    (cmd.set_Writer (cmd.Writer bench)
       (cmd.set_Silent false (cmd.set_Writer cmd.bytes_Buffer bench)))
  = bench.
Proof. destruct bench. reflexivity. Qed.
End ConfigFacts.


Section SplitFacts.
Import strings.

Lemma Split_nonempty (s : string) (sep : ascii) : Split s sep <> [].
Proof.
  induction s as [|c s IH]; cbn; [discriminate|].
  destruct (Ascii.eqb c sep); [discriminate|].
  destruct (Split s sep); [contradiction | discriminate].
Qed.

Lemma Split_free (sep : ascii) (e : string) :
  free_of sep e = true -> Split e sep = [e].
Proof.
  induction e as [|c e IH]; cbn; [reflexivity|].
  intros Hf. apply andb_prop in Hf as [Hc He].
  apply negb_true_iff in Hc. rewrite Hc, (IH He). reflexivity.
Qed.

Lemma Split_app_sep (sep : ascii) (e rest : string) :
  free_of sep e = true ->
  Split (e +:+ String sep rest) sep = e :: Split rest sep.
Proof.
  induction e as [|c e IH]; cbn -[Split]; intros Hf.
  - change ("" +:+ String sep rest) with (String sep rest).
    cbn [Split]. rewrite Ascii.eqb_refl. reflexivity.
  - apply andb_prop in Hf as [Hc He]. apply negb_true_iff in Hc.
    change (String c e +:+ String sep rest)
      with (String c (e +:+ String sep rest)).
    cbn [Split]. rewrite Hc, (IH He). reflexivity.
Qed.

Lemma Split_Join (sep : ascii) (elems : list string) :
  elems <> [] ->
  Forall (fun e => free_of sep e = true) elems ->
  Split (Join elems sep) sep = elems.
Proof.
  induction elems as [|e elems IH]; [contradiction|].
  intros _ Hf. apply Forall_cons in Hf as [He Hf].
  destruct elems as [|e' elems].
  - cbn. apply Split_free. exact He.
  - change (Join (e :: e' :: elems) sep)
      with (e +:+ String sep (Join (e' :: elems) sep)).
    rewrite Split_app_sep by exact He.
    rewrite IH; [reflexivity | discriminate | exact Hf].
Qed.
End SplitFacts.

Section BatchFacts.
Context `{geo.Lookup} `{cmd.World}.
Variable benchmark : cmd.Benchmark cmd.Others.

(** What one iteration does to [batchResults]. *)
Lemma batch_step_results (st : cmd.BatchState) (server : string) :
  cmd.batchResults (cmd.batch_step benchmark st server) =
  if String.eqb (strings.TrimSpace server) "" then cmd.batchResults st
  else match cmd.sub_result benchmark (strings.TrimSpace server) with
       | Some result =>
           <[strings.TrimSpace server := result]> (cmd.batchResults st)
       | None => cmd.batchResults st
       end.
Proof.
  unfold cmd.batch_step, cmd.sub_result.
  destruct (String.eqb _ ""); [reflexivity|].
  destruct (cmd.Run _) as [err|res]; [reflexivity|].
  destruct (cmd.generateJSONForServer _ res _) as [err|data];
    [reflexivity|].
  destruct (cmd.Unmarshal data) as [err|m]; [reflexivity|].
  destruct (m !! _) as [v|]; [reflexivity|].
  destruct (cmd.range_first m); reflexivity.
Qed.

(** A server whose run fails leaves [batchResults] as it was. *)
Lemma batch_step_skips (st : cmd.BatchState) (server : string) :
  cmd.sub_result benchmark (strings.TrimSpace server) = None ->
  cmd.batchResults (cmd.batch_step benchmark st server)
  = cmd.batchResults st.
Proof.
  intros Hnone. rewrite batch_step_results, Hnone.
  destruct (String.eqb _ ""); reflexivity.
Qed.

Lemma batch_loop_lookup (servers : list string) :
  Forall (cmd_spec.served benchmark) servers ->
  forall (st : cmd.BatchState) (key : string),
    cmd.batchResults (foldl (cmd.batch_step benchmark) st servers) !! key =
    if decide (key ∈ servers) then cmd.sub_result benchmark key
    else cmd.batchResults st !! key.
Proof.
  induction 1 as [|server servers Hs _ IH]; intros st key; cbn [foldl].
  - rewrite decide_False by apply not_elem_of_nil. reflexivity.
  - rewrite IH. destruct Hs as (Hne & Htrim & _ & [v Hv]).
    destruct (decide (key ∈ servers)) as [Hin|Hnin].
    + rewrite decide_True by (right; exact Hin). reflexivity.
    + rewrite batch_step_results. rewrite Htrim.
      destruct (String.eqb_spec server ""); [contradiction|].
      rewrite Hv.
      destruct (decide (key = server)) as [->|Hk].
      * rewrite decide_True by left. rewrite lookup_insert_eq.
        symmetry. exact Hv.
      * rewrite decide_False
          by (intros Hin; apply elem_of_cons in Hin as [|]; contradiction).
        apply lookup_insert_ne. congruence.
Qed.

Lemma batch_results_lookup (servers : list string) (key : string) :
  servers <> [] ->
  Forall (cmd_spec.served benchmark) servers ->
  cmd.batchResults
    (foldl (cmd.batch_step benchmark)
       (cmd.mkBatchState ∅
          [cmd.Starting
             (length (strings.Split (strings.Join servers ",") ","))])
       (strings.Split (strings.Join servers ",") ",")) !! key =
  if decide (key ∈ servers) then cmd.sub_result benchmark key else None.
Proof.
  intros Hne Hs.
  rewrite Split_Join; [| exact Hne |].
  - rewrite batch_loop_lookup by exact Hs. cbn [cmd.batchResults].
    rewrite lookup_empty. reflexivity.
  - eapply Forall_impl; [exact Hs|]. intros s (_ & _ & Hf & _). exact Hf.
Qed.

(** A string that is valid UTF-8 is written as it is. *)
Lemma json_string_valid (s : string) :
  utf8.ValidString s = true -> cmd.json_string s = s.
Proof.
  unfold utf8.ValidString, cmd.json_string. generalize 0.
  induction s as [|c s IH]; intros skip Hvalid; [reflexivity|].
  cbn [utf8.valid_from cmd.json_string_from] in *.
  destruct skip as [|k]; [|rewrite (IH k Hvalid); reflexivity].
  destruct (utf8.rune_size (String c s)) as [n|]; [|discriminate].
  rewrite (IH _ Hvalid). reflexivity.
Qed.

(** The members that [json.MarshalIndent] writes are the entries of the
    map with their keys written as JSON strings, by increasing key of
    the map. *)
Lemma MarshalIndent_members {V : Type} (m : gmap string V) :
  exists members,
    members ≡ₚ map_to_list m
    /\ StronglySorted String.le members.*1
    /\ cmd.MarshalIndent m
       = (fun member => (cmd.json_string (fst member), snd member))
         <$> members.
Proof.
  exists (merge_sort cmd.key_le (map_to_list m)).
  split; [apply merge_sort_Permutation|]. split; [|reflexivity].
  apply (StronglySorted_fmap fst cmd.key_le); [auto|].
  apply StronglySorted_merge_sort.
  - intros a b c Hab Hbc. unfold cmd.key_le in *. etrans; eassumption.
  - intros a b. unfold cmd.key_le. apply total, _.
Qed.

(** When the keys of the map are valid UTF-8, the members written are
    the entries of the map, by increasing key. *)
Lemma MarshalIndent_sorted {V : Type} (m : gmap string V) :
  (forall key, is_Some (m !! key) -> utf8.ValidString key = true) ->
  cmd.MarshalIndent m ≡ₚ map_to_list m
  /\ StronglySorted String.le (cmd.MarshalIndent m).*1.
Proof.
  intros Hvalid.
  destruct (MarshalIndent_members m) as (members & Hperm & Hsorted & ->).
  assert (Hid : (fun member : string * V =>
                   (cmd.json_string (fst member), snd member)) <$> members
                = members).
  { rewrite <- (list_fmap_id members) at 2.
    apply list_fmap_ext. intros i [key v] Hi. cbn.
    rewrite json_string_valid; [reflexivity|].
    apply Hvalid. exists v. apply elem_of_map_to_list.
    rewrite <- Hperm. eapply list_elem_of_lookup_2. exact Hi. }
  rewrite Hid. auto.
Qed.

(** C6, amended.  For a list of distinct server strings, each valid
    UTF-8, none empty, none with white space at either end or with a
    comma, and each with a sub-run that stores a result, the object
    written on standard output has exactly those strings as its keys,
    each with the result object of its server; the keys stand in
    increasing byte order, which [encoding/json] gives the keys of a
    map, not in the order of the list. *)
Theorem runBatchBenchmark_keys (servers : list string) :
  servers <> [] ->
  NoDup servers ->
  Forall (fun server => utf8.ValidString server = true) servers ->
  Forall (cmd_spec.served benchmark) servers ->
  (cmd.stdout
     (cmd.runBatchBenchmark benchmark (strings.Join servers ","))).*1
    ≡ₚ servers
  /\ StronglySorted String.le
       (cmd.stdout
          (cmd.runBatchBenchmark benchmark (strings.Join servers ","))).*1
  /\ forall server result,
       (server, result)
         ∈ cmd.stdout
             (cmd.runBatchBenchmark benchmark (strings.Join servers ","))
       <-> server ∈ servers
           /\ cmd.sub_result benchmark server = Some result.
Proof.
  intros Hne Hnodup Hutf8 Hs.
  unfold cmd.runBatchBenchmark. cbn [cmd.stdout].
  set (final := cmd.batchResults _).
  assert (Hlookup : forall key, final !! key =
            if decide (key ∈ servers) then cmd.sub_result benchmark key
            else None).
  { intros key. apply batch_results_lookup; assumption. }
  assert (Hin : forall server result,
            (server, result) ∈ map_to_list final <->
            server ∈ servers
            /\ cmd.sub_result benchmark server = Some result).
  { intros server result. rewrite elem_of_map_to_list, Hlookup.
    destruct (decide (server ∈ servers)); [tauto|].
    split; [discriminate | tauto]. }
  destruct (MarshalIndent_sorted final) as [Hperm Hsorted].
  { intros key [v Hv]. rewrite Hlookup in Hv.
    destruct (decide (key ∈ servers)) as [Hkey|]; [|discriminate].
    rewrite Forall_forall in Hutf8. exact (Hutf8 key Hkey). }
  split; [|split].
  - rewrite Hperm.
    apply NoDup_Permutation;
      [apply NoDup_fst_map_to_list | exact Hnodup |].
    intros key. rewrite list_elem_of_fmap. split.
    + intros ([k v] & -> & Hkv). apply Hin in Hkv. tauto.
    + intros Hkey. rewrite Forall_forall in Hs.
      destruct (Hs key Hkey) as (_ & _ & _ & [v Hv]).
      exists (key, v). split; [reflexivity|]. apply Hin. auto.
  - exact Hsorted.
  - intros server result. rewrite Hperm. apply Hin.
Qed.
End BatchFacts.

Section BatchExamples.
Import examples.

(** C6, refuted as stated.  For the list "8.8.8.8,1.1.1.1" with both
    sub-runs succeeding, the keys are written as 1.1.1.1, 8.8.8.8: not in
    the order of the list.  A server whose run fails has no key, and a
    server string with a leading blank is stored under the trimmed
    string. *)
Lemma runBatchBenchmark_order_lost :
  (strings.Join ["8.8.8.8"; "1.1.1.1"] "," = "8.8.8.8,1.1.1.1" /\
   (cmd.stdout
      (@cmd.runBatchBenchmark us_lookup echo_world
         (batch_benchmark "8.8.8.8,1.1.1.1") "8.8.8.8,1.1.1.1")).*1
     = ["1.1.1.1"; "8.8.8.8"] /\
   (cmd.stdout
      (@cmd.runBatchBenchmark us_lookup echo_world
         (batch_benchmark "8.8.8.8,1.1.1.1") "8.8.8.8,1.1.1.1")).*1
     <> ["8.8.8.8"; "1.1.1.1"]) /\
  (cmd.stdout
     (@cmd.runBatchBenchmark us_lookup dead_world
        (batch_benchmark "8.8.8.8") "8.8.8.8")).*1 = [] /\
  (cmd.stdout
     (@cmd.runBatchBenchmark us_lookup echo_world
        (batch_benchmark " 8.8.8.8") " 8.8.8.8")).*1 = ["8.8.8.8"].
Proof.
  split; [split; [reflexivity|]|].
  - assert (Hkeys :
      (cmd.stdout
         (@cmd.runBatchBenchmark us_lookup echo_world
            (batch_benchmark "8.8.8.8,1.1.1.1") "8.8.8.8,1.1.1.1")).*1
      = ["1.1.1.1"; "8.8.8.8"]) by (vm_compute; reflexivity).
    split; [exact Hkeys|]. rewrite Hkeys. discriminate.
  - split; vm_compute; reflexivity.
Qed.

(** The whole output of that batch, and the exit of the process. *)
Example runBatchBenchmark_output :
  @cmd.runBatchBenchmark us_lookup echo_world
    (batch_benchmark "8.8.8.8, ,1.1.1.1")
    (cmd.BatchJSON (batch_benchmark "8.8.8.8, ,1.1.1.1")) =
  @cmd.mkBatchOutput echo_world
    [ ("1.1.1.1", "result of 1.1.1.1"); ("8.8.8.8", "result of 8.8.8.8") ]
    [ cmd.Starting 3; cmd.Testing "8.8.8.8"; cmd.Completed "8.8.8.8";
      cmd.Testing "1.1.1.1"; cmd.Completed "1.1.1.1" ]
  /\ cmd.exit_status
       (@cmd.Execute us_lookup echo_world
          (batch_benchmark "8.8.8.8, ,1.1.1.1") ["ioerror"]) = 0%Z.
Proof. split; vm_compute; reflexivity. Qed.

Lemma runBatchBenchmark_keys_witness :
  (cmd.stdout
     (@cmd.runBatchBenchmark us_lookup echo_world
        (batch_benchmark "8.8.8.8,1.1.1.1")
        (strings.Join ["8.8.8.8"; "1.1.1.1"] ","))).*1
    ≡ₚ ["8.8.8.8"; "1.1.1.1"]
  /\ StronglySorted String.le
       (cmd.stdout
          (@cmd.runBatchBenchmark us_lookup echo_world
             (batch_benchmark "8.8.8.8,1.1.1.1")
             (strings.Join ["8.8.8.8"; "1.1.1.1"] ","))).*1
  /\ forall server result,
       (server, result)
         ∈ cmd.stdout
             (@cmd.runBatchBenchmark us_lookup echo_world
                (batch_benchmark "8.8.8.8,1.1.1.1")
                (strings.Join ["8.8.8.8"; "1.1.1.1"] ","))
       <-> server ∈ ["8.8.8.8"; "1.1.1.1"]
           /\ @cmd.sub_result us_lookup echo_world
                (batch_benchmark "8.8.8.8,1.1.1.1") server
              = Some result.
Proof.
  apply (@runBatchBenchmark_keys us_lookup echo_world
           (batch_benchmark "8.8.8.8,1.1.1.1") ["8.8.8.8"; "1.1.1.1"]).
  - discriminate.
  - apply (bool_decide_unpack _). vm_compute. exact I.
  - repeat constructor.
  - repeat constructor; try discriminate; vm_compute; eauto.
Defined.
End BatchExamples.

(* ===================================================================== *)
(** * Facts about the string functions *)
(* ===================================================================== *)

Section StringFacts.
Import strings.

Lemma append_cons (a : ascii) (s t : string) :
  String a s +:+ t = String a (s +:+ t).
Proof. reflexivity. Qed.

Lemma append_nil_l (t : string) : "" +:+ t = t.
Proof. reflexivity. Qed.

Lemma append_nil_r (s : string) : s +:+ "" = s.
Proof.
  induction s as [|a s IH]; [reflexivity|].
  rewrite append_cons, IH. reflexivity.
Qed.

Lemma append_assoc (s t u : string) : (s +:+ t) +:+ u = s +:+ (t +:+ u).
Proof.
  induction s as [|a s IH]; [reflexivity|].
  rewrite !append_cons, IH. reflexivity.
Qed.

Lemma length_append (s t : string) :
  String.length (s +:+ t) = String.length s + String.length t.
Proof.
  induction s as [|a s IH]; [reflexivity|].
  rewrite append_cons. cbn. rewrite IH. reflexivity.
Qed.

Lemma substring_full (t : string) : substring 0 (String.length t) t = t.
Proof.
  induction t as [|a t IH]; [reflexivity|]. cbn. rewrite IH. reflexivity.
Qed.

Lemma substring_append_l (s t : string) :
  substring 0 (String.length s) (s +:+ t) = s.
Proof.
  induction s as [|a s IH].
  - cbn. destruct t; reflexivity.
  - rewrite append_cons. cbn. rewrite IH. reflexivity.
Qed.

Lemma substring_append_r (s t : string) (k n : nat) :
  substring (String.length s + k) n (s +:+ t) = substring k n t.
Proof.
  induction s as [|a s IH]; [reflexivity|].
  rewrite append_cons. cbn. exact IH.
Qed.

Lemma substring_drop (s t : string) :
  substring (String.length s)
            (String.length (s +:+ t) - String.length s) (s +:+ t) = t.
Proof.
  rewrite length_append.
  replace (String.length s + String.length t - String.length s)
    with (String.length t) by lia.
  rewrite <- (Nat.add_0_r (String.length s)) at 1.
  rewrite substring_append_r. apply substring_full.
Qed.

Lemma prefix_nil (s : string) : String.prefix "" s = true.
Proof. destruct s; reflexivity. Qed.

Lemma prefix_append (p x : string) : String.prefix p (p +:+ x) = true.
Proof.
  induction p as [|a p IH]; [apply prefix_nil|].
  rewrite append_cons. cbn. destruct (Ascii.ascii_dec a a); [exact IH|].
  contradiction.
Qed.

Lemma prefix_length (p s : string) :
  String.prefix p s = true -> String.length p <= String.length s.
Proof.
  revert s. induction p as [|a p IH]; intros s Hp; cbn; [lia|].
  destruct s as [|b s]; [discriminate|]. cbn in Hp.
  destruct (Ascii.ascii_dec a b); [|discriminate].
  apply IH in Hp. cbn. lia.
Qed.

Lemma prefix_split (p s : string) :
  String.prefix p s = true -> exists x, s = p +:+ x.
Proof.
  revert s. induction p as [|a p IH]; intros s Hp.
  - exists s. reflexivity.
  - destruct s as [|b s]; [discriminate|]. cbn in Hp.
    destruct (Ascii.ascii_dec a b) as [->|]; [|discriminate].
    destruct (IH s Hp) as [x ->]. exists x. reflexivity.
Qed.

(** A prefix that holds the byte [c] is no prefix of a string that is
    free of it. *)
Lemma prefix_free_of (c : ascii) (p s : string) :
  free_of c p = false -> free_of c s = true -> String.prefix p s = false.
Proof.
  intros Hp Hs. destruct (String.prefix p s) eqn:Hpre; [|reflexivity].
  apply prefix_split in Hpre as [x ->].
  assert (Hfree : forall a b, free_of c (a +:+ b) = true ->
                              free_of c a = true).
  { induction a as [|d a IH]; intros b Hab; [reflexivity|].
    rewrite append_cons in Hab. cbn in *.
    apply andb_prop in Hab as [Hd Hab]. rewrite Hd. exact (IH b Hab). }
  rewrite (Hfree p x Hs) in Hp. discriminate.
Qed.

Lemma free_of_append (c : ascii) (a b : string) :
  free_of c (a +:+ b) = free_of c a && free_of c b.
Proof.
  induction a as [|d a IH]; [reflexivity|].
  rewrite append_cons. cbn. rewrite IH, andb_assoc. reflexivity.
Qed.

Lemma TrimPrefix_append (p x : string) : TrimPrefix (p +:+ x) p = x.
Proof.
  unfold TrimPrefix, HasPrefix. rewrite prefix_append.
  apply substring_drop.
Qed.

Lemma TrimPrefix_other (p s : string) :
  String.prefix p s = false -> TrimPrefix s p = s.
Proof. intros Hp. unfold TrimPrefix, HasPrefix. rewrite Hp. reflexivity. Qed.

Lemma rev_app_append (s acc : string) :
  String.rev_app s acc = String.rev s +:+ acc.
Proof.
  unfold String.rev. revert acc.
  induction s as [|a s IH]; intros acc; [reflexivity|].
  cbn. rewrite IH, (IH (String a "")), append_assoc. reflexivity.
Qed.

Lemma rev_append (s t : string) :
  String.rev (s +:+ t) = String.rev t +:+ String.rev s.
Proof.
  induction s as [|a s IH].
  - rewrite append_nil_l, append_nil_r. reflexivity.
  - rewrite append_cons. unfold String.rev at 1 3. cbn.
    rewrite !rev_app_append, IH, append_assoc. reflexivity.
Qed.

Lemma HasSuffix_append (s suffix : string) :
  HasSuffix (s +:+ suffix) suffix = true.
Proof. unfold HasSuffix. rewrite rev_append. apply prefix_append. Qed.

Lemma TrimSuffix_append (s suffix : string) :
  TrimSuffix (s +:+ suffix) suffix = s.
Proof.
  unfold TrimSuffix. rewrite HasSuffix_append, length_append.
  replace (String.length s + String.length suffix - String.length suffix)
    with (String.length s) by lia.
  apply substring_append_l.
Qed.

(** The first [c] of a string that starts with a part free of [c]. *)
Lemma Index_found (c : ascii) (h rest : string) :
  free_of c h = true ->
  Index (h +:+ String c rest) (String c "") = Some (String.length h).
Proof.
  unfold Index. induction h as [|a h IH]; intros Hf.
  - rewrite append_nil_l. cbn.
    destruct (Ascii.ascii_dec c c); [|contradiction].
    rewrite prefix_nil. reflexivity.
  - cbn in Hf. apply andb_prop in Hf as [Ha Hf].
    apply negb_true_iff, Ascii.eqb_neq in Ha.
    rewrite append_cons. cbn.
    destruct (Ascii.ascii_dec c a) as [->|_]; [contradiction|].
    cbn in IH. rewrite (IH Hf). reflexivity.
Qed.

Lemma Index_free (c : ascii) (h : string) :
  free_of c h = true -> Index h (String c "") = None.
Proof.
  unfold Index. induction h as [|a h IH]; intros Hf; [reflexivity|].
  cbn in Hf. apply andb_prop in Hf as [Ha Hf].
  apply negb_true_iff, Ascii.eqb_neq in Ha. cbn.
  destruct (Ascii.ascii_dec c a) as [->|_]; [contradiction|].
  cbn in IH. rewrite (IH Hf). reflexivity.
Qed.

Lemma SplitN2_found (c : ascii) (h rest : string) :
  free_of c h = true ->
  SplitN2 (h +:+ String c rest) (String c "") = [h; rest].
Proof.
  intros Hf. unfold SplitN2. rewrite (Index_found c h rest Hf).
  rewrite substring_append_l. f_equal. f_equal.
  change (String c rest) with (String c "" +:+ rest).
  rewrite <- append_assoc.
  replace (String.length h + String.length (String c ""))
    with (String.length (h +:+ String c "")) by apply length_append.
  apply substring_drop.
Qed.

Lemma SplitN2_free (c : ascii) (h : string) :
  free_of c h = true -> SplitN2 h (String c "") = [h].
Proof. intros Hf. unfold SplitN2. rewrite Index_free by exact Hf. reflexivity. Qed.

Lemma Contains_free (c : ascii) (h : string) :
  free_of c h = true -> Contains h (String c "") = false.
Proof. intros Hf. unfold Contains. rewrite Index_free by exact Hf. reflexivity. Qed.

Lemma Contains_found (c : ascii) (h rest : string) :
  free_of c h = true -> Contains (h +:+ String c rest) (String c "") = true.
Proof. intros Hf. unfold Contains. rewrite Index_found by exact Hf. reflexivity. Qed.
End StringFacts.

(* ===================================================================== *)
(** * Further properties of package geo *)
(* ===================================================================== *)

Section HostFacts.
Import strings shapes.

(** A scheme word followed by "://" is no prefix of a host followed by
    a path or a port. *)
Lemma no_scheme (w h rest : string) :
  free_of ":" w = true -> free_of "/" w = true ->
  free_of ":" h = true -> free_of "/" h = true ->
  after_host rest ->
  String.prefix (w +:+ "://") (h +:+ rest) = false.
Proof.
  intros Hw1 Hw2 Hh1 Hh2 Hrest.
  destruct (String.prefix (w +:+ "://") (h +:+ rest)) eqn:Hp;
    [exfalso | reflexivity].
  apply prefix_split in Hp as [y Hy]. rewrite append_assoc in Hy.
  destruct Hrest as [|path|d port tail Hd _ Hport _ _].
  - rewrite append_nil_r in Hy.
    assert (Hf : free_of ":" (w +:+ ("://" +:+ y)) = true)
      by (rewrite <- Hy; exact Hh1).
    rewrite free_of_append in Hf. apply andb_prop in Hf as [_ Hf].
    discriminate Hf.
  - assert (Hs : SplitN2 (h +:+ String "/" path) "/" = [h; path])
      by (apply SplitN2_found; exact Hh2).
    rewrite Hy in Hs.
    change (w +:+ ("://" +:+ y))
      with (w +:+ (":" +:+ String "/" ("/" +:+ y))) in Hs.
    rewrite <- append_assoc in Hs.
    rewrite SplitN2_found in Hs
      by (rewrite free_of_append, Hw2; reflexivity).
    injection Hs as Hs _.
    assert (Hf : free_of ":" (w +:+ ":") = true)
      by (rewrite Hs; exact Hh1).
    rewrite free_of_append in Hf. apply andb_prop in Hf as [_ Hf].
    discriminate Hf.
  - assert (Hs : SplitN2 (h +:+ String ":" (String d port +:+ tail)) ":"
                 = [h; String d port +:+ tail])
      by (apply SplitN2_found; exact Hh1).
    rewrite Hy in Hs.
    change (w +:+ ("://" +:+ y)) with (w +:+ String ":" ("//" +:+ y)) in Hs.
    rewrite SplitN2_found in Hs by exact Hw1.
    injection Hs; intros; congruence.
Qed.

(** The four [TrimPrefix] calls remove the scheme and nothing more. *)
Lemma trim_schemes (scheme h rest : string) :
  scheme ∈ schemes ->
  free_of ":" h = true -> free_of "/" h = true ->
  after_host rest ->
  TrimPrefix
    (TrimPrefix
       (TrimPrefix (TrimPrefix (scheme +:+ (h +:+ rest)) "https://")
          "tls://") "quic://") "http://"
  = h +:+ rest.
Proof.
  intros Hscheme Hh1 Hh2 Hrest.
  assert (Hno : forall w, free_of ":" w = true -> free_of "/" w = true ->
                  TrimPrefix (h +:+ rest) (w +:+ "://") = h +:+ rest).
  { intros w Hw1 Hw2. apply TrimPrefix_other.
    apply no_scheme; assumption. }
  pose proof (Hno "https" eq_refl eq_refl) as H1.
  pose proof (Hno "tls" eq_refl eq_refl) as H2.
  pose proof (Hno "quic" eq_refl eq_refl) as H3.
  pose proof (Hno "http" eq_refl eq_refl) as H4.
  change ("https" +:+ "://") with "https://" in H1.
  change ("tls" +:+ "://") with "tls://" in H2.
  change ("quic" +:+ "://") with "quic://" in H3.
  change ("http" +:+ "://") with "http://" in H4.
  unfold schemes in Hscheme.
  repeat (apply elem_of_cons in Hscheme as [->|Hscheme]);
    [| | | | inversion Hscheme].
  - rewrite TrimPrefix_append, H2, H3, H4. reflexivity.
  - rewrite (TrimPrefix_other "https://") by reflexivity.
    rewrite TrimPrefix_append, H3, H4. reflexivity.
  - rewrite (TrimPrefix_other "https://") by reflexivity.
    rewrite (TrimPrefix_other "tls://") by reflexivity.
    rewrite TrimPrefix_append, H4. reflexivity.
  - rewrite (TrimPrefix_other "https://") by reflexivity.
    rewrite (TrimPrefix_other "tls://") by reflexivity.
    rewrite (TrimPrefix_other "quic://") by reflexivity.
    rewrite TrimPrefix_append. reflexivity.
Qed.

(** For a URL made of one of the schemes "https://", "tls://",
    "quic://" and "http://", a host name or IPv4 literal, and then
    nothing, a path, a port, or a port and a path, lines 60-78 leave the
    host. *)
Lemma url_host_host (scheme h rest : string) :
  scheme ∈ schemes ->
  plain_name h ->
  after_host rest ->
  geo.url_host (scheme +:+ (h +:+ rest)) = h.
Proof.
  intros Hscheme (Hh1 & Hh2 & Hh3) Hrest. unfold geo.url_host.
  rewrite trim_schemes by assumption.
  destruct Hrest as [|path|d port tail Hd1 Hd2 Hp1 Hp2 Htail].
  - rewrite append_nil_r.
    rewrite (Contains_free "/") by exact Hh2.
    rewrite (Contains_free "[") by exact Hh3.
    rewrite (Contains_free ":") by exact Hh1. reflexivity.
  - rewrite (Contains_found "/") by exact Hh2.
    rewrite (SplitN2_found "/") by exact Hh2. cbn [hd].
    rewrite (Contains_free "[") by exact Hh3.
    rewrite (Contains_free ":") by exact Hh1. reflexivity.
  - assert (Hport1 : free_of "/" (String d port) = true).
    { cbn. rewrite Hp1. apply Ascii.eqb_neq in Hd1. rewrite Hd1.
      reflexivity. }
    assert (Hport2 : free_of "[" (String d port) = true).
    { cbn. rewrite Hp2. apply Ascii.eqb_neq in Hd2. rewrite Hd2.
      reflexivity. }
    assert (Hcut :
      (if Contains (h +:+ String ":" (String d port +:+ tail)) "/"
       then hd (h +:+ String ":" (String d port +:+ tail))
               (SplitN2 (h +:+ String ":" (String d port +:+ tail)) "/")
       else h +:+ String ":" (String d port +:+ tail))
      = h +:+ String ":" (String d port)).
    { destruct Htail as [->|[path ->]].
      - rewrite append_nil_r.
        rewrite (Contains_free "/"); [reflexivity|].
        rewrite free_of_append, Hh2. cbn [free_of Ascii.eqb]. cbn.
        cbn in Hport1. exact Hport1.
      - change (h +:+ String ":" (String d port +:+ String "/" path))
          with (h +:+ (String ":" (String d port) +:+ String "/" path)).
        rewrite <- append_assoc.
        assert (Hfree : free_of "/" (h +:+ String ":" (String d port))
                        = true).
        { rewrite free_of_append, Hh2. cbn. cbn in Hport1. exact Hport1. }
        rewrite (Contains_found "/") by exact Hfree.
        rewrite (SplitN2_found "/") by exact Hfree. reflexivity. }
    rewrite Hcut.
    rewrite (Contains_free "[");
      [| rewrite free_of_append, Hh3; cbn; cbn in Hport2; exact Hport2].
    cbn [andb].
    rewrite (Contains_found ":") by exact Hh1.
    rewrite (SplitN2_found ":") by exact Hh1. reflexivity.
Qed.

Example url_host_host_example :
  geo.url_host ("https://" +:+ ("dns.google" +:+ ":443/dns-query"))
  = "dns.google".
Proof.
  apply url_host_host.
  - left.
  - repeat split; reflexivity.
  - apply (after_port "4" "43" "/dns-query");
      [discriminate | discriminate | reflexivity | reflexivity |].
    right. exists "dns-query". reflexivity.
Defined.

(** X11.  For a bracketed IPv6 literal after the scheme, with or without
    a port and a path, the name that [CheckGeo] resolves is the literal
    without its brackets. *)
Theorem url_host_ipv6 (scheme v6 port tail : string) :
  scheme ∈ schemes ->
  free_of "/" v6 = true -> free_of "]" v6 = true ->
  free_of "[" v6 = true ->
  free_of "/" port = true ->
  tail = "" \/ (exists path, tail = String "/" path) ->
  geo.url_host (scheme +:+ (String "[" v6 +:+ String "]" (port +:+ tail)))
  = v6.
Proof.
  intros Hscheme Hv1 Hv2 Hv3 Hport Htail. unfold geo.url_host.
  set (x := String "[" v6 +:+ String "]" (port +:+ tail)).
  assert (Htrim :
    TrimPrefix
      (TrimPrefix (TrimPrefix (TrimPrefix (scheme +:+ x) "https://")
         "tls://") "quic://") "http://" = x).
  { unfold schemes in Hscheme.
    repeat (apply elem_of_cons in Hscheme as [->|Hscheme]);
      [| | | | inversion Hscheme].
    - rewrite TrimPrefix_append.
      rewrite !(TrimPrefix_other _ x) by reflexivity. reflexivity.
    - rewrite (TrimPrefix_other "https://") by reflexivity.
      rewrite TrimPrefix_append.
      rewrite !(TrimPrefix_other _ x) by reflexivity. reflexivity.
    - rewrite (TrimPrefix_other "https://") by reflexivity.
      rewrite (TrimPrefix_other "tls://") by reflexivity.
      rewrite TrimPrefix_append.
      rewrite !(TrimPrefix_other _ x) by reflexivity. reflexivity.
    - rewrite (TrimPrefix_other "https://") by reflexivity.
      rewrite (TrimPrefix_other "tls://") by reflexivity.
      rewrite (TrimPrefix_other "quic://") by reflexivity.
      rewrite TrimPrefix_append. reflexivity. }
  rewrite Htrim.
  assert (Hb1 : free_of "]" (String "[" v6) = true) by (cbn; exact Hv2).
  assert (Hhead : free_of "/" (String "[" v6 +:+ String "]" port) = true).
  { rewrite free_of_append. cbn. rewrite Hv1, Hport. reflexivity. }
  assert (Hcut :
    (if Contains x "/" then hd x (SplitN2 x "/") else x)
    = String "[" v6 +:+ String "]" port).
  { unfold x. destruct Htail as [->|[path ->]].
    - rewrite append_nil_r.
      rewrite (Contains_free "/") by exact Hhead. reflexivity.
    - change (String "[" v6 +:+ String "]" (port +:+ String "/" path))
        with (String "[" v6 +:+ (String "]" port +:+ String "/" path)).
      rewrite <- append_assoc.
      rewrite (Contains_found "/") by exact Hhead.
      rewrite (SplitN2_found "/") by exact Hhead. reflexivity. }
  rewrite Hcut.
  assert (Hopen : Contains (String "[" v6 +:+ String "]" port) "[" = true).
  { change (String "[" v6 +:+ String "]" port)
      with ("" +:+ String "[" (v6 +:+ String "]" port)).
    apply (Contains_found "["). reflexivity. }
  rewrite Hopen.
  rewrite (Contains_found "]") by exact Hb1. cbn [andb].
  rewrite (SplitN2_found "]") by exact Hb1. cbn [hd].
  change (String "[" v6) with ("[" +:+ v6).
  apply TrimPrefix_append.
Qed.

Lemma url_host_ipv6_witness :
  geo.url_host
    ("quic://" +:+ (String "[" "2606:4700::1111"
                    +:+ String "]" (":853" +:+ "")))
  = "2606:4700::1111".
Proof.
  apply url_host_ipv6; try reflexivity; [| left; reflexivity].
  right. right. left.
Defined.

(** Lines 103-108 cut a string of the form host:port to the host when
    the port is a decimal number from 1 to 65535, and leave a string
    without a colon, or with anything else after its first colon, as it
    stands. *)
Lemma plain_host_port (h port : string) :
  free_of ":" h = true ->
  geo.plain_host h = h
  /\ geo.plain_host (h +:+ String ":" port)
     = match strconv.Atoi port with
       | Some n =>
           if ((0 <? n) && (n <? 65536))%Z then h
           else h +:+ String ":" port
       | None => h +:+ String ":" port
       end.
Proof.
  intros Hh. unfold geo.plain_host. split.
  - rewrite (SplitN2_free ":") by exact Hh. reflexivity.
  - rewrite (SplitN2_found ":") by exact Hh. reflexivity.
Qed.

Example plain_host_port_example :
  geo.plain_host "8.8.8.8" = "8.8.8.8"
  /\ geo.plain_host ("8.8.8.8" +:+ String ":" "53")
     = match strconv.Atoi "53" with
       | Some n =>
           if ((0 <? n) && (n <? 65536))%Z then "8.8.8.8"
           else "8.8.8.8" +:+ String ":" "53"
       | None => "8.8.8.8" +:+ String ":" "53"
       end.
Proof. apply plain_host_port. reflexivity. Defined.
End HostFacts.

Section ServiceFacts.
Context `{geo.Lookup}.

(** The loop of [NewGeoService] stops at the first path that opens. *)
Lemma open_first_found (pre post : list string) (path : string)
    (r : geo.Reader) (db : option geo.Reader) (err : option geo.error) :
  Forall (fun q => exists e, geo.Open q = inl e) pre ->
  geo.Open path = inr r ->
  geo.open_first (pre ++ path :: post) db err = (Some r, None).
Proof.
  intros Hpre Hopen. revert db err.
  induction Hpre as [|q pre [e He] _ IH]; intros db err; cbn.
  - rewrite Hopen. reflexivity.
  - rewrite He. apply IH.
Qed.

(** When no path opens, the loop ends with the error of the last one. *)
Lemma open_first_none (paths : list string) (last : string)
    (e : geo.error) (db : option geo.Reader) (err : option geo.error) :
  Forall (fun q => exists e, geo.Open q = inl e) paths ->
  geo.Open last = inl e ->
  geo.open_first (paths ++ [last]) db err = (None, Some e).
Proof.
  intros Hpaths Hlast. revert db err.
  induction Hpaths as [|q paths [e' He'] _ IH]; intros db err; cbn.
  - rewrite Hlast. reflexivity.
  - rewrite He'. apply IH.
Qed.

(** X13.  [NewGeoService] takes the database from the first of its four
    paths that opens, whatever the later paths hold. *)
Theorem NewGeoService_first_path (pre post : list string) (path : string)
    (r : geo.Reader) :
  geo.dbPaths = pre ++ path :: post ->
  (forall q, q ∈ pre -> exists e, geo.Open q = inl e) ->
  geo.Open path = inr r ->
  geo.NewGeoService = inr (geo.mkGeoService _ (Some r)).
Proof.
  intros Hpaths Hpre Hopen. unfold geo.NewGeoService. rewrite Hpaths.
  rewrite (open_first_found pre post path r); [reflexivity | | exact Hopen].
  apply Forall_forall. exact Hpre.
Qed.

(** X14.  [NewGeoService] fails exactly when none of its four paths
    opens, and its message then ends with the error of the last path,
    "./Country.mmdb". *)
Theorem NewGeoService_fails :
  (forall q, q ∈ geo.dbPaths -> exists e, geo.Open q = inl e)
  <-> (exists e,
         geo.Open "./Country.mmdb" = inl e /\
         geo.NewGeoService
         = inl ("GeoIP service not available - database not found: "
                +:+ e)).
Proof.
  split.
  - intros Hall.
    destruct (Hall "./Country.mmdb") as [e He];
      [unfold geo.dbPaths; repeat constructor|].
    exists e. split; [exact He|]. unfold geo.NewGeoService.
    change geo.dbPaths
      with ([ "res/Country.mmdb"; "../res/Country.mmdb";
              "frontend/res/Country.mmdb" ] ++ ["./Country.mmdb"]).
    rewrite (open_first_none _ _ e); [reflexivity | | exact He].
    apply Forall_forall. intros q Hq. apply Hall.
    change geo.dbPaths
      with ([ "res/Country.mmdb"; "../res/Country.mmdb";
              "frontend/res/Country.mmdb" ] ++ ["./Country.mmdb"]).
    apply elem_of_app. left. exact Hq.
  - intros (e & _ & Hnew) q Hq. revert Hnew.
    unfold geo.NewGeoService, geo.dbPaths in *. cbn [geo.open_first].
    repeat (apply elem_of_cons in Hq as [->|Hq]);
      [| | | | inversion Hq];
      repeat (match goal with
              | |- context [geo.Open ?p] =>
                  let e' := fresh "e" in
                  destruct (geo.Open p) as [e'|?] eqn:?
              end; try discriminate);
      intros _; eauto.
Qed.

(** X15.  When [CheckGeo] returns an error, its code is "UNKNOWN" (no
    database), "PRIVATE" (empty server or no address found) or "CDN"
    (the database lookup failed, and the error is that of the lookup);
    the address is "0.0.0.0" in the first two cases, and that of the
    resolved address in the third. *)
Theorem CheckGeo_error (g : geo.GeoService) (server : string)
    (preferIPv4 : bool) (addr code : string) (err : geo.error) :
  geo.CheckGeo g server preferIPv4 = (addr, code, Some err) ->
  (addr = "0.0.0.0" /\ code = "UNKNOWN" /\ geo.db g = None)
  \/ (addr = "0.0.0.0" /\ code = "PRIVATE")
  \/ (code = "CDN" /\
      exists r ip, geo.db g = Some r /\ geo.Country r ip = inl err /\
                   addr = geo.IPString ip /\
                   geo.IsPrivate ip = false /\
                   geo.IsUnspecified ip = false).
Proof.
  unfold geo.CheckGeo, geo.checkIPGeo.
  destruct (geo.db g) as [r|] eqn:Hdb.
  - destruct (String.eqb _ ""); [intros [= <- <- _]; auto|].
    destruct (geo.resolve _ preferIPv4) as [e|ip];
      [intros [= <- <- _]; auto|].
    destruct (geo.IsPrivate ip || geo.IsUnspecified ip) eqn:Hpriv;
      [discriminate|].
    apply orb_false_elim in Hpriv as [Hp Hu].
    destruct (geo.Country r ip) as [e|iso] eqn:Hc.
    + intros [= <- <- <-]. right. right. split; [reflexivity|].
      exists r, ip. auto.
    + destruct (String.eqb iso ""); discriminate.
  - intros [= <- <- _]. auto.
Qed.

(** X16.  Among several addresses of a URL's host, [CheckGeo] takes one
    of the addresses found; with [preferIPv4] it is the first IPv4
    address when there is one, and the first address otherwise. *)
Theorem choose_ip_prefers_IPv4 (ip0 : geo.IP) (ips : list geo.IP)
    (preferIPv4 : bool) :
  geo.choose_ip ip0 ips preferIPv4 ∈ ip0 :: ips
  /\ (preferIPv4 = true ->
      forall pre ip post,
        ip0 :: ips = pre ++ ip :: post ->
        Forall (fun a => geo.To4 a = false) pre ->
        geo.To4 ip = true ->
        geo.choose_ip ip0 ips preferIPv4 = ip)
  /\ ((preferIPv4 = false \/ Forall (fun a => geo.To4 a = false) (ip0 :: ips))
      -> geo.choose_ip ip0 ips preferIPv4 = ip0).
Proof.
  assert (Hfind : forall pre ip post,
            Forall (fun a => geo.To4 a = false) pre ->
            geo.To4 ip = true ->
            List.find geo.To4 (pre ++ ip :: post) = Some ip).
  { intros pre ip post Hpre Hip.
    induction Hpre as [|a pre Ha _ IH]; cbn.
    - rewrite Hip. reflexivity.
    - rewrite Ha. exact IH. }
  assert (Hnone : forall l, Forall (fun a => geo.To4 a = false) l ->
            List.find geo.To4 l = None).
  { intros l Hl. induction Hl as [|a l Ha _ IH]; cbn;
      [reflexivity | rewrite Ha; exact IH]. }
  split; [|split].
  - unfold geo.choose_ip. destruct ips as [|ip1 ips]; [set_solver|].
    destruct preferIPv4; [|set_solver].
    destruct (List.find geo.To4 (ip0 :: ip1 :: ips)) as [ip|] eqn:Hf;
      [|set_solver].
    apply List.find_some in Hf as [Hin _].
    apply list_elem_of_In. exact Hin.
  - intros -> pre ip post Heq Hpre Hip. unfold geo.choose_ip.
    destruct ips as [|ip1 ips].
    + destruct pre as [|a pre]; [injection Heq as ->; reflexivity|].
      injection Heq as _ Heq. destruct pre; discriminate Heq.
    + rewrite Heq, (Hfind pre ip post Hpre Hip). reflexivity.
  - intros Hcase. unfold geo.choose_ip.
    destruct ips as [|ip1 ips]; [reflexivity|].
    destruct Hcase as [->|Hall]; [reflexivity|].
    destruct preferIPv4; [|reflexivity].
    rewrite (Hnone _ Hall). reflexivity.
Qed.

(** X17.  Provided the database holds country codes, [getServerGeocode]
    returns "PRIVATE" exactly when the database opens and the server,
    trimmed, resolves to a private or unspecified address.  An empty
    server and a host that does not resolve give "XX", although
    [CheckGeo] reports "PRIVATE" for them. *)
Theorem getServerGeocode_PRIVATE (server : string) :
  cmd_spec.iso_codes ->
  cmd.getServerGeocode server = "PRIVATE"
  <-> (exists g ip,
         geo.NewGeoService = inr g /\
         strings.TrimSuffix (strings.TrimSpace server) "/" <> "" /\
         geo.resolve (strings.TrimSuffix (strings.TrimSpace server) "/")
           true = inr ip /\
         (geo.IsPrivate ip || geo.IsUnspecified ip) = true).
Proof.
  intros Hiso. unfold cmd.getServerGeocode.
  destruct geo.NewGeoService as [e|g] eqn:Hnew.
  { split; [discriminate | intros (g & ip & Hg & _); discriminate Hg]. }
  pose proof (NewGeoService_db g Hnew) as Hdb.
  unfold geo.CheckGeo, geo.checkIPGeo.
  destruct (geo.db g) as [r|]; [clear Hdb | contradiction].
  set (s := strings.TrimSuffix (strings.TrimSpace server) "/").
  destruct (String.eqb_spec s "") as [Hs|Hs].
  { split; [discriminate | intros (_ & _ & _ & Hne & _); contradiction]. }
  destruct (geo.resolve s true) as [e|ip] eqn:Hres.
  { split; [discriminate | intros (_ & ip & _ & _ & Hr & _); discriminate]. }
  destruct (geo.IsPrivate ip || geo.IsUnspecified ip) eqn:Hpriv.
  { split; [|reflexivity]. intros _. exists g, ip. auto. }
  split.
  - destruct (geo.Country r ip) as [e|iso] eqn:Hc; [discriminate|].
    destruct (String.eqb_spec iso "") as [->|Hne]; [discriminate|].
    intros ->. destruct (Hiso r ip _ Hc) as [He|Ha]; discriminate.
  - intros (_ & ip' & _ & _ & [= <-] & Hp). congruence.
Qed.
End ServiceFacts.

Section ServiceExamples.
Import examples.

Lemma NewGeoService_first_path_witness :
  @geo.NewGeoService mixed_lookup = inr mixed_service.
Proof.
  apply (@NewGeoService_first_path mixed_lookup
           [ "res/Country.mmdb"; "../res/Country.mmdb";
             "frontend/res/Country.mmdb" ] [] "./Country.mmdb" tt).
  - reflexivity.
  - intros q Hq.
    repeat (apply elem_of_cons in Hq as [->|Hq]);
      [eexists; reflexivity .. | inversion Hq].
  - reflexivity.
Defined.

Lemma choose_ip_prefers_IPv4_witness :
  @geo.choose_ip mixed_lookup 6 [4; 14] true ∈ [6; 4; 14]
  /\ @geo.choose_ip mixed_lookup 6 [4; 14] true = 4.
Proof.
  destruct (@choose_ip_prefers_IPv4 mixed_lookup 6 [4; 14] true)
    as (Hin & Hfirst & _).
  split; [exact Hin|].
  apply (Hfirst eq_refl [6] 4 [14]); [reflexivity | | reflexivity].
  constructor; [reflexivity | constructor].
Defined.

Lemma CheckGeo_error_witness :
  ("9.9.9.9" = "0.0.0.0" /\ "CDN" = "UNKNOWN" /\
   @geo.db mixed_lookup mixed_service = None)
  \/ ("9.9.9.9" = "0.0.0.0" /\ "CDN" = "PRIVATE")
  \/ ("CDN" = "CDN" /\
      exists r ip,
        @geo.db mixed_lookup mixed_service = Some r /\
        @geo.Country mixed_lookup r ip = inl "address not found" /\
        "9.9.9.9" = @geo.IPString mixed_lookup ip /\
        @geo.IsPrivate mixed_lookup ip = false /\
        @geo.IsUnspecified mixed_lookup ip = false).
Proof.
  apply (@CheckGeo_error mixed_lookup mixed_service "tls://anycast.example"
           true "9.9.9.9" "CDN" "address not found").
  reflexivity.
Defined.

Lemma getServerGeocode_PRIVATE_witness :
  @cmd.getServerGeocode mixed_lookup "192.168.1.1:53" = "PRIVATE"
  <-> (exists g ip,
         @geo.NewGeoService mixed_lookup = inr g /\
         strings.TrimSuffix (strings.TrimSpace "192.168.1.1:53") "/" <> "" /\
         @geo.resolve mixed_lookup
           (strings.TrimSuffix (strings.TrimSpace "192.168.1.1:53") "/")
           true = inr ip /\
         (@geo.IsPrivate mixed_lookup ip
          || @geo.IsUnspecified mixed_lookup ip) = true).
Proof.
  apply (@getServerGeocode_PRIVATE mixed_lookup "192.168.1.1:53").
  intros r ip code. unfold geo.Country, mixed_lookup.
  repeat (case_match; try discriminate); intros [= <-];
    (left; reflexivity) || (right; reflexivity).
Defined.
End ServiceExamples.

Section ResolvedNameFacts.
Import strings shapes.
Context `{geo.Lookup}.

(** A string that holds [sub] contains it. *)
Lemma Contains_middle (a sub b : string) :
  sub <> "" -> Contains (a +:+ (sub +:+ b)) sub = true.
Proof.
  intros Hsub. unfold Contains, Index.
  destruct (index 0 sub (a +:+ (sub +:+ b))) eqn:Hi; [reflexivity|].
  exfalso.
  apply (index_correct3 0 (String.length a) sub (a +:+ (sub +:+ b)) Hi Hsub);
    [lia|].
  rewrite <- (Nat.add_0_r (String.length a)), substring_append_r.
  apply substring_append_l.
Qed.

(** A string without the byte [c] contains no string that starts with
    [c]. *)
Lemma substring_free_of (c : ascii) (x : string) (n : nat) :
  forall (h : string) (m : nat),
    free_of c h = true -> substring m n h <> String c x.
Proof.
  induction h as [|d h IH]; intros m Hf.
  - destruct m, n; discriminate.
  - cbn in Hf. apply andb_prop in Hf as [Hd Hh].
    apply negb_true_iff, Ascii.eqb_neq in Hd.
    destruct m as [|m].
    + destruct n as [|n]; cbn; [discriminate|]. congruence.
    + cbn. apply IH. exact Hh.
Qed.

Lemma Contains_free_of (c : ascii) (x h : string) :
  free_of c h = true -> Contains h (String c x) = false.
Proof.
  intros Hf. unfold Contains, Index.
  destruct (index 0 (String c x) h) as [m|] eqn:Hi; [|reflexivity].
  exfalso. apply index_correct1 in Hi.
  exact (substring_free_of c x _ h m Hf Hi).
Qed.

Lemma CheckGeo_normal (g : geo.GeoService) (r : geo.Reader)
    (server s : string) (preferIPv4 : bool) :
  geo.db g = Some r ->
  TrimSuffix (TrimSpace server) "/" = s ->
  s <> "" ->
  geo.CheckGeo g server preferIPv4
  = match geo.resolve s preferIPv4 with
    | inl err => ("0.0.0.0", "PRIVATE", Some err)
    | inr ip => located g ip
    end.
Proof.
  intros Hdb Hs Hne. unfold geo.CheckGeo, located.
  rewrite Hdb, Hs.
  destruct (String.eqb_spec s "") as [|_]; [contradiction|].
  reflexivity.
Qed.

(** X10.  For a server that, without the white space around it and one
    closing slash, is a URL made of one of the schemes "https://",
    "tls://", "quic://" and "http://", a host name or IPv4 literal, and
    then nothing, a path, a port, or a port and a path, [CheckGeo]
    calls [net.LookupIP] with exactly the host and answers for the
    address it chooses among those found. *)
Theorem CheckGeo_url_host (g : geo.GeoService) (r : geo.Reader)
    (server scheme h rest : string) (preferIPv4 : bool) :
  geo.db g = Some r ->
  TrimSuffix (TrimSpace server) "/" = scheme +:+ (h +:+ rest) ->
  scheme ∈ schemes ->
  plain_name h ->
  after_host rest ->
  geo.CheckGeo g server preferIPv4 = url_answer g h preferIPv4.
Proof.
  intros Hdb Hs Hscheme Hh Hrest.
  assert (Hurl : exists w, scheme = w +:+ "://" /\ scheme <> "").
  { unfold schemes in Hscheme.
    repeat (apply elem_of_cons in Hscheme as [->|Hscheme]);
      [exists "https" | exists "tls" | exists "quic" | exists "http"
      | inversion Hscheme];
      (split; [reflexivity | discriminate]). }
  destruct Hurl as (w & Hw & Hne).
  rewrite (CheckGeo_normal g r server _ preferIPv4 Hdb Hs).
  - unfold geo.resolve, url_answer.
    assert (Hc : Contains (scheme +:+ (h +:+ rest)) "://" = true).
    { rewrite Hw, append_assoc. apply Contains_middle. discriminate. }
    rewrite Hc, (url_host_host scheme h rest Hscheme Hh Hrest).
    destruct (geo.LookupIP h) as [err|[|ip0 ips]]; reflexivity.
  - destruct scheme; [contradiction | discriminate].
Qed.

(** X12.  For a server that, without the white space around it and one
    closing slash, is no URL: when it is a host without a colon,
    [CheckGeo] calls [net.LookupIP] with it as it stands; when it is
    host:port, with the host alone if the port is a decimal number from
    1 to 65535 and with the whole string otherwise.  It answers for
    the first address found. *)
Theorem CheckGeo_plain_host (g : geo.GeoService) (r : geo.Reader)
    (server h port : string) (preferIPv4 : bool) :
  geo.db g = Some r ->
  free_of ":" h = true ->
  (TrimSuffix (TrimSpace server) "/" = h -> h <> "" ->
   geo.CheckGeo g server preferIPv4 = plain_answer g h)
  /\ (TrimSuffix (TrimSpace server) "/" = h +:+ String ":" port ->
      Contains (h +:+ String ":" port) "://" = false ->
      geo.CheckGeo g server preferIPv4
      = plain_answer g
          match strconv.Atoi port with
          | Some n =>
              if ((0 <? n) && (n <? 65536))%Z then h
              else h +:+ String ":" port
          | None => h +:+ String ":" port
          end).
Proof.
  intros Hdb Hh. destruct (plain_host_port h port Hh) as [Hplain Hport].
  split.
  - intros Hs Hne.
    rewrite (CheckGeo_normal g r server h preferIPv4 Hdb Hs Hne).
    unfold geo.resolve, plain_answer.
    rewrite (Contains_free_of ":" "//" h Hh), Hplain.
    destruct (geo.LookupIP h) as [err|[|ip0 ips]]; reflexivity.
  - intros Hs Hc.
    rewrite (CheckGeo_normal g r server _ preferIPv4 Hdb Hs).
    + unfold geo.resolve, plain_answer. rewrite Hc, Hport.
      destruct (geo.LookupIP _) as [err|[|ip0 ips]]; reflexivity.
    + destruct h; discriminate.
Qed.
End ResolvedNameFacts.

Section ResolvedNameExamples.
Import examples shapes.

Lemma CheckGeo_url_host_witness :
  @geo.CheckGeo mixed_lookup mixed_service
    "  https://dual.example:443/dns-query/ " true
  = @url_answer mixed_lookup mixed_service "dual.example" true.
Proof.
  apply (@CheckGeo_url_host mixed_lookup mixed_service tt
           "  https://dual.example:443/dns-query/ " "https://"
           "dual.example" ":443/dns-query" true).
  - reflexivity.
  - reflexivity.
  - left.
  - repeat split; reflexivity.
  - apply (after_port "4" "43" "/dns-query");
      [discriminate | discriminate | reflexivity | reflexivity |].
    right. exists "dns-query". reflexivity.
Defined.

Lemma CheckGeo_plain_host_witness :
  @geo.CheckGeo mixed_lookup mixed_service " 192.168.1.1/" false
    = @plain_answer mixed_lookup mixed_service "192.168.1.1"
  /\ @geo.CheckGeo mixed_lookup mixed_service "192.168.1.1:53/" false
     = @plain_answer mixed_lookup mixed_service "192.168.1.1".
Proof.
  split.
  - apply (proj1 (@CheckGeo_plain_host mixed_lookup mixed_service tt
                    " 192.168.1.1/" "192.168.1.1" "" false
                    eq_refl eq_refl));
      [reflexivity | discriminate].
  - apply (proj2 (@CheckGeo_plain_host mixed_lookup mixed_service tt
                    "192.168.1.1:53/" "192.168.1.1" "53" false
                    eq_refl eq_refl));
      reflexivity.
Defined.
End ResolvedNameExamples.

(* ===================================================================== *)
(** * Further properties of package cmd *)
(* ===================================================================== *)

Section PathFacts.
Import strings shapes.

Lemma substring_prefix (p s : string) :
  substring 0 (String.length p) s = p -> String.prefix p s = true.
Proof.
  revert s. induction p as [|a p IH]; intros s Hs; [apply prefix_nil|].
  destruct s as [|b s]; [discriminate Hs|]. cbn in Hs.
  injection Hs as -> Hs. cbn.
  destruct (Ascii.ascii_dec a a); [apply IH; exact Hs | contradiction].
Qed.

(** X18.  [extractIPFromServer] removes a leading "https://", "tls://"
    or "quic://" when something follows it, and nothing else: the
    scheme alone, a server with another scheme and a plain address are
    returned as they are, with port and path. *)
Theorem extractIPFromServer_strips :
  (forall scheme rest,
     scheme ∈ stripped_schemes ->
     cmd.extractIPFromServer (scheme +:+ rest)
     = if String.eqb rest "" then scheme else rest)
  /\ (forall server,
        (forall scheme, scheme ∈ stripped_schemes ->
                        HasPrefix server scheme = false) ->
        cmd.extractIPFromServer server = server).
Proof.
  split.
  - intros scheme rest Hscheme. unfold stripped_schemes in Hscheme.
    repeat (apply elem_of_cons in Hscheme as [->|Hscheme]);
      [| | | inversion Hscheme];
      (destruct rest as [|c r]; [reflexivity|]);
      repeat rewrite append_cons; rewrite append_nil_l;
      unfold cmd.extractIPFromServer; cbn;
      rewrite ?andb_false_r, substring_full; reflexivity.
  - intros server Hno. unfold cmd.extractIPFromServer.
    destruct (String.eqb_spec server "") as [->|_]; [reflexivity|].
    assert (Hcase : forall scheme, scheme ∈ stripped_schemes ->
              String.eqb (substring 0 (String.length scheme) server)
                scheme = false).
    { intros scheme Hscheme.
      destruct (String.eqb_spec
                  (substring 0 (String.length scheme) server) scheme)
        as [Heq|_]; [|reflexivity].
      apply substring_prefix in Heq.
      specialize (Hno scheme Hscheme). unfold HasPrefix in Hno.
      congruence. }
    pose proof (Hcase "https://") as H1.
    pose proof (Hcase "tls://") as H2.
    pose proof (Hcase "quic://") as H3.
    cbn [String.length] in H1, H2, H3.
    rewrite H1, H2, H3 by (unfold stripped_schemes; repeat constructor).
    rewrite !andb_false_r. reflexivity.
Qed.

Lemma length_rev (s : string) :
  String.length (String.rev s) = String.length s.
Proof.
  induction s as [|a s IH]; [reflexivity|].
  change (String a s) with (String a "" +:+ s).
  rewrite rev_append, !length_append, IH. cbn. lia.
Qed.

Lemma rev_rev (s : string) : String.rev (String.rev s) = s.
Proof.
  induction s as [|a s IH]; [reflexivity|].
  change (String a s) with (String a "" +:+ s) at 1.
  rewrite !rev_append, IH. reflexivity.
Qed.

Lemma append_same_length (u v x y : string) :
  String.length u = String.length v -> u +:+ x = v +:+ y -> u = v.
Proof.
  revert v. induction u as [|a u IH]; intros v Hl Hx.
  - destruct v; [reflexivity | discriminate Hl].
  - destruct v as [|b v]; [discriminate Hl|].
    rewrite !append_cons in Hx. injection Hx as -> Hx.
    f_equal. apply IH; [cbn in Hl; lia | exact Hx].
Qed.

(** A path that ends in one extension does not end in another of the
    same length. *)
Lemma HasSuffix_other (stem : string) (ext ext' : string) :
  String.length ext = String.length ext' -> ext <> ext' ->
  HasSuffix (stem +:+ ext) ext' = false.
Proof.
  intros Hlen Hne. unfold HasSuffix. rewrite rev_append.
  destruct (String.prefix _ _) eqn:Hp; [exfalso | reflexivity].
  apply prefix_split in Hp as [x Hx]. symmetry in Hx.
  apply append_same_length in Hx; [|rewrite !length_rev; congruence].
  apply Hne. rewrite <- (rev_rev ext), <- (rev_rev ext'). congruence.
Qed.

Lemma htmlFilePath_stem (stem : string) :
  cmd.htmlFilePath (stem +:+ ".json") = stem +:+ ".html".
Proof.
  unfold cmd.htmlFilePath.
  rewrite (HasSuffix_other stem ".json" ".html")
    by (reflexivity || discriminate).
  cbn [negb]. rewrite TrimSuffix_append. reflexivity.
Qed.

(** X19.  The file that [OutputHTML] writes always ends in ".html": a
    path with that ending is kept, a path ending in ".json" gets
    ".html" in its place, and any other path gets ".html" appended.
    Applying the rule twice changes nothing more. *)
Theorem htmlFilePath_html (outputPath : string) :
  HasSuffix (cmd.htmlFilePath outputPath) ".html" = true
  /\ cmd.htmlFilePath (cmd.htmlFilePath outputPath)
     = cmd.htmlFilePath outputPath
  /\ (forall stem,
        cmd.htmlFilePath (stem +:+ ".json") = stem +:+ ".html"
        /\ cmd.htmlFilePath (stem +:+ ".html") = stem +:+ ".html").
Proof.
  assert (Hends : HasSuffix (cmd.htmlFilePath outputPath) ".html" = true).
  { unfold cmd.htmlFilePath.
    destruct (HasSuffix outputPath ".html") eqn:Hs; cbn [negb];
      [exact Hs | apply HasSuffix_append]. }
  split; [exact Hends | split].
  - unfold cmd.htmlFilePath at 1. rewrite Hends. reflexivity.
  - intros stem. split; [apply htmlFilePath_stem|].
    unfold cmd.htmlFilePath. rewrite HasSuffix_append. reflexivity.
Qed.

(** X20.  The file that [writeResultsToFile] creates always ends in
    ".json"; another ending is kept in front of it, so "out.html"
    becomes "out.html.json", unlike in [OutputHTML]. *)
Theorem jsonFilePath_json (outputPath : string) :
  HasSuffix (cmd.jsonFilePath outputPath) ".json" = true
  /\ cmd.jsonFilePath (cmd.jsonFilePath outputPath)
     = cmd.jsonFilePath outputPath
  /\ (forall stem,
        cmd.jsonFilePath (stem +:+ ".html") = stem +:+ ".html.json"
        /\ cmd.htmlFilePath (cmd.jsonFilePath (stem +:+ ".html"))
           = stem +:+ ".html.html").
Proof.
  assert (Hends : HasSuffix (cmd.jsonFilePath outputPath) ".json" = true).
  { unfold cmd.jsonFilePath.
    destruct (HasSuffix outputPath ".json") eqn:Hs; cbn [negb];
      [exact Hs | apply HasSuffix_append]. }
  split; [exact Hends | split].
  - unfold cmd.jsonFilePath at 1. rewrite Hends. reflexivity.
  - intros stem.
    assert (Hj : cmd.jsonFilePath (stem +:+ ".html")
                 = stem +:+ ".html.json").
    { unfold cmd.jsonFilePath.
      rewrite (HasSuffix_other stem ".html" ".json")
        by (reflexivity || discriminate).
      cbn [negb]. rewrite append_assoc. reflexivity. }
    split; [exact Hj|]. rewrite Hj.
    change (stem +:+ ".html.json") with (stem +:+ (".html" +:+ ".json")).
    rewrite <- append_assoc.
    rewrite htmlFilePath_stem, append_assoc. reflexivity.
Qed.
End PathFacts.

Section HistogramFacts.
Import shapes.
Context {Others : Type}.

Lemma histogram_loop (distribution : list cmd.Bar) (res : list cmd.Point) :
  foldl (fun res bar =>
           if (cmd.bar_Count bar >? 0)%Z
           then res ++ [cmd.mkPoint (cmd.Milliseconds (cmd.bar_To bar))
                                    (cmd.bar_Count bar)]
           else res) res distribution
  = res ++ ((fun bar => cmd.mkPoint (cmd.Milliseconds (cmd.bar_To bar))
                                    (cmd.bar_Count bar))
            <$> filter (fun bar => (0 < cmd.bar_Count bar)%Z) distribution).
Proof.
  revert res. induction distribution as [|bar d IH]; intros res;
    cbn [foldl].
  - rewrite filter_nil, fmap_nil, app_nil_r. reflexivity.
  - rewrite IH. rewrite filter_cons.
    destruct (Z.gtb_spec (cmd.bar_Count bar) 0) as [Hpos|Hle].
    + rewrite decide_True by lia. rewrite fmap_cons, <- app_assoc.
      reflexivity.
    + rewrite decide_False by lia. reflexivity.
Qed.

(** X21.  With [HistDisplay] on, the latency distribution of the HTML
    report has one point for each bar of the histogram with a positive
    count, in the order of the bars, with the upper bound of the bar in
    whole milliseconds; no point has a count of zero, and the counts of
    the points add up to the counts of the bars.  With [HistDisplay] off
    the distribution is the nil slice. *)
Theorem histogramPoints_counts (b : cmd.Benchmark Others)
    (distribution : list cmd.Bar) :
  (cmd.HistDisplay b = false ->
   cmd.histogramPoints b distribution = None)
  /\ (cmd.HistDisplay b = true ->
      exists points,
        cmd.histogramPoints b distribution = Some points
        /\ points
           = ((fun bar => cmd.mkPoint (cmd.Milliseconds (cmd.bar_To bar))
                                      (cmd.bar_Count bar))
              <$> filter (fun bar => (0 < cmd.bar_Count bar)%Z)
                    distribution)
        /\ Forall (fun p => (0 < cmd.count p)%Z) points
        /\ (Forall (fun bar => (0 <= cmd.bar_Count bar)%Z) distribution ->
            point_total points = bar_total distribution)).
Proof.
  unfold cmd.histogramPoints. split; intros ->; [reflexivity|].
  eexists. split; [reflexivity|]. rewrite histogram_loop.
  cbn [app]. split; [reflexivity|]. split.
  - apply Forall_fmap. apply Forall_forall. intros bar Hbar.
    apply list_elem_of_filter in Hbar as [Hpos _]. exact Hpos.
  - intros Hnonneg.
    induction Hnonneg as [|bar d Hbar _ IH]; [reflexivity|].
    rewrite filter_cons. cbn [bar_total foldr].
    destruct (decide (0 < cmd.bar_Count bar)%Z) as [Hpos|Hzero].
    + cbn. f_equal. exact IH.
    + fold (bar_total d). rewrite IH.
      unfold bar_total. lia.
Qed.
End HistogramFacts.

Section HistogramExamples.
Import examples shapes.

Lemma histogramPoints_counts_witness :
  cmd.histogramPoints default_benchmark sample_distribution
  = Some [cmd.mkPoint 1 7; cmd.mkPoint 5 3]
  /\ point_total [cmd.mkPoint 1 7; cmd.mkPoint 5 3]
     = bar_total sample_distribution.
Proof.
  destruct (histogramPoints_counts default_benchmark sample_distribution)
    as [_ Hon].
  destruct (Hon eq_refl) as (points & Hsome & Hpoints & _ & Htotal).
  assert (Heq : points = [cmd.mkPoint 1 7; cmd.mkPoint 5 3])
    by (rewrite Hpoints; reflexivity).
  rewrite <- Heq. split; [exact Hsome|].
  apply Htotal. repeat constructor; discriminate.
Defined.
End HistogramExamples.

Section ExitFacts.
Context `{geo.Lookup} `{cmd.World}.

(** X22.  The process exits with status 1 exactly when it is not in
    batch mode and the run fails, the report cannot be printed, or a
    condition given with [--fail] has a positive counter; in every other
    case, and always in batch mode, the status is 0. *)
Theorem Execute_exit_status (benchmark : cmd.Benchmark cmd.Others)
    (failConditions : list string) :
  (cmd.exit_status (cmd.Execute benchmark failConditions) = 0%Z
   \/ cmd.exit_status (cmd.Execute benchmark failConditions) = 1%Z)
  /\ (cmd.exit_status (cmd.Execute benchmark failConditions) = 1%Z
      <-> cmd.BatchJSON benchmark = ""
          /\ match cmd.Run benchmark with
             | inl _ => True
             | inr res =>
                 match cmd.PrintReport benchmark res
                         (cmd.getServerGeocode (cmd.Server benchmark)) with
                 | inl _ => True
                 | inr _ =>
                     Exists (cmd_spec.matched (cmd.Merge benchmark res))
                       failConditions
                 end
             end).
Proof.
  unfold cmd.Execute.
  destruct (cmd.BatchJSON benchmark) as [|c list] eqn:Hbatch.
  - cbn [String.length Nat.ltb Nat.leb].
    destruct (cmd.Run benchmark) as [err|res]; [cbn; tauto|].
    destruct (cmd.PrintReport benchmark res _) as [err|report];
      [cbn; tauto|].
    assert (Hdec : forall fc,
              Exists (cmd_spec.matched (cmd.Merge benchmark res)) fc
              \/ ~ Exists (cmd_spec.matched (cmd.Merge benchmark res)) fc).
    { induction fc as [|f rest [IH|IH]];
        [right; inversion 1 | left; right; exact IH |].
      destruct (cmd.fail_case (cmd.Merge benchmark res) f) eqn:Hf.
      - left. left. apply fail_case_matched. exact Hf.
      - right. intros Hex. apply Exists_cons in Hex as [Hm|Hm];
          [|contradiction].
        apply fail_case_matched in Hm. congruence. }
    destruct (Hdec failConditions) as [Hm|Hm].
    + destruct failConditions as [|f rest]; [inversion Hm|].
      cbn [length Nat.ltb Nat.leb].
      rewrite (fail_loop_exits _ _ Hm). cbn. tauto.
    + destruct failConditions as [|f rest]; [cbn; intuition discriminate|].
      cbn [length Nat.ltb Nat.leb].
      rewrite (fail_loop_falls_through _ _ Hm). cbn.
      intuition discriminate.
  - cbn. intuition discriminate.
Qed.
End ExitFacts.

Section BatchLogFacts.
Import shapes.
Context `{geo.Lookup} `{cmd.World}.
Variable benchmark : cmd.Benchmark cmd.Others.

Lemma named_servers_one (entry : string) :
  named_servers [entry]
  = if String.eqb (strings.TrimSpace entry) "" then []
    else [strings.TrimSpace entry].
Proof.
  unfold named_servers. cbn. destruct (String.eqb _ ""); reflexivity.
Qed.

(** The lines that one iteration writes, and the key it may store. *)
Lemma batch_step_lines (st : cmd.BatchState) (entry : string) :
  exists lines,
    cmd.stderr (cmd.batch_step benchmark st entry)
    = cmd.stderr st ++ lines
    /\ test_log (named_servers [entry]) lines
    /\ forall key,
         is_Some (cmd.batchResults (cmd.batch_step benchmark st entry)
                  !! key) ->
         is_Some (cmd.batchResults st !! key)
         \/ (key ∈ named_servers [entry] /\ key ∈ completed lines).
Proof.
  rewrite named_servers_one. unfold cmd.batch_step. cbv zeta.
  destruct (String.eqb (strings.TrimSpace entry) "") eqn:Hb.
  { exists []. rewrite app_nil_r. repeat split; auto. constructor. }
  clear Hb. set (server := strings.TrimSpace entry) in *.
  assert (Hlog : forall line st',
            cmd.stderr st' = cmd.stderr st ++ [cmd.Testing server] ->
            cmd.batchResults st' = cmd.batchResults st ->
            closes server line ->
            exists lines,
              cmd.stderr (cmd.log line st') = cmd.stderr st ++ lines
              /\ test_log [server] lines
              /\ forall key,
                   is_Some (cmd.batchResults (cmd.log line st') !! key) ->
                   is_Some (cmd.batchResults st !! key)
                   \/ (key ∈ [server] /\ key ∈ completed lines)).
  { intros line st' Herr Hres Hline.
    exists [cmd.Testing server; line]. cbn [cmd.log cmd.stderr].
    rewrite Herr, <- app_assoc. split; [reflexivity|].
    split; [constructor; [exact Hline | constructor]|].
    intros key Hkey. left. unfold cmd.log in Hkey.
    cbn [cmd.batchResults] in Hkey.
    rewrite Hres in Hkey. exact Hkey. }
  destruct (cmd.Run _) as [err|res];
    [apply Hlog; [reflexivity | reflexivity | right; eauto]|].
  destruct (cmd.generateJSONForServer _ res server) as [err|data];
    [apply Hlog; [reflexivity | reflexivity | right; eauto]|].
  destruct (cmd.Unmarshal data) as [err|m];
    [apply Hlog; [reflexivity | reflexivity | right; eauto]|].
  assert (Hstore : forall result,
    exists lines,
      cmd.stderr
        (cmd.log (cmd.Completed server)
           (cmd.store server result (cmd.log (cmd.Testing server) st)))
      = cmd.stderr st ++ lines
      /\ test_log [server] lines
      /\ forall key,
           is_Some
             (cmd.batchResults
                (cmd.log (cmd.Completed server)
                   (cmd.store server result
                      (cmd.log (cmd.Testing server) st))) !! key) ->
           is_Some (cmd.batchResults st !! key)
           \/ (key ∈ [server] /\ key ∈ completed lines)).
  { intros result. exists [cmd.Testing server; cmd.Completed server].
    cbn [cmd.log cmd.store cmd.stderr cmd.batchResults].
    rewrite <- app_assoc. split; [reflexivity|].
    split; [constructor; [left; reflexivity | constructor]|].
    intros key Hkey. destruct (decide (key = server)) as [->|Hne].
    - right. split; [left | cbn; left].
    - left. rewrite lookup_insert_ne in Hkey by congruence. exact Hkey. }
  destruct (m !! server) as [serverResult|]; [apply Hstore|].
  destruct (cmd.range_first m) as [result|]; [apply Hstore|].
  apply Hlog; [reflexivity | reflexivity | left; reflexivity].
Qed.

Lemma test_log_app (servers1 servers2 : list string)
    (lines1 lines2 : list cmd.StderrLine) :
  test_log servers1 lines1 -> test_log servers2 lines2 ->
  test_log (servers1 ++ servers2) (lines1 ++ lines2).
Proof.
  induction 1 as [|server second servers lines Hc _ IH]; intros H2;
    [exact H2|].
  cbn. constructor; [exact Hc | exact (IH H2)].
Qed.

Lemma test_log_tested (servers : list string)
    (lines : list cmd.StderrLine) :
  test_log servers lines ->
  tested lines = servers /\ length lines = 2 * length servers.
Proof.
  induction 1 as [|server second servers lines Hc _ [IHt IHl]];
    [split; reflexivity|].
  split.
  - cbn. destruct Hc as [->|[err [->|[->| ->]]]]; cbn; fold (tested lines);
      rewrite IHt; reflexivity.
  - cbn. rewrite IHl. lia.
Qed.

Lemma tested_app (l1 l2 : list cmd.StderrLine) :
  tested (l1 ++ l2) = tested l1 ++ tested l2.
Proof. apply omap_app. Qed.

Lemma completed_app (l1 l2 : list cmd.StderrLine) :
  completed (l1 ++ l2) = completed l1 ++ completed l2.
Proof. apply omap_app. Qed.

Lemma named_servers_cons (entry : string) (entries : list string) :
  named_servers (entry :: entries)
  = named_servers [entry] ++ named_servers entries.
Proof.
  unfold named_servers. cbn.
  destruct (String.eqb _ ""); reflexivity.
Qed.

(** The loop of [runBatchBenchmark], from any state. *)
Lemma batch_loop_lines (entries : list string) (st : cmd.BatchState) :
  exists lines,
    cmd.stderr (foldl (cmd.batch_step benchmark) st entries)
    = cmd.stderr st ++ lines
    /\ test_log (named_servers entries) lines
    /\ forall key,
         is_Some (cmd.batchResults
                    (foldl (cmd.batch_step benchmark) st entries) !! key) ->
         is_Some (cmd.batchResults st !! key)
         \/ (key ∈ named_servers entries /\ key ∈ completed lines).
Proof.
  revert st. induction entries as [|entry entries IH]; intros st.
  - exists []. cbn [foldl]. rewrite app_nil_r.
    repeat split; auto. constructor.
  - cbn [foldl].
    destruct (batch_step_lines st entry) as (l1 & He1 & Ht1 & Hk1).
    destruct (IH (cmd.batch_step benchmark st entry))
      as (l2 & He2 & Ht2 & Hk2).
    exists (l1 ++ l2). rewrite He2, He1, <- app_assoc.
    split; [reflexivity|]. split.
    { rewrite (named_servers_cons entry entries).
      apply test_log_app; assumption. }
    intros key Hkey. rewrite completed_app.
    destruct (Hk2 key Hkey) as [Hbefore|[Hnamed Hdone]].
    + destruct (Hk1 key Hbefore) as [Hst|[Hnamed Hdone]]; [left; exact Hst|].
      right. rewrite (named_servers_cons entry entries).
      split; apply elem_of_app; auto.
    + right. rewrite (named_servers_cons entry entries).
      split; apply elem_of_app; auto.
Qed.

(** The keys that the loop of [runBatchBenchmark] has stored. *)
Lemma batch_keys (serverList key : string) :
  is_Some
    (cmd.batchResults
       (foldl (cmd.batch_step benchmark)
          (cmd.mkBatchState ∅
             [cmd.Starting (length (strings.Split serverList ","))])
          (strings.Split serverList ",")) !! key) ->
  key ∈ named_servers (strings.Split serverList ",")
  /\ key ∈ completed
             (cmd.stderr_out (cmd.runBatchBenchmark benchmark serverList)).
Proof.
  intros Hkey. unfold cmd.runBatchBenchmark. cbn [cmd.stderr_out].
  set (st0 := cmd.mkBatchState ∅ _) in *.
  destruct (batch_loop_lines (strings.Split serverList ",") st0)
    as (lines & Herr & _ & Hkeys).
  destruct (Hkeys key Hkey) as [Hempty|[Hnamed Hdone]].
  - cbn in Hempty. rewrite lookup_empty in Hempty.
    destruct Hempty as [? Hempty]. discriminate Hempty.
  - split; [exact Hnamed|]. rewrite Herr, completed_app.
    apply elem_of_app. right. exact Hdone.
Qed.

(** X23.  On standard error [runBatchBenchmark] first announces the
    number of entries of the list, blank entries counted and never less
    than one.  Then, for every entry that is not blank, in the order of
    the list and under its trimmed name (a repeated server again), come
    two lines: "Testing server" for that server, directly followed by
    "Completed testing server" or one error line for the same server. *)
Theorem runBatchBenchmark_stderr (serverList : string) :
  exists lines,
    cmd.stderr_out (cmd.runBatchBenchmark benchmark serverList)
    = cmd.Starting (length (strings.Split serverList ",")) :: lines
    /\ 1 <= length (strings.Split serverList ",")
    /\ test_log (named_servers (strings.Split serverList ",")) lines
    /\ tested lines = named_servers (strings.Split serverList ",")
    /\ length lines
       = 2 * length (named_servers (strings.Split serverList ",")).
Proof.
  unfold cmd.runBatchBenchmark. cbn [cmd.stderr_out].
  destruct (batch_loop_lines (strings.Split serverList ",")
              (cmd.mkBatchState ∅
                 [cmd.Starting (length (strings.Split serverList ","))]))
    as (lines & Herr & Hlog & _).
  exists lines. rewrite Herr. cbn [cmd.stderr app].
  split; [reflexivity|]. split.
  - pose proof (Split_nonempty serverList ",") as Hne.
    destruct (strings.Split serverList ","); [contradiction | cbn; lia].
  - split; [exact Hlog|]. exact (test_log_tested _ _ Hlog).
Qed.

(** X24.  Whatever the list and whatever the sub-runs do, every key of
    the object on standard output is the trimmed name, written as a JSON
    string, of an entry of the list for which a "Completed" line was
    written: a blank entry, and a server whose run or report failed, has
    no key.  When the names are valid UTF-8, the keys are these names
    themselves, distinct and in increasing byte order. *)
Theorem runBatchBenchmark_keys_completed (serverList : string) :
  (forall key,
     key ∈ (cmd.stdout (cmd.runBatchBenchmark benchmark serverList)).*1 ->
     exists server,
       key = cmd.json_string server
       /\ server ∈ named_servers (strings.Split serverList ",")
       /\ server ∈ completed
                      (cmd.stderr_out
                         (cmd.runBatchBenchmark benchmark serverList)))
  /\ (Forall (fun server => utf8.ValidString server = true)
        (named_servers (strings.Split serverList ",")) ->
      NoDup (cmd.stdout (cmd.runBatchBenchmark benchmark serverList)).*1
      /\ StronglySorted String.le
           (cmd.stdout (cmd.runBatchBenchmark benchmark serverList)).*1
      /\ forall key,
           key ∈ (cmd.stdout
                    (cmd.runBatchBenchmark benchmark serverList)).*1 ->
           key ∈ named_servers (strings.Split serverList ",")
           /\ key ∈ completed
                      (cmd.stderr_out
                         (cmd.runBatchBenchmark benchmark serverList))).
Proof.
  pose proof (batch_keys serverList) as Hkeys.
  unfold cmd.runBatchBenchmark at 1 3 4 5. cbn [cmd.stdout].
  set (final := cmd.batchResults _) in *.
  split.
  - intros key Hkey.
    destruct (MarshalIndent_members final) as (members & Hperm & _ & Heq).
    rewrite Heq, <- list_fmap_compose in Hkey.
    apply list_elem_of_fmap in Hkey as ([server v] & -> & Hin).
    exists server. split; [reflexivity|].
    apply Hkeys. exists v. apply elem_of_map_to_list.
    rewrite <- Hperm. exact Hin.
  - intros Hvalid.
    destruct (MarshalIndent_sorted final) as [Hperm Hsorted].
    { intros key Hkey. rewrite Forall_forall in Hvalid.
      apply Hvalid. apply Hkeys. exact Hkey. }
    split; [|split].
    + rewrite Hperm. apply NoDup_fst_map_to_list.
    + exact Hsorted.
    + intros key Hkey. rewrite Hperm in Hkey.
      apply list_elem_of_fmap in Hkey as ([k v] & -> & Hkv).
      apply elem_of_map_to_list in Hkv. cbn [fst].
      apply Hkeys. rewrite Hkv. eauto.
Qed.
End BatchLogFacts.

(* ===================================================================== *)
(** * Properties of the batch runner *)
(* ===================================================================== *)

Section ScoreFromResultFacts.
Import shapes.
Context `{cmd.Platform}.

(** [int64(x)] of a whole number within [int64] is that number. *)
Lemma int64_of_float64_IZR (n : Z) :
  (- 2 ^ 63 <= n < 2 ^ 63)%Z -> cmd.int64_of_float64 (IZR n) = n.
Proof.
  intros Hn. unfold cmd.int64_of_float64.
  assert (Hwhole : (if Rle_dec 0 (IZR n) then Int_part (IZR n)
                    else (- Int_part (- IZR n))%Z) = n).
  { destruct (Rle_dec 0 (IZR n)) as [Hpos|Hneg].
    - symmetry. apply Int_part_spec. lra.
    - rewrite <- opp_IZR.
      rewrite <- (Int_part_spec (IZR (- n)) (- n)%Z) by lra. lia. }
  rewrite Hwhole.
  destruct (Z.leb_spec (- 2 ^ 63) n); [|lia].
  destruct (Z.ltb_spec n (2 ^ 63)); [reflexivity | lia].
Qed.

Lemma as_float64_Some (v : option cmd.Value) (x : R) :
  cmd.as_float64 v = Some x <-> v = Some (cmd.VNumber x).
Proof.
  unfold cmd.as_float64. split.
  - destruct v as [[]|]; try discriminate. intros [= ->]. reflexivity.
  - intros ->. reflexivity.
Qed.

Lemma as_float64_is_Some (v : option cmd.Value) :
  is_Some (cmd.as_float64 v) <-> exists x, v = Some (cmd.VNumber x).
Proof.
  split.
  - intros [x Hx]. exists x. apply as_float64_Some. exact Hx.
  - intros [x ->]. eexists. reflexivity.
Qed.

(** X25.  [calculateScoreFromResult] returns a score exactly when the
    five members "totalRequests", "totalSuccessResponses",
    "totalErrorResponses", "totalIOErrors" and "queriesPerSecond" are
    numbers, "latencyStats" is an object, and its members "meanMs",
    "stdMs", "p95Ms" and "p50Ms" are numbers; other members are not
    looked at. *)
Theorem calculateScoreFromResult_defined (result : gmap string cmd.Value) :
  is_Some (cmd.calculateScoreFromResult result)
  <-> (forall key, key ∈ top_keys ->
         exists x, result !! key = Some (cmd.VNumber x))
      /\ exists latencyStats,
           result !! "latencyStats" = Some (cmd.VObject latencyStats)
           /\ forall key, key ∈ latency_keys ->
                exists x, latencyStats !! key = Some (cmd.VNumber x).
Proof.
  unfold cmd.calculateScoreFromResult, top_keys, latency_keys. split.
  - intros Hsome.
    destruct (cmd.as_float64 (result !! "totalRequests")) as [x1|] eqn:H1;
      [|destruct Hsome; discriminate].
    destruct (cmd.as_float64 (result !! "totalSuccessResponses"))
      as [x2|] eqn:H2; [|destruct Hsome; discriminate].
    destruct (cmd.as_float64 (result !! "totalErrorResponses"))
      as [x3|] eqn:H3; [|destruct Hsome; discriminate].
    destruct (cmd.as_float64 (result !! "totalIOErrors"))
      as [x4|] eqn:H4; [|destruct Hsome; discriminate].
    destruct (cmd.as_float64 (result !! "queriesPerSecond"))
      as [x5|] eqn:H5; [|destruct Hsome; discriminate].
    apply as_float64_Some in H1, H2, H3, H4, H5.
    split.
    { intros key Hkey.
      repeat (apply elem_of_cons in Hkey as [->|Hkey]); eauto.
      inversion Hkey. }
    destruct (result !! "latencyStats") as [[| | | | |ls|]|];
      try (destruct Hsome; discriminate).
    exists ls. split; [reflexivity|]. cbn [cmd.as_object] in Hsome.
    destruct (cmd.as_float64 (ls !! "meanMs")) as [y1|] eqn:L1;
      [|destruct Hsome; discriminate].
    destruct (cmd.as_float64 (ls !! "stdMs")) as [y2|] eqn:L2;
      [|destruct Hsome; discriminate].
    destruct (cmd.as_float64 (ls !! "p95Ms")) as [y3|] eqn:L3;
      [|destruct Hsome; discriminate].
    destruct (cmd.as_float64 (ls !! "p50Ms")) as [y4|] eqn:L4;
      [|destruct Hsome; discriminate].
    apply as_float64_Some in L1, L2, L3, L4.
    intros key Hkey.
    repeat (apply elem_of_cons in Hkey as [->|Hkey]); eauto.
    inversion Hkey.
  - intros (Htop & ls & Hls & Hlat).
    destruct (Htop "totalRequests") as [x1 ->]; [repeat constructor|].
    destruct (Htop "totalSuccessResponses") as [x2 ->];
      [repeat constructor|].
    destruct (Htop "totalErrorResponses") as [x3 ->];
      [repeat constructor|].
    destruct (Htop "totalIOErrors") as [x4 ->]; [repeat constructor|].
    destruct (Htop "queriesPerSecond") as [x5 ->]; [repeat constructor|].
    rewrite Hls. cbn [cmd.as_float64 cmd.as_object].
    destruct (Hlat "meanMs") as [y1 ->]; [repeat constructor|].
    destruct (Hlat "stdMs") as [y2 ->]; [repeat constructor|].
    destruct (Hlat "p95Ms") as [y3 ->]; [repeat constructor|].
    destruct (Hlat "p50Ms") as [y4 ->]; [repeat constructor|].
    cbn [cmd.as_float64]. eexists. reflexivity.
Qed.

(** X26.  From a result that holds the counters, the rate and the
    latencies of a benchmark as [generateJSONForHTML] writes them, read
    back as JSON numbers, [calculateScoreFromResult] computes the score
    that [CalculateScore] gives those metrics, provided the counters and
    latencies are whole numbers that a [float64] holds exactly (up to
    2^53 in absolute value); members beside them change nothing. *)
Theorem calculateScoreFromResult_round_trip
    (metrics : scoring.BenchmarkMetrics)
    (result latencyStats : gmap string cmd.Value) :
  exact_metrics metrics ->
  top_fields metrics ⊆ result ->
  result !! "latencyStats" = Some (cmd.VObject latencyStats) ->
  latency_fields (scoring.LatencyStats metrics) ⊆ latencyStats ->
  cmd.calculateScoreFromResult result
  = Some (scoring.CalculateScore metrics).
Proof.
  intros Hexact Htop Hls Hlat.
  assert (Hget : forall (m m' : gmap string cmd.Value) key v,
            m ⊆ m' -> m !! key = Some v -> m' !! key = Some v).
  { intros m m' key v Hsub Hm. eapply lookup_weaken; eassumption. }
  unfold cmd.calculateScoreFromResult.
  rewrite (Hget _ _ "totalRequests" _ Htop eq_refl).
  rewrite (Hget _ _ "totalSuccessResponses" _ Htop eq_refl).
  rewrite (Hget _ _ "totalErrorResponses" _ Htop eq_refl).
  rewrite (Hget _ _ "totalIOErrors" _ Htop eq_refl).
  rewrite (Hget _ _ "queriesPerSecond" _ Htop eq_refl).
  rewrite Hls. cbn [cmd.as_float64 cmd.as_object].
  rewrite (Hget _ _ "meanMs" _ Hlat eq_refl).
  rewrite (Hget _ _ "stdMs" _ Hlat eq_refl).
  rewrite (Hget _ _ "p95Ms" _ Hlat eq_refl).
  rewrite (Hget _ _ "p50Ms" _ Hlat eq_refl).
  cbn [cmd.as_float64].
  unfold exact_metrics, exact_in_float64 in Hexact.
  destruct Hexact as (H1 & H2 & H3 & H4 & H5 & H6 & H7 & H8).
  rewrite !int64_of_float64_IZR by lia.
  destruct metrics as [? ? ? ? ? []]. reflexivity.
Qed.
End ScoreFromResultFacts.

Section SingleServerFacts.
Context `{geo.Lookup} `{cmd.Shell} `{cmd.Platform}.

(** X27.  When the child process prints a JSON object,
    [runSingleServerBenchmark] returns it with "geocode" set to the
    geocode of the server, replacing a "geocode" of the output; a
    "score" of the output is kept, and without one the score computed
    from the result is stored if it can be computed; every other member
    is returned as it was parsed. *)
Theorem runSingleServerBenchmark_result (server : string)
    (batch : cmd.BatchBenchmark) (output : string)
    (parsed : gmap string cmd.Value) :
  cmd.dnspyre_Output (cmd.dnspyre_args server batch) = inr output ->
  cmd.Unmarshal_result output = inr (Some parsed) ->
  exists result,
    cmd.runSingleServerBenchmark server batch = cmd.Returns (inr result)
    /\ result !! "geocode"
       = Some (cmd.VString (cmd.getServerGeocode server))
    /\ (forall score, parsed !! "score" = Some score ->
                      result !! "score" = Some score)
    /\ (parsed !! "score" = None ->
        result !! "score"
        = cmd.VScore
            <$> cmd.calculateScoreFromResult
                  (<["geocode" :=
                       cmd.VString (cmd.getServerGeocode server)]> parsed))
    /\ (forall key, key <> "geocode" -> key <> "score" ->
                    result !! key = parsed !! key).
Proof.
  intros Hout Hparse. unfold cmd.runSingleServerBenchmark.
  rewrite Hout, Hparse. eexists. split; [reflexivity|].
  set (geocode := cmd.VString (cmd.getServerGeocode server)).
  assert (Hscore : <["geocode" := geocode]> parsed !! "score"
                   = parsed !! "score")
    by (apply lookup_insert_ne; discriminate).
  rewrite Hscore.
  destruct (parsed !! "score") as [score|] eqn:Hs.
  - split; [apply lookup_insert_eq|]. split.
    { intros score' [= <-]. rewrite Hscore. reflexivity. }
    split; [discriminate|].
    intros key Hg _. apply lookup_insert_ne. congruence.
  - destruct (cmd.calculateScoreFromResult _) as [score|].
    + split.
      { rewrite lookup_insert_ne by discriminate. apply lookup_insert_eq. }
      split; [discriminate|]. split.
      { intros _. apply lookup_insert_eq. }
      intros key Hg Hsc. rewrite !lookup_insert_ne by congruence.
      reflexivity.
    + split; [apply lookup_insert_eq|]. split; [discriminate|]. split.
      { intros _. exact Hscore. }
      intros key Hg _. apply lookup_insert_ne. congruence.
Qed.

(** X28.  [runSingleServerBenchmark] panics exactly when the child
    process succeeds and prints the JSON value [null]: the map is then
    nil and the geocode is stored into it.  A child that fails, and
    output that does not parse, give an error naming the server. *)
Theorem runSingleServerBenchmark_panics (server : string)
    (batch : cmd.BatchBenchmark) :
  ((exists msg, cmd.runSingleServerBenchmark server batch = cmd.Panics msg)
   <-> exists output,
         cmd.dnspyre_Output (cmd.dnspyre_args server batch) = inr output
         /\ cmd.Unmarshal_result output = inr None)
  /\ forall err,
       cmd.runSingleServerBenchmark server batch = cmd.Returns (inl err) ->
       strings.HasPrefix err
         ("failed to run dnspyre for server " +:+ server +:+ ": ") = true
       \/ strings.HasPrefix err
            ("failed to parse JSON result for server " +:+ server +:+ ": ")
          = true.
Proof.
  unfold cmd.runSingleServerBenchmark.
  destruct (cmd.dnspyre_Output _) as [e|output].
  { split.
    - split; [intros [msg Hm]; discriminate Hm
             | intros (o & Ho & _); discriminate Ho].
    - intros err [= <-]. left. unfold strings.HasPrefix.
      rewrite <- !append_assoc. apply prefix_append. }
  destruct (cmd.Unmarshal_result output) as [e|[parsed|]] eqn:Hparse.
  - split.
    + split; [intros [msg Hm]; discriminate Hm|].
      intros (o & [= <-] & Ho). congruence.
    + intros err [= <-]. right. unfold strings.HasPrefix.
      rewrite <- !append_assoc. apply prefix_append.
  - split.
    + split; [intros [msg Hm]; discriminate Hm|].
      intros (o & [= <-] & Ho). congruence.
    + intros err Herr. discriminate Herr.
  - split.
    + split; [eauto | intros _; eauto].
    + intros err Herr. discriminate Herr.
Qed.
End SingleServerFacts.

Section SingleServerExamples.
Import examples shapes.

Lemma calculateScoreFromResult_round_trip_witness :
  @cmd.calculateScoreFromResult amd64 sample_result
  = Some (scoring.CalculateScore sample_metrics).
Proof.
  apply (@calculateScoreFromResult_round_trip amd64 sample_metrics
           sample_result sample_latencyStats).
  - unfold exact_metrics, exact_in_float64. cbn. lia.
  - unfold sample_result.
    etrans; [|apply insert_subseteq; reflexivity].
    apply insert_subseteq. reflexivity.
  - reflexivity.
  - unfold sample_latencyStats. apply insert_subseteq. reflexivity.
Defined.

Lemma runSingleServerBenchmark_result_witness :
  exists result,
    @cmd.runSingleServerBenchmark mixed_lookup report_shell amd64
      "192.168.1.1" sample_batch = cmd.Returns (inr result)
    /\ result !! "geocode"
       = Some (cmd.VString
                 (@cmd.getServerGeocode mixed_lookup "192.168.1.1"))
    /\ (forall score, sample_result !! "score" = Some score ->
                      result !! "score" = Some score)
    /\ (sample_result !! "score" = None ->
        result !! "score"
        = cmd.VScore
            <$> @cmd.calculateScoreFromResult amd64
                  (<["geocode" :=
                       cmd.VString
                         (@cmd.getServerGeocode mixed_lookup
                            "192.168.1.1")]> sample_result))
    /\ (forall key, key <> "geocode" -> key <> "score" ->
                    result !! key = sample_result !! key).
Proof.
  apply (@runSingleServerBenchmark_result mixed_lookup report_shell amd64
           "192.168.1.1" sample_batch "{...}" sample_result);
    reflexivity.
Defined.
End SingleServerExamples.

(* ===================================================================== *)
(** * Trimmed server names *)
(* ===================================================================== *)

Section TrimFacts.
Import strings shapes.

Lemma string_length_ind (P : string -> Prop) :
  (forall s, (forall s', String.length s' < String.length s -> P s') -> P s)
  -> forall s, P s.
Proof.
  intros Hstep s.
  assert (Hall : forall n s', String.length s' < n -> P s').
  { induction n as [|n IH]; intros s' Hlt; [lia|].
    apply Hstep. intros s'' Hlt'. apply IH. lia. }
  apply (Hall (S (String.length s))). lia.
Qed.

Lemma ends_with_refl (s : string) : exists d, s = d +:+ s.
Proof. exists "". reflexivity. Qed.

Lemma ends_with_cons (c : ascii) (s t : string) :
  (exists d, t = d +:+ s) -> exists d, String c t = d +:+ s.
Proof. intros [d ->]. exists (String c d). reflexivity. Qed.

(** Both trimming loops drop a prefix of their argument. *)
Ltac split_if :=
  match goal with
  | |- context [if ?b then _ else _] => destruct b eqn:?
  end.

Ltac trim_suffix :=
  let s := fresh "s" in
  let IH := fresh "IH" in
  intros s; induction s as [s IH] using string_length_ind;
  destruct s as [|c1 s1]; [apply ends_with_refl|];
  cbn [TrimLeftSpace TrimLeftSpace_rev];
  split_if; [apply ends_with_cons, IH; cbn; lia|];
  destruct s1 as [|c2 s2]; [apply ends_with_refl|]; cbv iota;
  split_if; [do 2 apply ends_with_cons; apply IH; cbn; lia|];
  destruct s2 as [|c3 s3]; [apply ends_with_refl|]; cbv iota;
  split_if;
    [do 3 apply ends_with_cons; apply IH; cbn; lia | apply ends_with_refl].

Lemma TrimLeftSpace_suffix :
  forall s, exists d, s = d +:+ TrimLeftSpace s.
Proof. trim_suffix. Qed.

Lemma TrimLeftSpace_rev_suffix :
  forall s, exists d, s = d +:+ TrimLeftSpace_rev s.
Proof. trim_suffix. Qed.

Lemma TrimLeftSpace_length (s : string) :
  String.length (TrimLeftSpace s) <= String.length s.
Proof.
  destruct (TrimLeftSpace_suffix s) as [d Hd].
  rewrite Hd at 2. rewrite length_append. lia.
Qed.

Ltac trim_again :=
  cbn [TrimLeftSpace TrimLeftSpace_rev];
  repeat match goal with
    | E : ?b = false |- context [if ?b then _ else _] => rewrite E
    end;
  reflexivity.

Ltac trim_idem :=
  let s := fresh "s" in
  let IH := fresh "IH" in
  intros s; induction s as [s IH] using string_length_ind;
  destruct s as [|c1 s1]; [reflexivity|];
  cbn [TrimLeftSpace TrimLeftSpace_rev];
  split_if; [apply IH; cbn; lia|];
  destruct s1 as [|c2 s2]; [trim_again|]; cbv iota;
  split_if; [apply IH; cbn; lia|];
  destruct s2 as [|c3 s3]; [trim_again|]; cbv iota;
  split_if; [apply IH; cbn; lia | trim_again].

Lemma TrimLeftSpace_idem :
  forall s, TrimLeftSpace (TrimLeftSpace s) = TrimLeftSpace s.
Proof. trim_idem. Qed.

Lemma TrimLeftSpace_rev_idem :
  forall s, TrimLeftSpace_rev (TrimLeftSpace_rev s) = TrimLeftSpace_rev s.
Proof. trim_idem. Qed.

(** A string without leading white space has no prefix with leading
    white space. *)
Lemma TrimLeftSpace_prefix (p q : string) :
  TrimLeftSpace (p +:+ q) = p +:+ q -> TrimLeftSpace p = p.
Proof.
  intros Ht.
  assert (Hshorter : forall c r,
            TrimLeftSpace r = String c r -> False).
  { intros c r Hr. pose proof (TrimLeftSpace_length r) as Hl.
    rewrite Hr in Hl. cbn in Hl. lia. }
  assert (Hshorter2 : forall c c' r,
            TrimLeftSpace r = String c (String c' r) -> False).
  { intros c c' r Hr. pose proof (TrimLeftSpace_length r) as Hl.
    rewrite Hr in Hl. cbn in Hl. lia. }
  assert (Hshorter3 : forall c c' c'' r,
            TrimLeftSpace r = String c (String c' (String c'' r)) -> False).
  { intros c c' c'' r Hr. pose proof (TrimLeftSpace_length r) as Hl.
    rewrite Hr in Hl. cbn in Hl. lia. }
  destruct p as [|c1 p1]; [reflexivity|].
  rewrite append_cons in Ht. cbn [TrimLeftSpace] in Ht |- *.
  destruct (asciiSpace c1); [exfalso; eauto|].
  destruct p1 as [|c2 p2]; [reflexivity|].
  rewrite append_cons in Ht. cbn [TrimLeftSpace] in Ht.
  destruct (space2 c1 c2); [exfalso; eauto|].
  destruct p2 as [|c3 p3]; [reflexivity|].
  rewrite append_cons in Ht. cbn [TrimLeftSpace] in Ht.
  destruct (space3 c1 c2 c3); [exfalso; eauto|].
  reflexivity.
Qed.

(** [TrimRightSpace] keeps a prefix of its argument. *)
Lemma TrimRightSpace_prefix (t : string) :
  exists q, t = TrimRightSpace t +:+ q.
Proof.
  unfold TrimRightSpace.
  destruct (TrimLeftSpace_rev_suffix (String.rev t)) as [d Hd].
  exists (String.rev d).
  rewrite <- rev_append, <- Hd, rev_rev. reflexivity.
Qed.

Lemma TrimRightSpace_idem (t : string) :
  TrimRightSpace (TrimRightSpace t) = TrimRightSpace t.
Proof.
  unfold TrimRightSpace. rewrite rev_rev, TrimLeftSpace_rev_idem.
  reflexivity.
Qed.

(** [strings.TrimSpace] of a trimmed string is that string. *)
Lemma TrimSpace_idem (s : string) : TrimSpace (TrimSpace s) = TrimSpace s.
Proof.
  unfold TrimSpace.
  destruct (TrimRightSpace_prefix (TrimLeftSpace s)) as [q Hq].
  assert (Hclean : TrimLeftSpace (TrimRightSpace (TrimLeftSpace s))
                   = TrimRightSpace (TrimLeftSpace s)).
  { apply (TrimLeftSpace_prefix _ q). rewrite <- Hq.
    apply TrimLeftSpace_idem. }
  rewrite Hclean. apply TrimRightSpace_idem.
Qed.

(** The names of a list of entries are trimmed and not empty. *)
Lemma named_servers_trimmed (entries : list string) (server : string) :
  server ∈ named_servers entries ->
  server <> ""
  /\ TrimSpace server = server
  /\ exists entry, entry ∈ entries /\ server = TrimSpace entry.
Proof.
  unfold named_servers. intros Hin.
  apply list_elem_of_omap in Hin as (entry & Hentry & Hsome).
  destruct (String.eqb_spec (TrimSpace entry) "") as [|Hne];
    [discriminate Hsome|].
  injection Hsome as <-.
  split; [exact Hne|]. split; [apply TrimSpace_idem|]. eauto.
Qed.

(** X29.  The servers that [runBatchBenchmark] tests are never empty
    and carry no white space at either end; each is an entry of the
    list, trimmed. *)
Theorem runBatchBenchmark_names_trimmed `{geo.Lookup} `{cmd.World}
    (benchmark : cmd.Benchmark cmd.Others) (serverList server : string) :
  server ∈ tested
             (cmd.stderr_out (cmd.runBatchBenchmark benchmark serverList)) ->
  server <> ""
  /\ TrimSpace server = server
  /\ exists entry,
       entry ∈ Split serverList "," /\ server = TrimSpace entry.
Proof.
  intros Htested. apply named_servers_trimmed.
  unfold cmd.runBatchBenchmark in Htested.
  cbn [cmd.stdout cmd.stderr_out] in Htested.
  set (st0 := cmd.mkBatchState ∅ _) in Htested.
  destruct (batch_loop_lines benchmark (Split serverList ",") st0)
    as (lines & Herr & Hlog & _).
  apply test_log_tested in Hlog as [Ht _].
  rewrite Herr in Htested. cbn [st0 cmd.stderr] in Htested.
  rewrite tested_app in Htested. cbn in Htested.
  rewrite <- Ht. exact Htested.
Qed.

(** X30.  [CheckGeo] trims the server itself: white space around the
    server, as an entry of a batch list may carry, changes nothing in
    its answer. *)
Theorem CheckGeo_trims `{geo.Lookup} (g : geo.GeoService)
    (server : string) (preferIPv4 : bool) :
  geo.CheckGeo g (TrimSpace server) preferIPv4
  = geo.CheckGeo g server preferIPv4.
Proof. unfold geo.CheckGeo. rewrite TrimSpace_idem. reflexivity. Qed.
End TrimFacts.

Section TrimExamples.
Import examples shapes.

Lemma runBatchBenchmark_names_trimmed_witness :
  "1.1.1.1" <> ""
  /\ strings.TrimSpace "1.1.1.1" = "1.1.1.1"
  /\ exists entry,
       entry ∈ strings.Split "8.8.8.8, , 1.1.1.1 " ","
       /\ "1.1.1.1" = strings.TrimSpace entry.
Proof.
  apply (@runBatchBenchmark_names_trimmed us_lookup echo_world
           (batch_benchmark "8.8.8.8, , 1.1.1.1 ")
           "8.8.8.8, , 1.1.1.1 " "1.1.1.1").
  vm_compute. right. left.
Defined.
End TrimExamples.
